(** * Beatly backend: a shallow embedding of the request handlers

    The development follows the layout of the repository:
    - [JsString]   : the string primitives the handlers call
                     ([trim], [toLowerCase], [split], spreading a [Set]);
    - [Video]      : models/Video.js (schema, setters, validation, methods,
                     save hook);
    - [User], [Comment] : the two other collections;
    - [Http]       : responses and the JSON values the handlers send;
    - [Store]      : the collections and the blob container;
    - [Auth]       : controllers/auth.js and middleware/auth.js;
    - [VideoCtl]   : controllers/video.js;
    - [CommentCtl] : controllers/comment.js;
    - [App]        : the routes and the global error handler;
    - [Account], [CommentAdmin], [Stats], [Seed] : the handlers that the
                     routes above do not reach ([getCurrentUser],
                     [deleteComment], [getVideoStats]) and the script that
                     seeds the admin;
    - [Effect]     : the writes a request can make, and the predicates of
                     the invariants of the stored data.

    A handler is a function from the store to a new store and either a
    value or a thrown error; [try]/[catch] is a combinator on such
    functions. What the libraries and the outside world decide (token
    verification, hashing, fresh ids, whether an upload to the container
    succeeds, which release of Mongoose is installed) is a record [Env]
    that every handler takes.

    Strings are sequences of code units below 256 (Latin-1); numbers that
    the code only increments and decrements are integers. Requests are
    served one after the other; logging, timestamps and pagination are
    left out. *)

From Stdlib Require Import ZArith List String Ascii Bool Lia DecimalString.
From stdpp Require Import base option list gmap strings.

Set Warnings "-register-all".
Open Scope string_scope.
Open Scope Z_scope.

(** ** JavaScript string primitives *)

Module JsString.

(** White space of [String.prototype.trim] among the code units below
    256: TAB, LF, VT, FF, CR, SPACE and NO-BREAK SPACE. *)
Definition is_white (a : ascii) : bool :=
  let n := nat_of_ascii a in
  ((9 <=? n)%nat && (n <=? 13)%nat) || (n =? 32)%nat || (n =? 160)%nat.

(** [toLowerCase] on one code unit: A-Z, and the Latin-1 capitals
    U+00C0..U+00DE except the multiplication sign U+00D7. *)
Definition lower_char (a : ascii) : ascii :=
  let n := nat_of_ascii a in
  if ((65 <=? n)%nat && (n <=? 90)%nat)
     || ((192 <=? n)%nat && (n <=? 222)%nat && negb (n =? 215)%nat)
  then ascii_of_nat (n + 32) else a.

Fixpoint toLowerCase (s : string) : string :=
  match s with
  | EmptyString => EmptyString
  | String a r => String (lower_char a) (toLowerCase r)
  end.

Fixpoint trimStart (s : string) : string :=
  match s with
  | EmptyString => EmptyString
  | String a r => if is_white a then trimStart r else s
  end.

Fixpoint trimEnd (s : string) : string :=
  match s with
  | EmptyString => EmptyString
  | String a r =>
      match trimEnd r with
      | EmptyString => if is_white a then EmptyString else String a EmptyString
      | t => String a t
      end
  end.

Definition trim (s : string) : string := trimEnd (trimStart s).

(** [s.split(sep)] for a one-character separator: always at least one
    piece, empty pieces are kept. *)
Fixpoint split (sep : ascii) (s : string) : list string :=
  match s with
  | EmptyString => [EmptyString]
  | String a r =>
      if Ascii.eqb a sep then EmptyString :: split sep r
      else match split sep r with
           | [] => [String a EmptyString]
           | p :: ps => String a p :: ps
           end
  end.

(** [[...new Set(l)]]: the elements of [l] in order of first
    occurrence. [seen] is the set built so far. *)
Fixpoint spread_set_from (seen l : list string) : list string :=
  match l with
  | [] => []
  | x :: r =>
      if bool_decide (x ∈ seen) then spread_set_from seen r
      else x :: spread_set_from (x :: seen) r
  end.

Definition spread_set (l : list string) : list string := spread_set_from [] l.

(** [s.split('/').pop()] *)
Definition last_segment (s : string) : string :=
  List.last (split "/"%char s) EmptyString.

(** [l.join(sep)] *)
Fixpoint join (sep : string) (l : list string) : string :=
  match l with
  | [] => EmptyString
  | [x] => x
  | x :: r => x ++ sep ++ join sep r
  end.

(** A string that does not start with white space. *)
Definition clean_start (s : string) : bool :=
  match s with
  | EmptyString => true
  | String a _ => negb (is_white a)
  end.

End JsString.

(** ** Shared types *)

(** A MongoDB [ObjectId], by its value. *)
Abbreviation ObjectId := string (only parsing).

(** A Node [Buffer], by its content. *)
Abbreviation Buffer := string (only parsing).

(** Modelled from the spec: models/User.js is not part of the sources; the
    role of a user is one of consumer and admin. *)
Inductive Role := consumer | admin.

Definition role_string (r : Role) : string :=
  match r with consumer => "consumer" | admin => "admin" end.

#[global] Instance Role_eq_dec : EqDecision Role.
Proof. solve_decision. Defined.

(** The result of a computation that may throw; the payload of [Throw] is
    [error.message]. *)
Inductive result (A : Type) :=
| Ok (a : A)
| Throw (message : string).
Arguments Ok {A} a.
Arguments Throw {A} message.

(** ** models/Video.js *)

Module Video.

Inductive Status := pending | approved | rejected.

#[global] Instance Status_eq_dec : EqDecision Status.
Proof. solve_decision. Defined.

Definition status_string (s : Status) : string :=
  match s with
  | pending => "pending" | approved => "approved" | rejected => "rejected"
  end.

(** The paths of [VideoSchema]; [createdAt] and the timestamps are left
    out. The [_id] of a document is its key in the collection. *)
Record doc := mk {
  title : string;
  description : string;
  url : string;
  thumbnail : option string;
  tags : list string;
  uploadedBy : ObjectId;
  status : Status;
  views : Z;
  likes : Z;
  likedBy : list ObjectId;
  comments : Z
}.

(** [new Video({title, description, url, thumbnail, tags, uploadedBy,
    status})]: the [trim: true] setters run on assignment, the other
    paths take their defaults. *)
Definition new (title description url : string) (thumbnail : option string)
    (tags : list string) (uploadedBy : ObjectId) (status : Status) : doc :=
  {| title := JsString.trim title;
     description := JsString.trim description;
     url := url;
     thumbnail := thumbnail;
     tags := tags;
     uploadedBy := uploadedBy;
     status := status;
     views := 0;
     likes := 0;
     likedBy := [];
     comments := 0 |}.

(** Reading a string-valued property of a document: the paths of the
    schema are defined, any other name is [undefined]. *)
Definition get (v : doc) (path : string) : option string :=
  if String.eqb path "title" then Some (title v)
  else if String.eqb path "description" then Some (description v)
  else if String.eqb path "url" then Some (url v)
  else if String.eqb path "thumbnail" then thumbnail v
  else if String.eqb path "status" then Some (status_string (status v))
  else None.

(** The first failing validator of a string path: required, minlength,
    maxlength. *)
Definition check_string (required tooShort tooLong : string) (min max : nat)
    (s : string) : option string :=
  if String.eqb s "" then Some required
  else if (String.length s <? min)%nat then Some tooShort
  else if (max <? String.length s)%nat then Some tooLong
  else None.

(** The validation errors of a document, as (path, message) pairs in the
    order of the schema. *)
Definition validation_errors (v : doc) : list (string * string) :=
  omap id
    [ pair "title" <$> check_string "Video title is required"
        "Title must be at least 3 characters long"
        "Title cannot exceed 100 characters" 3 100 (title v);
      pair "description" <$> check_string "Video description is required"
        "Description must be at least 10 characters long"
        "Description cannot exceed 500 characters" 10 500 (description v);
      (if String.eqb (url v) "" then Some ("url", "Video URL is required") else None);
      (if (0 <? length (tags v))%nat && (length (tags v) <=? 10)%nat then None
       else Some ("tags", "Tags must have between 1 and 10 tags")) ].

Definition validation_message (errs : list (string * string)) : string :=
  "Video validation failed: "
  ++ JsString.join ", " ((fun e => fst e ++ ": " ++ snd e) <$> errs).

(** [VideoSchema.pre('save')] *)
Definition pre_save (v : doc) : doc :=
  {| title := title v; description := description v; url := url v;
     thumbnail := thumbnail v;
     tags := JsString.spread_set
               ((fun tag => JsString.toLowerCase (JsString.trim tag)) <$> tags v);
     uploadedBy := uploadedBy v; status := status v; views := views v;
     likes := likes v; likedBy := likedBy v; comments := comments v |}.

(** [Array.prototype.indexOf] *)
Fixpoint indexOf (l : list ObjectId) (x : ObjectId) : Z :=
  match l with
  | [] => -1
  | y :: r =>
      if decide (y = x) then 0
      else let i := indexOf r x in if i <? 0 then -1 else i + 1
  end.

(** The assignments of [incrementViews], before [this.save()]. *)
Definition incrementViews (v : doc) : doc :=
  {| title := title v; description := description v; url := url v;
     thumbnail := thumbnail v; tags := tags v; uploadedBy := uploadedBy v;
     status := status v; views := views v + 1;
     likes := likes v; likedBy := likedBy v; comments := comments v |}.

Definition set_likes (v : doc) (l : list ObjectId) (n : Z) : doc :=
  {| title := title v; description := description v; url := url v;
     thumbnail := thumbnail v; tags := tags v; uploadedBy := uploadedBy v;
     status := status v; views := views v;
     likes := n; likedBy := l; comments := comments v |}.

(** The assignments of [toggleLike(userId)], before [this.save()]:
    [splice(index, 1)] removes the entry at [index], [push] appends. *)
Definition toggleLike (userId : ObjectId) (v : doc) : doc :=
  let index := indexOf (likedBy v) userId in
  if index >? -1 then
    set_likes v (delete (Z.to_nat index) (likedBy v)) (likes v - 1)
  else
    set_likes v (likedBy v ++ [userId])%list (likes v + 1).

(** The branch [toggleLike(userId)] takes: [true] for "Like", [false] for
    "Unlike". *)
Definition toggle_is_like (userId : ObjectId) (v : doc) : bool :=
  negb (indexOf (likedBy v) userId >? -1).

(** The like counter and the like list agree, and the list is a set. *)
Definition like_consistent (v : doc) : Prop :=
  likes v = Z.of_nat (length (likedBy v)) ∧ NoDup (likedBy v).

End Video.

(** ** Users and comments *)

Module User.

(** Modelled from the spec: models/User.js is not part of the sources. A
    user has a name, an email, a hashed password and a role. *)
Record doc := mk {
  _id : ObjectId;
  name : string;
  email : string;
  password : string;
  role : Role
}.

End User.

Module Comment.

(** Modelled from the spec: models/Comment.js is not part of the sources.
    A comment has a text and refers to its video and its author. *)
Record doc := mk {
  _id : ObjectId;
  video : ObjectId;
  user : ObjectId;
  text : string
}.

End Comment.

(** ** Responses *)

Module Http.

Inductive json :=
| JNull
| JNum (n : Z)
| JStr (s : string)
| JArr (items : list json)
| JObj (fields : list (string * json)).

Record Response := mk { status : Z; body : json }.

(** [o[key]] on a JSON value. *)
Fixpoint assoc (key : string) (fields : list (string * json)) : option json :=
  match fields with
  | [] => None
  | (k, v) :: r => if String.eqb k key then Some v else assoc key r
  end.

Definition field (key : string) (j : json) : option json :=
  match j with JObj fields => assoc key fields | _ => None end.

Definition JOpt (o : option string) : json :=
  match o with Some s => JStr s | None => JNull end.

End Http.
Import Http.

(** The error taxonomy of the specification, read off the status code of
    a response. *)
Inductive ErrorKind :=
| BadRequest | Unauthorized | Forbidden | NotFound | Conflict | Internal.

Definition error_kind (r : Response) : option ErrorKind :=
  if status r =? 400 then Some BadRequest
  else if status r =? 401 then Some Unauthorized
  else if status r =? 403 then Some Forbidden
  else if status r =? 404 then Some NotFound
  else if status r =? 409 then Some Conflict
  else if status r =? 500 then Some Internal
  else None.

(** ** The database, the blob container and the libraries *)

Module Store.

(** The collections are kept in insertion order, videos by [_id]; [blobs]
    maps the name of a blob of the container to its content; [counter]
    numbers the draws of fresh values (object ids, uuids, salts). *)
Record db := mk {
  users : list User.doc;
  videos : gmap ObjectId Video.doc;
  comments : list Comment.doc;
  blobs : gmap string Buffer;
  counter : nat
}.

(** The store before the first request: the users that were seeded (the
    admin of the seeding script), and nothing else. *)
Definition seeded (us : list User.doc) : db :=
  {| users := us; videos := ∅; comments := []; blobs := ∅; counter := 0 |}.

Definition set_users (f : list User.doc -> list User.doc) (s : db) : db :=
  {| users := f (users s); videos := videos s; comments := comments s;
     blobs := blobs s; counter := counter s |}.

Definition set_videos (f : gmap ObjectId Video.doc -> gmap ObjectId Video.doc)
    (s : db) : db :=
  {| users := users s; videos := f (videos s); comments := comments s;
     blobs := blobs s; counter := counter s |}.

Definition set_comments (f : list Comment.doc -> list Comment.doc) (s : db) : db :=
  {| users := users s; videos := videos s; comments := f (comments s);
     blobs := blobs s; counter := counter s |}.

Definition set_blobs (f : gmap string Buffer -> gmap string Buffer) (s : db) : db :=
  {| users := users s; videos := videos s; comments := comments s;
     blobs := f (blobs s); counter := counter s |}.

Definition tick (s : db) : db :=
  {| users := users s; videos := videos s; comments := comments s;
     blobs := blobs s; counter := S (counter s) |}.

End Store.

(** What the handlers get from the libraries they call and from the
    outside world. *)
Record Env := {
  (* jsonwebtoken *)
  jwt_sign : ObjectId -> string -> string -> Role -> string;
  (* [jwt.verify(token, secret).id], [None] when [verify] throws *)
  jwt_verify : string -> option ObjectId;
  (* bcryptjs *)
  bcrypt_genSalt : nat -> string;
  bcrypt_hash : string -> string -> string;
  (* [bcrypt.compare(s, hash)] on two strings: whether they match, or the
     error with which bcryptjs rejects a malformed hash *)
  bcrypt_compare : string -> string -> result bool;
  (* mongoose *)
  ObjectId_isValid : string -> bool;
  new_ObjectId : nat -> ObjectId;
  CastError_message : string -> string;
  (* the validation of models/User.js and of models/Comment.js,
     [Some message] when it fails *)
  User_validate : User.doc -> option string;
  Comment_validate : Comment.doc -> option string;
  (* uuid and path *)
  uuidv4 : nat -> string;
  (* [path.basename(f, path.extname(f))] *)
  path_stem : string -> string;
  (* @azure/storage-blob: the URL of the container, the encoding of a
     blob name in a URL, and the error of [uploadData] to a blob name
     when it fails *)
  container_url : string;
  url_encode : string -> string;
  uploadData_error : string -> option string;
  (* mongoose: whether documents have the method [remove], which
     Mongoose 7 dropped *)
  Document_remove : bool
}.

(** ** Handlers as computations on the store that may throw *)

Definition M (A : Type) : Type := Store.db -> Store.db * result A.

Definition ret {A} (a : A) : M A := fun s => (s, Ok a).

Definition throw {A} (message : string) : M A := fun s => (s, Throw message).

Definition bind {A B} (m : M A) (k : A -> M B) : M B :=
  fun s =>
    match m s with
    | (s', Ok a) => k a s'
    | (s', Throw e) => (s', Throw e)
    end.

(** [try { m } catch (error) { h error }] *)
Definition try_catch {A} (m : M A) (h : string -> M A) : M A :=
  fun s =>
    match m s with
    | (s', Ok a) => (s', Ok a)
    | (s', Throw e) => h e s'
    end.

Definition get_db : M Store.db := fun s => (s, Ok s).

Definition modify (f : Store.db -> Store.db) : M unit := fun s => (f s, Ok tt).

Definition fresh : M nat := fun s => (Store.tick s, Ok (Store.counter s)).

Notation "x <- m ;; k" := (bind m (fun x => k))
  (at level 100, m at next level, right associativity).
Notation "m ;;; k" := (bind m (fun _ => k))
  (at level 100, right associativity).

(** [res.status(code).json(body)] *)
Definition respond (code : Z) (fields : list (string * json)) : M Response :=
  ret {| status := code; body := JObj fields |}.

(** [req.user], as [authenticate] attaches it: the user without the
    password. *)
Record ReqUser := {
  ru_id : ObjectId;
  ru_name : string;
  ru_email : string;
  ru_role : Role
}.

(** [req.user.<path>]: a [TypeError] when [req.user] is [null]. *)
Definition req_user_prop {A} (f : ReqUser -> A) (path : string)
    (user : option ReqUser) : M A :=
  match user with
  | Some u => ret (f u)
  | None => throw ("Cannot read properties of null (reading '" ++ path ++ "')")
  end.

(** [Model.findById(id)]: the id is cast to an [ObjectId] first. *)
Definition cast_id (env : Env) (id : string) : M ObjectId :=
  if ObjectId_isValid env id then ret id else throw (CastError_message env id).

(** ** controllers/auth.js *)

Module Auth.

(** The fields of [req.body]; a field that was not sent is [None]. *)
Record RegisterBody := {
  name : option string;
  email : option string;
  password : option string;
  role : option string
}.

(** A value of [req.body], as [express.json()] parses it; [Object] is an
    array or an object. A number is given by its integer value: a
    fraction is truthy and of type number like any integer but 0. *)
Inductive Value :=
| Undefined
| Null
| Boolean (b : bool)
| Number (n : Z)
| Text (s : string)
| Object.

(** [!!x] *)
Definition truthy (x : Value) : bool :=
  match x with
  | Undefined | Null => false
  | Boolean b => b
  | Number n => negb (n =? 0)
  | Text s => negb (String.eqb s "")
  | Object => true
  end.

(** [typeof x] *)
Definition typeof (x : Value) : string :=
  match x with
  | Undefined => "undefined"
  | Null | Object => "object"
  | Boolean _ => "boolean"
  | Number _ => "number"
  | Text _ => "string"
  end.

(** A field that is a string or absent, as a value. *)
Definition value (x : option string) : Value :=
  match x with
  | Some s => Text s
  | None => Undefined
  end.

(** The body of a login: the email is a string or absent; the password
    is any value, since [bcrypt.compare] looks at its type. *)
Record LoginBody := {
  login_email : option string;
  login_password : Value
}.

(** [!x] for a string that may be [undefined]. *)
Definition falsy (x : option string) : bool :=
  match x with
  | None => true
  | Some s => String.eqb s ""
  end.

Definition str (x : option string) : string := default "" x.

(** [User.findOne({ email })] *)
Definition findOne_email (email : string) (users : list User.doc) : option User.doc :=
  List.find (fun u => String.eqb (User.email u) email) users.

(** [User.findById(id)] *)
Definition findById (id : ObjectId) (users : list User.doc) : option User.doc :=
  List.find (fun u => String.eqb (User._id u) id) users.

(** [newUser.save()] *)
Definition save_user (env : Env) (u : User.doc) : M unit :=
  match User_validate env u with
  | Some message => throw message
  | None => modify (Store.set_users (fun us => (us ++ [u])%list))
  end.

Definition user_json (u : User.doc) : json :=
  JObj [("id", JStr (User._id u)); ("name", JStr (User.name u));
        ("email", JStr (User.email u)); ("role", JStr (role_string (User.role u)))].

Definition sign (env : Env) (u : User.doc) : string :=
  jwt_sign env (User._id u) (User.name u) (User.email u) (User.role u).

Definition register (env : Env) (body : RegisterBody) : M Response :=
  try_catch
    (if falsy (name body) || falsy (email body) || falsy (password body) then
       respond 400 [("error", JStr "Missing required fields");
                    ("details", JStr "Name, email, and password are required")]
     else
       s <- get_db ;;
       match findOne_email (str (email body)) (Store.users s) with
       | Some existingUser =>
           respond 400 [("error", JStr "User already exists");
                        ("details", JStr "An account with this email already exists")]
       | None =>
           n <- fresh ;;
           let salt := bcrypt_genSalt env n in
           let hashedPassword := bcrypt_hash env (str (password body)) salt in
           i <- fresh ;;
           let newUser :=
             {| User._id := new_ObjectId env i;
                User.name := str (name body);
                User.email := str (email body);
                User.password := hashedPassword;
                User.role := consumer |} in
           save_user env newUser ;;;
           let token := sign env newUser in
           respond 201 [("message", JStr "User registered successfully");
                        ("user", user_json newUser);
                        ("token", JStr token)]
       end)
    (fun message =>
       respond 500 [("error", JStr "Registration failed");
                    ("details", JStr message)]).

(** [bcrypt.compare(s, hash)] with the hash of a stored user, which is a
    string: bcryptjs rejects with [Error("Illegal arguments: " +
    (typeof s) + ', ' + (typeof hash))] when [s] is not a string. *)
Definition compare (env : Env) (s : Value) (hash : string) : M bool :=
  match s with
  | Text password =>
      match bcrypt_compare env password hash with
      | Ok isMatch => ret isMatch
      | Throw message => throw message
      end
  | _ => throw ("Illegal arguments: " ++ typeof s ++ ", string")
  end.

Definition login (env : Env) (body : LoginBody) : M Response :=
  try_catch
    (if falsy (login_email body) || negb (truthy (login_password body)) then
       respond 400 [("error", JStr "Missing credentials");
                    ("details", JStr "Email and password are required")]
     else
       s <- get_db ;;
       match findOne_email (str (login_email body)) (Store.users s) with
       | None =>
           respond 401 [("error", JStr "Authentication failed");
                        ("details", JStr "Invalid email or password")]
       | Some user =>
           isMatch <- compare env (login_password body) (User.password user) ;;
           if negb isMatch then
             respond 401 [("error", JStr "Authentication failed");
                          ("details", JStr "Invalid email or password")]
           else
             let token := sign env user in
             respond 200 [("message", JStr "Login successful");
                          ("user", user_json user);
                          ("token", JStr token)]
       end)
    (fun message =>
       respond 500 [("error", JStr "Login failed"); ("details", JStr message)]).

(** *** middleware/auth.js *)

(** What a middleware does with a request: it answers, or it calls
    [next()] with [req.user] set, possibly to [null]. *)
Inductive Verdict :=
| Answer (r : Response)
| Next (user : option ReqUser).

(** [.select('-password')] *)
Definition select_no_password (u : User.doc) : ReqUser :=
  {| ru_id := User._id u; ru_name := User.name u;
     ru_email := User.email u; ru_role := User.role u |}.

(** [req.headers.authorization?.split(' ')[1]] *)
Definition bearer_token (authorization : option string) : option string :=
  match authorization with
  | None => None
  | Some h => JsString.split " "%char h !! 1%nat
  end.

Definition authenticate (env : Env) (authorization : option string) : M Verdict :=
  let token := bearer_token authorization in
  if falsy token then
    ret (Answer {| status := 401;
                   body := JObj [("error", JStr "Access denied. No token provided.")] |})
  else
    try_catch
      (match jwt_verify env (str token) with
       | None => throw "jwt.verify"
       | Some decoded_id =>
           id <- cast_id env decoded_id ;;
           s <- get_db ;;
           ret (Next (select_no_password <$> findById id (Store.users s)))
       end)
      (fun _ =>
         ret (Answer {| status := 401;
                        body := JObj [("error", JStr "Invalid or expired token.")] |})).

(** [authorizeRoles(...roles)]: the middleware throws when [req.user] is
    [null]. *)
Definition authorizeRoles (roles : list Role) (user : option ReqUser) : M Verdict :=
  r <- req_user_prop ru_role "role" user ;;
  if negb (bool_decide (r ∈ roles)) then
    ret (Answer {| status := 403;
                   body := JObj [("error", JStr "Access denied. Unauthorized role.")] |})
  else ret (Next user).

End Auth.

(** ** controllers/video.js *)

Module VideoCtl.

(** [req.body.tags]: absent, one string, or an array of strings. *)
Inductive TagsInput :=
| TagsUndefined
| TagsString (s : string)
| TagsArray (l : list string).

(** [!tagsInput]: an empty array is truthy. *)
Definition tags_falsy (tagsInput : TagsInput) : bool :=
  match tagsInput with
  | TagsUndefined => true
  | TagsString s => String.eqb s ""
  | TagsArray _ => false
  end.

Definition tags_array (tagsInput : TagsInput) : list string :=
  match tagsInput with
  | TagsArray l => l
  | TagsString s => JsString.split ","%char s
  | TagsUndefined => []
  end.

Definition normalize (tag : string) : string :=
  JsString.toLowerCase (JsString.trim tag).

Definition sanitize (tagsArray : list string) : list string :=
  List.filter (fun tag => (0 <? String.length tag)%nat) (normalize <$> tagsArray).

Definition validateAndSanitizeTags (tagsInput : TagsInput) : result (list string) :=
  if tags_falsy tagsInput then Throw "Tags are required"
  else
    let sanitizedTags := sanitize (tags_array tagsInput) in
    if (length sanitizedTags =? 0)%nat then Throw "At least one valid tag is required"
    else if (10 <? length sanitizedTags)%nat then Throw "Maximum of 10 tags allowed"
    else Ok (JsString.spread_set sanitizedTags).

(** A file as multer hands it over. *)
Record File := {
  originalname : string;
  mimetype : string;
  buffer : Buffer;
  size : Z
}.

Definition blob_name (env : Env) (n : nat) (folder originalname : string) : string :=
  folder ++ "/" ++ uuidv4 env n ++ "-" ++ originalname.

Definition blob_url (env : Env) (blobName : string) : string :=
  container_url env ++ "/" ++ url_encode env blobName.

(** [uploadBufferToAzure]: the error is logged and thrown again. *)
Definition uploadBufferToAzure (env : Env) (buffer : Buffer)
    (folder originalname mimetype : string) : M string :=
  try_catch
    (n <- fresh ;;
     let blobName := blob_name env n folder originalname in
     match uploadData_error env blobName with
     | Some message => throw message
     | None =>
         modify (Store.set_blobs (insert blobName buffer)) ;;;
         ret (blob_url env blobName)
     end)
    (fun uploadError => throw uploadError).

(** [generateThumbnailFromBuffer]: [ffmpeg(videoBuffer)] gets a [Buffer].
    fluent-ffmpeg takes an object that has no property [readable], as a
    [Buffer] is, for its options and not for an input, so the command
    has no input and [.inputOptions(...)] throws in the executor of the
    promise. The promise is rejected, whatever the buffer; [.pipe] and
    sharp are not reached. *)
Definition generateThumbnailFromBuffer (videoBuffer : Buffer) : M Buffer :=
  throw "No input specified".

(** [video.save()]: validation, then the save hook, then the write. The
    result is the document as it is after the hook. *)
Definition save (id : ObjectId) (v : Video.doc) : M Video.doc :=
  match Video.validation_errors v with
  | [] =>
      let v' := Video.pre_save v in
      modify (Store.set_videos (insert id v')) ;;;
      ret v'
  | errs => throw (Video.validation_message errs)
  end.

Record UploadRequest := {
  title : option string;
  description : option string;
  tags : TagsInput;
  videoFile : option File;
  thumbnailFile : option File
}.

Definition error (code : Z) (message : string) : M Response :=
  respond code [("error", JStr message)].

(** The thumbnail step of [uploadVideo]. *)
Definition thumbnail_step (env : Env) (videoFile : File)
    (thumbnailFile : option File) : M (option string) :=
  match thumbnailFile with
  | Some f =>
      u <- uploadBufferToAzure env (buffer f) "thumbnails"
             (originalname f) (mimetype f) ;;
      ret (Some u)
  | None =>
      try_catch
        (thumbnailBuffer <- generateThumbnailFromBuffer (buffer videoFile) ;;
         u <- uploadBufferToAzure env thumbnailBuffer "thumbnails"
                (path_stem env (originalname videoFile) ++ "_thumbnail.png")
                "image/png" ;;
         ret (Some u))
        (fun thumbnailError => ret None)
  end.

(** The body of the answer of [uploadVideo] for the saved video. *)
Definition uploaded (id : ObjectId) (video : Video.doc) : list (string * json) :=
  [("message", JStr "Video uploaded successfully");
   ("video",
    JObj [("id", JStr id);
          ("title", JStr (Video.title video));
          ("url", JStr (Video.url video));
          ("thumbnail", JOpt (Video.thumbnail video));
          ("tags", JArr (JStr <$> Video.tags video));
          ("status", JStr (Video.status_string (Video.status video)))])].

(** What [uploadVideo] does once the video is in the container. *)
Definition finish_upload (env : Env) (uid : ObjectId) (role : Role)
    (title description videoUrl : string) (sanitizedTags : list string)
    (thumbnailUrl : option string) : M Response :=
  i <- fresh ;;
  let id := new_ObjectId env i in
  video <- save id
             (Video.new title description videoUrl thumbnailUrl
                sanitizedTags uid
                (if decide (role = admin) then Video.approved
                 else Video.pending)) ;;
  respond 201 (uploaded id video).

Definition upload_failed (message : string) : M Response :=
  respond 500 [("error", JStr "Video upload failed"); ("details", JStr message)].

Definition uploadVideo (env : Env) (user : option ReqUser) (req : UploadRequest)
    : M Response :=
  try_catch
    (req_user_prop ru_id "_id" user ;;;
     if Auth.falsy (title req) then error 400 "Title is required"
     else
     let title := Auth.str (title req) in
     if (String.length title <? 3)%nat || (100 <? String.length title)%nat then
       error 400 "Title must be between 3 and 100 characters"
     else if Auth.falsy (description req) then error 400 "Description is required"
     else
     let description := Auth.str (description req) in
     if (String.length description <? 10)%nat
        || (500 <? String.length description)%nat then
       error 400 "Description must be between 10 and 500 characters"
     else
     match validateAndSanitizeTags (tags req) with
     | Throw message => error 400 message
     | Ok sanitizedTags =>
         role <- req_user_prop ru_role "role" user ;;
         if negb (bool_decide (role ∈ [admin])) then
           error 403 "Not authorized to upload videos"
         else
         match videoFile req with
         | None => error 400 "Video file is required"
         | Some videoFile =>
             videoUrl <- uploadBufferToAzure env (buffer videoFile) "videos"
                           (originalname videoFile) (mimetype videoFile) ;;
             thumbnailUrl <- thumbnail_step env videoFile (thumbnailFile req) ;;
             uid <- req_user_prop ru_id "_id" user ;;
             finish_upload env uid role title description videoUrl
               sanitizedTags thumbnailUrl
         end
     end)
    upload_failed.

(** [.populate(path, 'name')] and [.populate(path, 'name email')] *)
Definition populate_name (users : list User.doc) (id : ObjectId) : json :=
  match Auth.findById id users with
  | Some u => JObj [("_id", JStr id); ("name", JStr (User.name u))]
  | None => JNull
  end.

Definition populate_name_email (users : list User.doc) (id : ObjectId) : json :=
  match Auth.findById id users with
  | Some u => JObj [("_id", JStr id); ("name", JStr (User.name u));
                    ("email", JStr (User.email u))]
  | None => JNull
  end.

(** The plain object of a video, [uploadedBy] populated. *)
Definition video_json (users : list User.doc) (id : ObjectId) (v : Video.doc) : json :=
  JObj [("_id", JStr id);
        ("title", JStr (Video.title v));
        ("description", JStr (Video.description v));
        ("url", JStr (Video.url v));
        ("thumbnail", JOpt (Video.thumbnail v));
        ("tags", JArr (JStr <$> Video.tags v));
        ("uploadedBy", populate_name users (Video.uploadedBy v));
        ("status", JStr (Video.status_string (Video.status v)));
        ("views", JNum (Video.views v));
        ("likes", JNum (Video.likes v));
        ("likedBy", JArr (JStr <$> Video.likedBy v));
        ("comments", JNum (Video.comments v))].

(** [Comment.find({ video: id })], in insertion order. *)
Definition find_comments (id : ObjectId) (comments : list Comment.doc) : list Comment.doc :=
  List.filter (fun c => String.eqb (Comment.video c) id) comments.

Definition comment_json (users : list User.doc) (c : Comment.doc) : json :=
  JObj [("_id", JStr (Comment._id c));
        ("video", JStr (Comment.video c));
        ("user", populate_name_email users (Comment.user c));
        ("text", JStr (Comment.text c))].

(** [{ $inc: { views: 1 } }] *)
Definition inc_views (id : ObjectId) (s : Store.db) : Store.db :=
  Store.set_videos (alter Video.incrementViews id) s.

(** [getVideoById]: the video of the response is the document as it was
    read, before the increment; the comments are sent newest first, which
    is the reverse of the insertion order. *)
Definition getVideoById (env : Env) (user : option ReqUser) (id : string) : M Response :=
  try_catch
    (if negb (ObjectId_isValid env id) then
       respond 400 [("error", JStr "Invalid video ID");
                    ("details", JStr ("Received ID: " ++ id))]
     else
       s <- get_db ;;
       match Store.videos s !! id with
       | None =>
           respond 404 [("error", JStr "Video not found");
                        ("details", JStr ("No video found with ID: " ++ id))]
       | Some video =>
           role <- req_user_prop ru_role "role" user ;;
           if bool_decide (role = consumer)
              && negb (bool_decide (Video.status video = Video.approved)) then
             error 403 "Video not available"
           else
             (if bool_decide (Video.status video = Video.approved)
              then modify (inc_views id) else ret tt) ;;;
             s' <- get_db ;;
             let comments := rev (find_comments id (Store.comments s')) in
             respond 200
               [("video", video_json (Store.users s) id video);
                ("comments", JArr (comment_json (Store.users s') <$> comments))]
       end)
    (fun message =>
       respond 500 [("error", JStr "Failed to retrieve video");
                    ("details", JStr message)]).

Definition likeVideo (env : Env) (user : option ReqUser) (id : string) : M Response :=
  try_catch
    (oid <- cast_id env id ;;
     s <- get_db ;;
     match Store.videos s !! oid with
     | None => error 404 "Video not found"
     | Some video =>
         role <- req_user_prop ru_role "role" user ;;
         if negb (bool_decide (role = consumer)) then
           error 403 "Not authorized to like videos"
         else
           uid <- req_user_prop ru_id "_id" user ;;
           video' <- save oid (Video.toggleLike uid video) ;;
           respond 200 [("message", JStr "Video like toggled");
                        ("likes", JNum (Video.likes video'))]
     end)
    (fun message =>
       respond 500 [("error", JStr "Failed to like video"); ("details", JStr message)]).

(** [blockBlobClient.delete()]: throws when the blob does not exist. *)
Definition delete_blob (name : string) : M unit :=
  s <- get_db ;;
  match Store.blobs s !! name with
  | Some _ => modify (Store.set_blobs (delete name))
  | None => throw "BlobNotFound"
  end.

(** [if (video.<path>) { ... video.<path>.split('/').pop() ... delete() }] *)
Definition delete_blob_of (video : Video.doc) (path : string) : M unit :=
  match Video.get video path with
  | Some u => if String.eqb u "" then ret tt else delete_blob (JsString.last_segment u)
  | None => ret tt
  end.

Definition deleteVideo (env : Env) (user : option ReqUser) (id : string) : M Response :=
  try_catch
    (oid <- cast_id env id ;;
     s <- get_db ;;
     match Store.videos s !! oid with
     | None => error 404 "Video not found"
     | Some video =>
         role <- req_user_prop ru_role "role" user ;;
         if negb (bool_decide (role = admin)) then
           error 403 "Not authorized to delete videos"
         else
           modify (Store.set_comments
                     (List.filter (fun c => negb (String.eqb (Comment.video c) oid)))) ;;;
           modify (Store.set_videos (delete oid)) ;;;
           try_catch
             (delete_blob_of video "videoUrl" ;;;
              delete_blob_of video "thumbnailUrl")
             (fun storageError => ret tt) ;;;
           respond 200 [("message",
                         JStr "Video and associated comments deleted successfully")]
     end)
    (fun message =>
       respond 500 [("error", JStr "Failed to delete video"); ("details", JStr message)]).

End VideoCtl.

(** ** controllers/comment.js *)

Module CommentCtl.

(** [comment.save()] *)
Definition save (env : Env) (c : Comment.doc) : M unit :=
  match Comment_validate env c with
  | Some message => throw message
  | None => modify (Store.set_comments (fun cs => (cs ++ [c])%list))
  end.

Definition addComment (env : Env) (user : option ReqUser) (videoId text : string)
    : M Response :=
  try_catch
    (oid <- cast_id env videoId ;;
     s <- get_db ;;
     match Store.videos s !! oid with
     | None => VideoCtl.error 404 "Video not found"
     | Some video =>
         uid <- req_user_prop ru_id "_id" user ;;
         i <- fresh ;;
         let comment :=
           {| Comment._id := new_ObjectId env i; Comment.video := videoId;
              Comment.user := uid; Comment.text := text |} in
         save env comment ;;;
         respond 201 [("message", JStr "Comment added successfully");
                      ("comment", JObj [("id", JStr (Comment._id comment));
                                        ("text", JStr (Comment.text comment))])]
     end)
    (fun message =>
       respond 500 [("error", JStr "Failed to add comment"); ("details", JStr message)]).

End CommentCtl.

(** ** The routes *)

Module App.

Inductive Endpoint :=
| PostSignup (body : Auth.RegisterBody)
| PostLogin (body : Auth.LoginBody)
| PostUpload (req : VideoCtl.UploadRequest)
| GetVideo (id : string)
| PostLike (id : string)
| DeleteVideo (id : string)
| PostComment (videoId text : string).

Record Request := {
  authorization : option string;
  endpoint : Endpoint
}.

(** The global error handler, for what a middleware throws. *)
Definition error_handler (m : M Response) : M Response :=
  try_catch m
    (fun message =>
       respond 500 [("error", JStr "Internal Server Error");
                    ("message", JStr message)]).

(** [authenticate], then the rest of the chain with [req.user]. *)
Definition authenticated (env : Env) (authorization : option string)
    (k : option ReqUser -> M Response) : M Response :=
  v <- Auth.authenticate env authorization ;;
  match v with
  | Auth.Answer r => ret r
  | Auth.Next user => k user
  end.

(** [authorizeRoles(...roles)], then the rest of the chain. *)
Definition authorized (roles : list Role) (user : option ReqUser)
    (k : option ReqUser -> M Response) : M Response :=
  v <- Auth.authorizeRoles roles user ;;
  match v with
  | Auth.Answer r => ret r
  | Auth.Next user => k user
  end.

(** The [fileFilter] and the size limit of multer. busboy, which reads
    the parts of the request for multer, reports the limit as soon as a
    file has as many bytes as the limit, so a file of exactly 100 MiB is
    refused too. *)
Definition allowedTypes : list string :=
  ["video/mp4"; "video/mpeg"; "video/quicktime"; "image/jpeg"; "image/png"].

Definition multer_file (f : option VideoCtl.File) : M unit :=
  match f with
  | None => ret tt
  | Some f =>
      if negb (bool_decide (VideoCtl.mimetype f ∈ allowedTypes)) then
        throw "Invalid file type. Only MP4, MPEG, QuickTime videos and JPEG/PNG images are allowed."
      else if 100 * 1024 * 1024 <=? VideoCtl.size f then throw "File too large"
      else ret tt
  end.

(** The routes of routes/video.js and routes/comment.js. Modelled from the
    spec: routes/auth.js is not part of the sources; signup and login are
    served without authentication. *)
Definition serve (env : Env) (req : Request) : M Response :=
  error_handler
    match endpoint req with
    | PostSignup body => Auth.register env body
    | PostLogin body => Auth.login env body
    | PostUpload up =>
        authenticated env (authorization req) (fun user =>
        authorized [admin] user (fun user =>
        multer_file (VideoCtl.videoFile up) ;;;
        multer_file (VideoCtl.thumbnailFile up) ;;;
        VideoCtl.uploadVideo env user up))
    | GetVideo id =>
        authenticated env (authorization req) (fun user =>
        VideoCtl.getVideoById env user id)
    | PostLike id =>
        authenticated env (authorization req) (fun user =>
        authorized [consumer] user (fun user =>
        VideoCtl.likeVideo env user id))
    | DeleteVideo id =>
        authenticated env (authorization req) (fun user =>
        authorized [admin] user (fun user =>
        VideoCtl.deleteVideo env user id))
    | PostComment videoId text =>
        authenticated env (authorization req) (fun user =>
        CommentCtl.addComment env user videoId text)
    end.

(** A run of the server: each request comes with the behaviour of the
    outside world while it is served. *)
Fixpoint run (trace : list (Env * Request)) (s : Store.db) : Store.db :=
  match trace with
  | [] => s
  | (env, req) :: rest => run rest (fst (serve env req s))
  end.

End App.

(** Every stored video has a like counter that agrees with its like
    list. *)
Definition videos_consistent (s : Store.db) : Prop :=
  map_Forall (fun _ v => Video.like_consistent v) (Store.videos s).

(** A computation keeps an invariant of the store, whether it returns
    or throws. *)
Definition keeps {A} (I : Store.db -> Prop) (m : M A) : Prop :=
  forall s, I s -> I (fst (m s)).

(** What the client receives, when the handler answered. *)
Definition reply (x : Store.db * result Response) : option Response :=
  match snd x with
  | Ok r => Some r
  | Throw _ => None
  end.

(** ** The tag rule in the words of the specification *)

Module Spec.

(** Split on comma if given as a single string, trim, lowercase,
    dedupe. *)
Definition tag_results (tagsInput : VideoCtl.TagsInput) : list string :=
  JsString.spread_set (VideoCtl.normalize <$> VideoCtl.tags_array tagsInput).

(** Require 1-10 results. *)
Definition tags_accepted (tagsInput : VideoCtl.TagsInput) : bool :=
  (1 <=? length (tag_results tagsInput))%nat
  && (length (tag_results tagsInput) <=? 10)%nat.

End Spec.

(** ** A concrete outside world, for examples *)

Module Sample.

Definition nat_string (n : nat) : string :=
  DecimalString.NilZero.string_of_uint (Nat.to_uint n).

(** Tokens are ["jwt." ++ id], hashes are ["$2a$" ++ password]; every
    string is a valid object id; uploads succeed unless the blob is in
    the folder [thumbnails]; Mongoose is a release without
    [Document.prototype.remove]. *)
Definition env : Env :=
  {| jwt_sign := fun id _ _ _ => "jwt." ++ id;
     jwt_verify := fun t =>
       match t with
       | String "j" (String "w" (String "t" (String "." id))) => Some id
       | _ => None
       end;
     bcrypt_genSalt := fun n => "salt" ++ nat_string n;
     bcrypt_hash := fun p _ => "$2a$" ++ p;
     bcrypt_compare := fun p h => Ok (String.eqb ("$2a$" ++ p) h);
     ObjectId_isValid := fun _ => true;
     new_ObjectId := fun n => "oid" ++ nat_string n;
     CastError_message := fun id => "Cast to ObjectId failed for value " ++ id;
     User_validate := fun _ => None;
     Comment_validate := fun _ => None;
     uuidv4 := fun n => "uuid" ++ nat_string n;
     path_stem := fun f => f;
     container_url := "https://beatly.blob.core.windows.net/media";
     url_encode := fun n => n;
     uploadData_error := fun blobName =>
       match blobName with
       | String "t" _ => Some "RestError: upload failed"
       | _ => None
       end;
     Document_remove := false |}.

(** The same world with every upload succeeding and a release of
    Mongoose before 7. *)
Definition legacy : Env :=
  {| jwt_sign := jwt_sign env;
     jwt_verify := jwt_verify env;
     bcrypt_genSalt := bcrypt_genSalt env;
     bcrypt_hash := bcrypt_hash env;
     bcrypt_compare := bcrypt_compare env;
     ObjectId_isValid := ObjectId_isValid env;
     new_ObjectId := new_ObjectId env;
     CastError_message := CastError_message env;
     User_validate := User_validate env;
     Comment_validate := Comment_validate env;
     uuidv4 := uuidv4 env;
     path_stem := path_stem env;
     container_url := container_url env;
     url_encode := url_encode env;
     uploadData_error := fun _ => None;
     Document_remove := true |}.

Definition alice : User.doc :=
  {| User._id := "u1"; User.name := "Alice"; User.email := "alice@example.com";
     User.password := "$2a$secret"; User.role := consumer |}.

Definition root : ReqUser :=
  {| ru_id := "a1"; ru_name := "Admin"; ru_email := "admin@beatly.com";
     ru_role := admin |}.

Definition viewer : ReqUser :=
  {| ru_id := "u1"; ru_name := "Alice"; ru_email := "alice@example.com";
     ru_role := consumer |}.

Definition clip : Video.doc :=
  {| Video.title := "My Clip";
     Video.description := "A clip of the concert";
     Video.url := "https://beatly.blob.core.windows.net/media/videos/uuid0-clip.mp4";
     Video.thumbnail :=
       Some "https://beatly.blob.core.windows.net/media/thumbnails/uuid1-clip.png";
     Video.tags := ["music"; "live"];
     Video.uploadedBy := "a1";
     Video.status := Video.approved;
     Video.views := 7;
     Video.likes := 0;
     Video.likedBy := [];
     Video.comments := 0 |}.

Definition boss : User.doc :=
  {| User._id := "a1"; User.name := "Admin"; User.email := "admin@beatly.com";
     User.password := "$2a$admin123"; User.role := admin |}.

Definition mp4 : VideoCtl.File :=
  {| VideoCtl.originalname := "clip.mp4"; VideoCtl.mimetype := "video/mp4";
     VideoCtl.buffer := "RAWVIDEO"; VideoCtl.size := 8 |}.

Definition png : VideoCtl.File :=
  {| VideoCtl.originalname := "clip.png"; VideoCtl.mimetype := "image/png";
     VideoCtl.buffer := "PNG"; VideoCtl.size := 3 |}.

Definition upload (thumbnailFile : option VideoCtl.File) : VideoCtl.UploadRequest :=
  {| VideoCtl.title := Some "My Clip";
     VideoCtl.description := Some "A clip of the concert";
     VideoCtl.tags := VideoCtl.TagsString "music,live";
     VideoCtl.videoFile := Some mp4;
     VideoCtl.thumbnailFile := thumbnailFile |}.

(** A store with one user, the video [clip] under the id [v1] with two
    comments, and the two blobs of the video. *)
Definition db : Store.db :=
  {| Store.users := [alice];
     Store.videos := {[ "v1" := clip ]};
     Store.comments :=
       [ {| Comment._id := "c1"; Comment.video := "v1"; Comment.user := "u1";
            Comment.text := "first" |};
         {| Comment._id := "c2"; Comment.video := "v1"; Comment.user := "u1";
            Comment.text := "again" |} ];
     Store.blobs := {[ "videos/uuid0-clip.mp4" := "RAWVIDEO";
                       "thumbnails/uuid1-clip.png" := "PNG" ]};
     Store.counter := 2 |}.

End Sample.

(** ** controllers/auth.js: the current user *)

Module Account.

(** [res.json(user)] for a user read with [.select('-password')]. *)
Definition public_fields (u : ReqUser) : list (string * json) :=
  [("_id", JStr (ru_id u)); ("name", JStr (ru_name u));
   ("email", JStr (ru_email u)); ("role", JStr (role_string (ru_role u)))].

(** [req.user.id] is the [_id] of the user that [authenticate]
    attached. *)
Definition getCurrentUser (env : Env) (user : option ReqUser) : M Response :=
  try_catch
    (uid <- req_user_prop ru_id "id" user ;;
     oid <- cast_id env uid ;;
     s <- get_db ;;
     match Auth.select_no_password <$> Auth.findById oid (Store.users s) with
     | None => VideoCtl.error 404 "User not found"
     | Some u => respond 200 (public_fields u)
     end)
    (fun message =>
       respond 500 [("error", JStr "Failed to retrieve user");
                    ("details", JStr message)]).

End Account.

(** ** controllers/comment.js: deleting a comment *)

Module CommentAdmin.

(** [Comment.findById(commentId)] *)
Definition findById (id : ObjectId) (cs : list Comment.doc) : option Comment.doc :=
  List.find (fun c => String.eqb (Comment._id c) id) cs.

(** The collection without the document of that [_id]. *)
Fixpoint remove (id : ObjectId) (cs : list Comment.doc) : list Comment.doc :=
  match cs with
  | [] => []
  | c :: r => if String.eqb (Comment._id c) id then r else c :: remove id r
  end.

(** [comment.remove()]: up to Mongoose 6 the document leaves the
    collection; Mongoose 7 dropped the method, and the call is a
    [TypeError]. Which release is installed is not in the sources. *)
Definition remove_document (env : Env) (comment : Comment.doc) : M unit :=
  if Document_remove env then
    modify (Store.set_comments (remove (Comment._id comment)))
  else throw "comment.remove is not a function".

Definition deleteComment (env : Env) (user : option ReqUser) (commentId : string)
    : M Response :=
  try_catch
    (oid <- cast_id env commentId ;;
     s <- get_db ;;
     match findById oid (Store.comments s) with
     | None => VideoCtl.error 404 "Comment not found"
     | Some comment =>
         uid <- req_user_prop ru_id "_id" user ;;
         role <- req_user_prop ru_role "role" user ;;
         if negb (String.eqb (Comment.user comment) uid)
            && negb (bool_decide (role = admin)) then
           VideoCtl.error 403 "Not authorized to delete this comment"
         else
           remove_document env comment ;;;
           respond 200 [("message", JStr "Comment deleted successfully")]
     end)
    (fun message =>
       respond 500 [("error", JStr "Failed to delete comment");
                    ("details", JStr message)]).

End CommentAdmin.

(** ** controllers/video.js: the statistics of a video *)

Module Stats.

(** A document of the users collection as an aggregation returns it:
    every stored field. *)
Definition user_json (u : User.doc) : json :=
  JObj [("_id", JStr (User._id u)); ("name", JStr (User.name u));
        ("email", JStr (User.email u)); ("password", JStr (User.password u));
        ("role", JStr (role_string (User.role u)))].

(** [$lookup] from [users] on [videoComments.user]: the users that wrote
    one of the comments. *)
Definition commentUsers (users : list User.doc) (videoComments : list Comment.doc)
    : list User.doc :=
  List.filter
    (fun u => existsb (fun c => String.eqb (Comment.user c) (User._id u)) videoComments)
    users.

(** One element of [populatedComments]: [$arrayElemAt] of an empty
    [$filter] leaves the field [User] out. *)
Definition populated (cu : list User.doc) (c : Comment.doc) : json :=
  JObj ([("_id", JStr (Comment._id c)); ("text", JStr (Comment.text c))]
        ++ match List.find (fun u => String.eqb (User._id u) (Comment.user c)) cu with
           | Some u => [("User", user_json u)]
           | None => []
           end)%list.

(** The document that the pipeline of [getVideoStats] gives for a video:
    [comments: 1] projects the stored counter of the video. *)
Definition videoStats (users : list User.doc) (comments : list Comment.doc)
    (id : ObjectId) (v : Video.doc) : json :=
  let videoComments := VideoCtl.find_comments id comments in
  let uploaderDetails :=
    List.filter (fun u => String.eqb (User._id u) (Video.uploadedBy v)) users in
  JObj ([("_id", JStr id);
         ("title", JStr (Video.title v));
         ("description", JStr (Video.description v));
         ("url", JStr (Video.url v));
         ("thumbnail", JOpt (Video.thumbnail v));
         ("views", JNum (Video.views v));
         ("likes", JNum (Video.likes v));
         ("comments", JNum (Video.comments v))]
        ++ match uploaderDetails with
           | u :: _ => [("uploaderName", JStr (User.name u))]
           | [] => []
           end
        ++ [("uploadedBy", JStr (Video.uploadedBy v));
            ("populatedComments",
             JArr (populated (commentUsers users videoComments) <$> videoComments))])%list.

Definition getVideoStats (env : Env) (videoId : string) : M Response :=
  try_catch
    (if negb (ObjectId_isValid env videoId) then
       respond 400 [("error", JStr "Invalid video ID");
                    ("details", JStr ("Received ID: " ++ videoId))]
     else
       s <- get_db ;;
       match Store.videos s !! videoId with
       | None =>
           respond 404 [("error", JStr "Video not found");
                        ("details", JStr ("No video found with ID: " ++ videoId))]
       | Some v =>
           let stats := videoStats (Store.users s) (Store.comments s) videoId v in
           respond 200 [("video", stats);
                        ("comments", default JNull (field "populatedComments" stats))]
       end)
    (fun message =>
       respond 500 [("error", JStr "Failed to retrieve video statistics");
                    ("details", JStr message)]).

End Stats.

(** ** The script that seeds the admin *)

Module Seed.

(** [User.findOne({ role: 'admin' })] *)
Definition findOne_admin (users : list User.doc) : option User.doc :=
  List.find (fun u => bool_decide (User.role u = admin)) users.

(** [admin.save()]. Modelled from the spec: models/User.js is not part of
    the sources; the email of a user is unique, so the save of a second
    user with an email throws. *)
Definition save (env : Env) (u : User.doc) : M unit :=
  s <- get_db ;;
  match Auth.findOne_email (User.email u) (Store.users s) with
  | Some _ => throw "E11000 duplicate key error"
  | None => Auth.save_user env u
  end.

(** [createAdmin], without the connection to the database: an error is
    logged and nothing else happens. *)
Definition createAdmin (env : Env) : M unit :=
  try_catch
    (s <- get_db ;;
     match findOne_admin (Store.users s) with
     | Some existingAdmin => ret tt
     | None =>
         n <- fresh ;;
         let salt := bcrypt_genSalt env n in
         let hashedPassword := bcrypt_hash env "admin123" salt in
         i <- fresh ;;
         save env {| User._id := new_ObjectId env i;
                     User.name := "Admin";
                     User.email := "admin@beatly.com";
                     User.password := hashedPassword;
                     User.role := admin |}
     end)
    (fun error => ret tt).

End Seed.

(** ** What one request does to the collections *)

Module Effect.

(** The three collections are as they were. *)
Definition same_data (s s' : Store.db) : Prop :=
  Store.users s' = Store.users s
  ∧ Store.videos s' = Store.videos s
  ∧ Store.comments s' = Store.comments s.

(** The writes that a request can make, from the store [s] before it to
    the store [s'] after it. *)
Inductive change (s s' : Store.db) : Prop :=
| nothing :
    same_data s s' → change s s'
| user_added (u : User.doc) :
    User.role u = consumer →
    Auth.findOne_email (User.email u) (Store.users s) = None →
    Store.users s' = (Store.users s ++ [u])%list →
    Store.videos s' = Store.videos s →
    Store.comments s' = Store.comments s →
    change s s'
| video_added (id title description url : string) (thumbnail : option string)
    (tagsInput : VideoCtl.TagsInput) (tags : list string) (uid : ObjectId) :
    VideoCtl.validateAndSanitizeTags tagsInput = Ok tags →
    Video.validation_errors
      (Video.new title description url thumbnail tags uid Video.approved) = [] →
    Store.users s' = Store.users s →
    Store.videos s'
    = <[id := Video.pre_save
                (Video.new title description url thumbnail tags uid Video.approved)]>
        (Store.videos s) →
    Store.comments s' = Store.comments s →
    change s s'
| video_viewed (id : ObjectId) (v : Video.doc) :
    Store.videos s !! id = Some v →
    Video.status v = Video.approved →
    Store.users s' = Store.users s →
    Store.videos s' = <[id := Video.incrementViews v]> (Store.videos s) →
    Store.comments s' = Store.comments s →
    change s s'
| video_liked (id uid : ObjectId) (v : Video.doc) :
    Store.videos s !! id = Some v →
    Video.validation_errors (Video.toggleLike uid v) = [] →
    Store.users s' = Store.users s →
    Store.videos s' = <[id := Video.pre_save (Video.toggleLike uid v)]> (Store.videos s) →
    Store.comments s' = Store.comments s →
    change s s'
| video_deleted (id : ObjectId) :
    is_Some (Store.videos s !! id) →
    Store.users s' = Store.users s →
    Store.videos s' = delete id (Store.videos s) →
    Store.comments s'
    = List.filter (fun c => negb (String.eqb (Comment.video c) id)) (Store.comments s) →
    change s s'
| comment_added (c : Comment.doc) :
    is_Some (Store.videos s !! Comment.video c) →
    Store.users s' = Store.users s →
    Store.videos s' = Store.videos s →
    Store.comments s' = (Store.comments s ++ [c])%list →
    change s s'.

(** A tag as it is stored: trimmed, in lowercase, not empty. *)
Definition tag_ok (tag : string) : Prop :=
  VideoCtl.normalize tag = tag ∧ tag ≠ "".

(** A video as the schema wants it: it passes the validation, its title
    and description are trimmed, its tags are distinct and as stored, and
    the save hook leaves it as it is. *)
Definition well_formed (v : Video.doc) : Prop :=
  Video.validation_errors v = []
  ∧ JsString.trim (Video.title v) = Video.title v
  ∧ JsString.trim (Video.description v) = Video.description v
  ∧ NoDup (Video.tags v)
  ∧ Forall tag_ok (Video.tags v)
  ∧ Video.pre_save v = v.

Definition videos_well_formed (s : Store.db) : Prop :=
  map_Forall (fun _ v => well_formed v) (Store.videos s).

(** The fields of a video that the handlers keep the books of: the
    status, the counters of views and likes, and the counter of comments,
    which no handler writes. *)
Definition books_ok (v : Video.doc) : Prop :=
  Video.status v = Video.approved
  ∧ 0 ≤ Video.views v
  ∧ 0 ≤ Video.likes v
  ∧ Video.comments v = 0.

(** The container has a blob of that name. *)
Definition has_blob (name : string) (s : Store.db) : Prop :=
  is_Some (Store.blobs s !! name).

(** Every comment is on a stored video. *)
Definition comments_attached (s : Store.db) : Prop :=
  Forall (fun c => is_Some (Store.videos s !! Comment.video c)) (Store.comments s).

End Effect.

(** * Properties *)

(** Unfolding of the handler combinators. *)
Ltac unfold_m :=
  unfold VideoCtl.error, respond, req_user_prop, cast_id, reply,
    ret, throw, bind, try_catch, get_db, modify, fresh in *.

(** ** Strings *)

Section StringFacts.
Import JsString.

Lemma lower_char_idem a : lower_char (lower_char a) = lower_char a.
Proof. destruct a as [[] [] [] [] [] [] [] []]; reflexivity. Qed.

Lemma is_white_lower a : is_white (lower_char a) = is_white a.
Proof. destruct a as [[] [] [] [] [] [] [] []]; reflexivity. Qed.

Lemma toLowerCase_idem s : toLowerCase (toLowerCase s) = toLowerCase s.
Proof. induction s as [|a r IH]; simpl; [done|]. by rewrite lower_char_idem, IH. Qed.

Lemma toLowerCase_length s : String.length (toLowerCase s) = String.length s.
Proof. induction s as [|a r IH]; simpl; congruence. Qed.

Lemma trimStart_lower s : trimStart (toLowerCase s) = toLowerCase (trimStart s).
Proof.
  induction s as [|a r IH]; simpl; [done|].
  rewrite is_white_lower. by destruct (is_white a).
Qed.

Lemma trimEnd_lower s : trimEnd (toLowerCase s) = toLowerCase (trimEnd s).
Proof.
  induction s as [|a r IH]; simpl; [done|].
  rewrite IH, is_white_lower.
  destruct (trimEnd r); simpl; [by destruct (is_white a)|done].
Qed.

Lemma trim_lower s : trim (toLowerCase s) = toLowerCase (trim s).
Proof. unfold trim. by rewrite trimStart_lower, trimEnd_lower. Qed.

Lemma trimEnd_idem s : trimEnd (trimEnd s) = trimEnd s.
Proof.
  induction s as [|a r IH]; simpl; [done|].
  destruct (trimEnd r) as [|b t] eqn:E.
  - destruct (is_white a) eqn:W; simpl; [done|]. by rewrite W.
  - change (trimEnd (String a (String b t))) with
      (match trimEnd (String b t) with
       | EmptyString => if is_white a then EmptyString else String a EmptyString
       | u => String a u
       end).
    by rewrite IH.
Qed.

Lemma trimStart_clean s : clean_start (trimStart s) = true.
Proof.
  induction s as [|a r IH]; simpl; [done|].
  destruct (is_white a) eqn:W; simpl; [done|]. by rewrite W.
Qed.

Lemma trimStart_fixed s : clean_start s = true → trimStart s = s.
Proof. destruct s as [|a r]; simpl; [done|]. by destruct (is_white a). Qed.

Lemma trimEnd_clean s : clean_start s = true → clean_start (trimEnd s) = true.
Proof.
  destruct s as [|a r]; simpl; [done|].
  destruct (is_white a) eqn:W; [done|]. intros _.
  destruct (trimEnd r); simpl; by rewrite W.
Qed.

Lemma trim_idem s : trim (trim s) = trim s.
Proof.
  unfold trim.
  rewrite (trimStart_fixed (trimEnd (trimStart s))).
  - apply trimEnd_idem.
  - apply trimEnd_clean, trimStart_clean.
Qed.

Lemma trimStart_length s : (String.length (trimStart s) ≤ String.length s)%nat.
Proof. induction s as [|a r IH]; simpl; [done|]. destruct (is_white a); simpl; lia. Qed.

Lemma trimEnd_length s : (String.length (trimEnd s) ≤ String.length s)%nat.
Proof.
  induction s as [|a r IH]; simpl; [done|].
  destruct (trimEnd r); [destruct (is_white a)|]; simpl in *; lia.
Qed.

Lemma trim_length s : (String.length (trim s) ≤ String.length s)%nat.
Proof.
  unfold trim. etrans; [apply trimEnd_length|apply trimStart_length].
Qed.

End StringFacts.

(** ** Spreading a set *)

Section SetFacts.
Import JsString.

Lemma spread_from_elem seen l x :
  x ∈ spread_set_from seen l ↔ x ∈ l ∧ x ∉ seen.
Proof.
  revert seen; induction l as [|y r IH]; intros seen; simpl.
  - set_solver.
  - case_bool_decide as Hy.
    + rewrite IH. set_solver.
    + rewrite elem_of_cons, IH.
      destruct (decide (x = y)) as [->|Hne]; set_solver.
Qed.

Lemma spread_from_NoDup seen l : NoDup (spread_set_from seen l).
Proof.
  revert seen; induction l as [|y r IH]; intros seen; simpl.
  - constructor.
  - case_bool_decide; [apply IH|].
    constructor; [|apply IH].
    rewrite spread_from_elem. set_solver.
Qed.

Lemma spread_from_fixed seen l :
  NoDup l → (∀ x, x ∈ l → x ∉ seen) → spread_set_from seen l = l.
Proof.
  revert seen; induction l as [|y r IH]; intros seen Hnd Hseen; simpl; [done|].
  inversion_clear Hnd as [|? ? Hy Hr].
  rewrite bool_decide_eq_false_2 by (apply Hseen; left).
  f_equal. apply IH; [done|].
  intros x Hx. rewrite not_elem_of_cons. split.
  - intros ->. done.
  - apply Hseen. by right.
Qed.

Lemma spread_from_length seen l :
  (length (spread_set_from seen l) ≤ length l)%nat.
Proof.
  revert seen; induction l as [|y r IH]; intros seen; simpl; [done|].
  case_bool_decide; simpl; [specialize (IH seen)|specialize (IH (y :: seen))]; lia.
Qed.

Lemma spread_set_idem l : spread_set (spread_set l) = spread_set l.
Proof.
  unfold spread_set. apply spread_from_fixed.
  - apply spread_from_NoDup.
  - intros x _. apply not_elem_of_nil.
Qed.

Lemma spread_set_length l :
  (length (spread_set l) ≤ length l)%nat ∧ (l ≠ [] → 1 ≤ length (spread_set l))%nat.
Proof.
  split; [apply spread_from_length|].
  destruct l as [|y r]; [done|]. intros _. unfold spread_set. simpl. lia.
Qed.

Lemma spread_set_Forall (P : string → Prop) l :
  Forall P l → Forall P (spread_set l).
Proof.
  rewrite !Forall_forall. intros H x Hx.
  apply spread_from_elem in Hx as [Hx _]. by apply H.
Qed.

End SetFacts.

(** ** Tags *)

Section TagFacts.
Import JsString VideoCtl.

Lemma normalize_idem tag : normalize (normalize tag) = normalize tag.
Proof.
  unfold normalize. by rewrite trim_lower, trim_idem, toLowerCase_idem.
Qed.

(** A tag as [validateAndSanitizeTags] leaves it. *)
Lemma sanitize_Forall l :
  Forall (fun tag => normalize tag = tag ∧ tag ≠ "") (sanitize l).
Proof.
  unfold sanitize. rewrite Forall_forall. intros x Hx.
  apply list_elem_of_In, filter_In in Hx as [Hx Hlen].
  apply list_elem_of_In, list_elem_of_fmap in Hx as (raw & -> & _).
  split; [apply normalize_idem|].
  intros E. rewrite E in Hlen. done.
Qed.

Lemma sanitize_fixed l :
  Forall (fun tag => normalize tag = tag ∧ tag ≠ "") l → sanitize l = l.
Proof.
  unfold sanitize. induction 1 as [|x r [Hn Hne] _ IH]; simpl; [done|].
  rewrite Hn. destruct x; [done|]. simpl. f_equal. exact IH.
Qed.

Lemma normalized_map_fixed l :
  Forall (fun tag => normalize tag = tag ∧ tag ≠ "") l → normalize <$> l = l.
Proof.
  induction 1 as [|x r [Hn _] _ IH]; [done|].
  rewrite fmap_cons, Hn. by f_equal.
Qed.

End TagFacts.

Section TagValidation.
Import JsString VideoCtl.

Lemma validate_Ok_iff tagsInput out :
  validateAndSanitizeTags tagsInput = Ok out ↔
  tags_falsy tagsInput = false
  ∧ (1 ≤ length (sanitize (tags_array tagsInput)) ≤ 10)%nat
  ∧ out = spread_set (sanitize (tags_array tagsInput)).
Proof.
  unfold validateAndSanitizeTags.
  destruct (tags_falsy tagsInput); [naive_solver|].
  destruct (Nat.eqb_spec (length (sanitize (tags_array tagsInput))) 0);
    [split; [done|]; intros (_ & ? & _); lia|].
  destruct (Nat.ltb_spec 10 (length (sanitize (tags_array tagsInput))));
    [split; [done|]; intros (_ & ? & _); lia|].
  split; [intros [= <-]; repeat split; lia|]. by intros (_ & _ & ->).
Qed.

Lemma validate_falsy_empty tagsInput :
  tags_falsy tagsInput = true → sanitize (tags_array tagsInput) = [].
Proof.
  destruct tagsInput as [|s|l]; simpl; [done| |done].
  intros ->%String.eqb_eq. reflexivity.
Qed.

(** The tags of an accepted request are a fixed point of the validation
    and of the save hook. *)
Lemma validate_fixed tagsInput out :
  validateAndSanitizeTags tagsInput = Ok out →
  (1 ≤ length out ≤ 10)%nat ∧ NoDup out
  ∧ Forall (fun tag => normalize tag = tag ∧ tag ≠ "") out
  ∧ validateAndSanitizeTags (TagsArray out) = Ok out
  ∧ spread_set (normalize <$> out) = out.
Proof.
  intros (_ & Hlen & ->)%validate_Ok_iff.
  pose proof (sanitize_Forall (tags_array tagsInput)) as Hs.
  revert Hlen Hs. generalize (sanitize (tags_array tagsInput)). intros l Hlen Hs.
  assert (Hall : Forall (fun tag => normalize tag = tag ∧ tag ≠ "") (spread_set l))
    by by apply spread_set_Forall.
  assert (Hout : (1 ≤ length (spread_set l) ≤ 10)%nat).
  { destruct (spread_set_length l) as [Hle Hge].
    split; [apply Hge; intros ->; simpl in Hlen; lia|lia]. }
  repeat split; try (apply Hout || apply spread_from_NoDup || done).
  - apply validate_Ok_iff. simpl.
    rewrite (sanitize_fixed _ Hall), spread_set_idem. done.
  - by rewrite (normalized_map_fixed _ Hall), spread_set_idem.
Qed.

End TagValidation.

(** C8, as the code has it. The validation splits a single string on
    commas, trims and lowercases every piece, drops the empty ones, and
    requires between 1 and 10 of them, counted before duplicates are
    removed; otherwise it throws and [uploadVideo] answers 400. The tags
    of an accepted request are the pieces without duplicates, in order of
    first occurrence: between 1 and 10 tags that the validation and the
    save hook leave unchanged. The tags ["Music", "music", " ROCK "] are
    stored as ["music", "rock"]. *)
Theorem tags_validation_counts_before_dedupe :
  (∀ tagsInput,
     let kept := VideoCtl.sanitize (VideoCtl.tags_array tagsInput) in
     match VideoCtl.validateAndSanitizeTags tagsInput with
     | Ok out =>
         (1 ≤ length kept ≤ 10)%nat
         ∧ out = JsString.spread_set kept
         ∧ (1 ≤ length out ≤ 10)%nat
         ∧ NoDup out
         ∧ Forall (fun tag => VideoCtl.normalize tag = tag ∧ tag ≠ "") out
         ∧ VideoCtl.validateAndSanitizeTags (VideoCtl.TagsArray out) = Ok out
         ∧ (∀ t d u th uid st,
              Video.tags (Video.pre_save (Video.new t d u th out uid st)) = out)
     | Throw _ => (length kept = 0 ∨ 10 < length kept)%nat
     end)
  ∧ (∀ env user req s,
       match VideoCtl.validateAndSanitizeTags (VideoCtl.tags req) with
       | Ok _ => True
       | Throw _ =>
           reply (VideoCtl.uploadVideo env (Some user) req s) ≫= error_kind
           = Some BadRequest
       end)
  ∧ VideoCtl.validateAndSanitizeTags (VideoCtl.TagsArray ["Music"; "music"; " ROCK "])
    = Ok ["music"; "rock"]
  ∧ VideoCtl.validateAndSanitizeTags (VideoCtl.TagsString "Music,music, ROCK ")
    = Ok ["music"; "rock"].
Proof.
  split; [|split; [|split; reflexivity]].
  - intros tagsInput kept.
    destruct (VideoCtl.validateAndSanitizeTags tagsInput) as [out|m] eqn:E.
    + pose proof (validate_fixed _ _ E) as (? & ? & ? & ? & ?).
      apply validate_Ok_iff in E as (_ & ? & ?).
      repeat split; try done; subst kept; lia.
    + unfold VideoCtl.validateAndSanitizeTags in E. fold kept in E.
      destruct (VideoCtl.tags_falsy tagsInput) eqn:F.
      { left. subst kept. by rewrite validate_falsy_empty. }
      destruct (Nat.eqb_spec (length kept) 0); [by left|].
      destruct (Nat.ltb_spec 10 (length kept)); [by right|done].
  - intros env user req s.
    destruct (VideoCtl.validateAndSanitizeTags (VideoCtl.tags req)) eqn:E; [done|].
    unfold VideoCtl.uploadVideo. unfold_m. simpl.
    repeat (case_match; simpl in *; simplify_eq; try done).
Qed.

(** C8, the claim as it is written: eleven copies of one tag give one
    result after trimming, lowercasing and deduplication, which is
    between 1 and 10, yet the validation rejects them. *)
Lemma tags_eleven_copies_rejected :
  Spec.tags_accepted (VideoCtl.TagsArray (replicate 11 "a")) = true
  ∧ Spec.tag_results (VideoCtl.TagsArray (replicate 11 "a")) = ["a"]
  ∧ VideoCtl.validateAndSanitizeTags (VideoCtl.TagsArray (replicate 11 "a"))
    = Throw "Maximum of 10 tags allowed".
Proof. repeat split; reflexivity. Qed.

(** ** Likes *)

Section LikeFacts.
Import Video.

Lemma indexOf_lower l x : -1 ≤ indexOf l x.
Proof.
  induction l as [|y r IH]; simpl; [lia|].
  case_decide; [lia|]. destruct (Z.ltb_spec (indexOf r x) 0); lia.
Qed.

Lemma indexOf_absent l x : indexOf l x = -1 ↔ x ∉ l.
Proof.
  induction l as [|y r IH]; simpl.
  - split; [intros _; apply not_elem_of_nil|done].
  - rewrite not_elem_of_cons. case_decide as E.
    + split; [lia|]. intros [? _]. congruence.
    + pose proof (indexOf_lower r x).
      destruct (Z.ltb_spec (indexOf r x) 0).
      * split; [intros _|done]. split; [congruence|]. apply IH. lia.
      * split; [lia|]. intros [_ ?%IH]. lia.
Qed.

Lemma indexOf_found l x :
  x ∈ l → 0 ≤ indexOf l x ∧ l !! Z.to_nat (indexOf l x) = Some x.
Proof.
  induction l as [|y r IH]; simpl.
  - by intros ?%elem_of_nil.
  - intros Hx. case_decide as E; [by subst|].
    apply elem_of_cons in Hx as [->|Hx]; [done|].
    destruct (IH Hx) as [Hge Hlook].
    destruct (Z.ltb_spec (indexOf r x) 0); [lia|].
    split; [lia|].
    replace (Z.to_nat (indexOf r x + 1)) with (S (Z.to_nat (indexOf r x))) by lia.
    done.
Qed.

Lemma delete_indexOf_absent l x :
  NoDup l → x ∈ l → x ∉ delete (Z.to_nat (indexOf l x)) l.
Proof.
  induction l as [|y r IH]; simpl; intros Hnd Hx; [by apply elem_of_nil in Hx|].
  inversion_clear Hnd as [|? ? Hy Hr].
  case_decide as E; [by subst|].
  apply elem_of_cons in Hx as [->|Hx]; [done|].
  destruct (indexOf_found r x Hx) as [Hge _].
  destruct (Z.ltb_spec (indexOf r x) 0); [lia|].
  replace (Z.to_nat (indexOf r x + 1)) with (S (Z.to_nat (indexOf r x))) by lia.
  simpl. rewrite not_elem_of_cons. split; [congruence|by apply IH].
Qed.

Lemma delete_NoDup (l : list ObjectId) i : NoDup l → NoDup (delete i l).
Proof. intros H. eapply sublist_NoDup; [done|apply sublist_delete]. Qed.

Lemma toggle_like_branch userId v :
  toggle_is_like userId v = true ↔ userId ∉ likedBy v.
Proof.
  unfold toggle_is_like. rewrite <- indexOf_absent.
  pose proof (indexOf_lower (likedBy v) userId).
  destruct (Z.gtb_spec (indexOf (likedBy v) userId) (-1)); simpl; split;
    (done || lia).
Qed.

Lemma toggle_like_like userId v :
  userId ∉ likedBy v →
  toggleLike userId v = set_likes v (likedBy v ++ [userId])%list (likes v + 1).
Proof.
  intros H%indexOf_absent. unfold toggleLike. by rewrite H.
Qed.

Lemma toggle_like_unlike userId v :
  userId ∈ likedBy v →
  toggleLike userId v
  = set_likes v (delete (Z.to_nat (indexOf (likedBy v) userId)) (likedBy v))
      (likes v - 1).
Proof.
  intros [H _]%indexOf_found. unfold toggleLike.
  destruct (Z.gtb_spec (indexOf (likedBy v) userId) (-1)); [done|lia].
Qed.

(** The counter and the length of the list move together. *)
Lemma toggle_like_offset userId v :
  likes (toggleLike userId v) - Z.of_nat (length (likedBy (toggleLike userId v)))
  = likes v - Z.of_nat (length (likedBy v)).
Proof.
  destruct (decide (userId ∈ likedBy v)) as [Hin|Hout].
  - rewrite (toggle_like_unlike _ _ Hin). simpl.
    destruct (indexOf_found _ _ Hin) as [_ Hlook].
    rewrite length_delete by eauto.
    apply lookup_lt_Some in Hlook. lia.
  - rewrite (toggle_like_like _ _ Hout). simpl.
    rewrite length_app. simpl. lia.
Qed.

Lemma toggle_like_NoDup userId v :
  NoDup (likedBy v) → NoDup (likedBy (toggleLike userId v)).
Proof.
  intros Hnd. destruct (decide (userId ∈ likedBy v)) as [Hin|Hout].
  - rewrite (toggle_like_unlike _ _ Hin). simpl. by apply delete_NoDup.
  - rewrite (toggle_like_like _ _ Hout). simpl.
    apply NoDup_app. split; [done|]. split; [|apply NoDup_singleton].
    intros x Hx ->%list_elem_of_singleton. done.
Qed.

Lemma toggle_like_consistent userId v :
  like_consistent v → like_consistent (toggleLike userId v).
Proof.
  intros [Hc Hnd]. split; [|by apply toggle_like_NoDup].
  pose proof (toggle_like_offset userId v). lia.
Qed.

Lemma toggle_like_member userId v :
  NoDup (likedBy v) →
  (userId ∈ likedBy (toggleLike userId v) ↔ userId ∉ likedBy v).
Proof.
  intros Hnd. destruct (decide (userId ∈ likedBy v)) as [Hin|Hout].
  - rewrite (toggle_like_unlike _ _ Hin). simpl.
    pose proof (delete_indexOf_absent _ _ Hnd Hin). tauto.
  - rewrite (toggle_like_like _ _ Hout). simpl.
    rewrite elem_of_app, list_elem_of_singleton. tauto.
Qed.

Lemma indexOf_app_last l x :
  x ∉ l → indexOf (l ++ [x])%list x = Z.of_nat (length l).
Proof.
  induction l as [|y r IH]; simpl; intros Hx.
  - by case_decide.
  - apply not_elem_of_cons in Hx as [Hne Hx]. case_decide; [congruence|].
    rewrite (IH Hx). destruct (Z.ltb_spec (Z.of_nat (length r)) 0); lia.
Qed.

Lemma delete_app_last (l : list ObjectId) x :
  delete (length l) (l ++ [x])%list = l.
Proof. induction l as [|y r IH]; simpl; [done|]. by rewrite IH. Qed.

(** A like that is taken back leaves the like list as it was. *)
Lemma toggle_like_undo userId v :
  userId ∉ likedBy v →
  likedBy (toggleLike userId (toggleLike userId v)) = likedBy v.
Proof.
  intros Hout. rewrite (toggle_like_like _ _ Hout).
  unfold toggleLike at 1. cbn [likedBy set_likes].
  rewrite (indexOf_app_last _ _ Hout).
  destruct (Z.gtb_spec (Z.of_nat (length (likedBy v))) (-1)); [|lia].
  cbn [likedBy set_likes]. rewrite Nat2Z.id. apply delete_app_last.
Qed.

End LikeFacts.

(** The assignments of two toggles in a row, on a document whose like
    list is a set. *)
Lemma toggle_twice_document (userId : ObjectId) (v : Video.doc) :
  NoDup (Video.likedBy v) →
  let v1 := Video.toggleLike userId v in
  let v2 := Video.toggleLike userId v1 in
  Video.likes v2 = Video.likes v
  ∧ (userId ∈ Video.likedBy v1 ↔ Video.toggle_is_like userId v = true)
  ∧ (userId ∈ Video.likedBy v2 ↔ Video.toggle_is_like userId v1 = true)
  ∧ (Video.toggle_is_like userId v = true →
       Video.likedBy v1 = (Video.likedBy v ++ [userId])%list
       ∧ Video.likes v1 = Video.likes v + 1
       ∧ Video.toggle_is_like userId v1 = false
       ∧ (userId ∉ Video.likedBy v2)
       ∧ Video.likes v2 = Video.likes v1 - 1).
Proof.
  intros Hnd v1 v2.
  assert (Hnd1 : NoDup (Video.likedBy v1)) by by apply toggle_like_NoDup.
  pose proof (toggle_like_member userId v Hnd) as M1.
  pose proof (toggle_like_member userId v1 Hnd1) as M2.
  pose proof (toggle_like_branch userId v) as B1.
  pose proof (toggle_like_branch userId v1) as B2.
  fold v1 in M1. fold v2 in M2.
  assert (Hlikes : Video.likes v2 = Video.likes v).
  { destruct (decide (userId ∈ Video.likedBy v)) as [Hin|Hout].
    - assert (Hout1 : userId ∉ Video.likedBy v1) by tauto.
      subst v2. rewrite (toggle_like_like _ _ Hout1). simpl.
      subst v1. rewrite (toggle_like_unlike _ _ Hin). simpl. lia.
    - assert (Hin1 : userId ∈ Video.likedBy v1) by tauto.
      subst v2. rewrite (toggle_like_unlike _ _ Hin1). simpl.
      subst v1. rewrite (toggle_like_like _ _ Hout). simpl. lia. }
  split; [done|]. split; [tauto|]. split; [tauto|].
  intros Hlike. assert (Hout : userId ∉ Video.likedBy v) by tauto.
  assert (Hin1 : userId ∈ Video.likedBy v1) by tauto.
  assert (E1 : v1 = Video.set_likes v (Video.likedBy v ++ [userId])%list
                      (Video.likes v + 1)) by by apply toggle_like_like.
  split; [by rewrite E1|]. split; [by rewrite E1|].
  split; [destruct (Video.toggle_is_like userId v1); tauto|].
  split; [tauto|]. rewrite Hlikes, E1. simpl. lia.
Qed.

(** ** The invariant of the like counter *)

Create HintDb keeps.

Section Invariant.

Lemma keeps_bind {A B} I (m : M A) (k : A → M B) :
  keeps I m → (∀ a, keeps I (k a)) → keeps I (bind m k).
Proof.
  intros Hm Hk s Hs. unfold bind. specialize (Hm s Hs).
  destruct (m s) as [s' [a|e]]; simpl in *; [by apply Hk|done].
Qed.

Lemma keeps_try_catch {A} I (m : M A) (h : string → M A) :
  keeps I m → (∀ e, keeps I (h e)) → keeps I (try_catch m h).
Proof.
  intros Hm Hh s Hs. unfold try_catch. specialize (Hm s Hs).
  destruct (m s) as [s' [a|e]]; simpl in *; [done|by apply Hh].
Qed.

Lemma ret_keeps {A} I (a : A) : keeps I (ret a).
Proof. by intros s Hs. Qed.

Lemma throw_keeps {A} I e : keeps I (@throw A e).
Proof. by intros s Hs. Qed.

Lemma get_db_keeps I : keeps I get_db.
Proof. by intros s Hs. Qed.

Lemma respond_keeps I code fields : keeps I (respond code fields).
Proof. by intros s Hs. Qed.

Lemma error_keeps I code message : keeps I (VideoCtl.error code message).
Proof. by intros s Hs. Qed.

Lemma req_user_prop_keeps {A} I (f : ReqUser → A) path user :
  keeps I (req_user_prop f path user).
Proof. by destruct user; intros s Hs. Qed.

Lemma cast_id_keeps I env id : keeps I (cast_id env id).
Proof. unfold cast_id. by destruct (ObjectId_isValid env id); intros s Hs. Qed.

Lemma fresh_keeps : keeps videos_consistent fresh.
Proof. by intros s Hs. Qed.

Lemma new_video_consistent t d u th tags uid st :
  Video.like_consistent (Video.new t d u th tags uid st).
Proof. split; [reflexivity|constructor]. Qed.

Lemma pre_save_consistent v :
  Video.like_consistent v → Video.like_consistent (Video.pre_save v).
Proof. done. Qed.

Lemma increment_views_consistent v :
  Video.like_consistent v → Video.like_consistent (Video.incrementViews v).
Proof. done. Qed.

Lemma save_keeps id v :
  Video.like_consistent v → keeps videos_consistent (VideoCtl.save id v).
Proof.
  intros Hv s Hs. unfold VideoCtl.save.
  destruct (Video.validation_errors v); [|done].
  unfold_m. simpl. by apply map_Forall_insert_2.
Qed.

Lemma upload_buffer_keeps env b folder name type :
  keeps videos_consistent (VideoCtl.uploadBufferToAzure env b folder name type).
Proof.
  intros s Hs. unfold VideoCtl.uploadBufferToAzure. unfold_m. simpl.
  by destruct (uploadData_error env _).
Qed.

Lemma generate_thumbnail_keeps I b :
  keeps I (VideoCtl.generateThumbnailFromBuffer b).
Proof. by intros s Hs. Qed.

Lemma compare_keeps I env password hash :
  keeps I (Auth.compare env password hash).
Proof.
  destruct password as [| | | |password|]; try by intros s0 Hs.
  simpl. by destruct (bcrypt_compare env password hash); intros s0 Hs.
Qed.

#[local] Hint Resolve ret_keeps throw_keeps get_db_keeps respond_keeps error_keeps
  req_user_prop_keeps cast_id_keeps fresh_keeps save_keeps upload_buffer_keeps
  generate_thumbnail_keeps compare_keeps new_video_consistent : keeps.

(** One step through a handler: split a sequence, a handler or a
    conditional, and close what the hints know. *)
Ltac keeps_step :=
  first
    [ solve [eauto with keeps]
    | apply keeps_try_catch; [|intros ?]
    | apply keeps_bind; [|intros ?]
    | case_match ].

Lemma thumbnail_step_keeps env f t :
  keeps videos_consistent (VideoCtl.thumbnail_step env f t).
Proof. unfold VideoCtl.thumbnail_step. repeat keeps_step. Qed.

#[local] Hint Resolve thumbnail_step_keeps : keeps.

Lemma upload_video_keeps env user req :
  keeps videos_consistent (VideoCtl.uploadVideo env user req).
Proof. unfold VideoCtl.uploadVideo. repeat keeps_step. Qed.

Lemma inc_views_keeps id : keeps videos_consistent (modify (VideoCtl.inc_views id)).
Proof.
  intros s Hs j w. simpl. rewrite lookup_alter. case_decide; [subst j|apply Hs].
  destruct (Store.videos s !! id) as [w0|] eqn:Hj; simpl; [|done].
  intros [= <-]. apply increment_views_consistent. by apply (Hs id).
Qed.

#[local] Hint Resolve inc_views_keeps : keeps.

Lemma get_video_keeps env user id :
  keeps videos_consistent (VideoCtl.getVideoById env user id).
Proof. unfold VideoCtl.getVideoById. repeat keeps_step. Qed.

(** What is read from a consistent store is consistent. *)
Lemma keeps_read {B} I (k : Store.db → M B) :
  (∀ s, I s → I (fst (k s s))) → keeps I (bind get_db k).
Proof. intros H s Hs. by apply H. Qed.

Lemma like_video_keeps env user id :
  keeps videos_consistent (VideoCtl.likeVideo env user id).
Proof.
  unfold VideoCtl.likeVideo.
  apply keeps_try_catch; [|intros; apply respond_keeps].
  apply keeps_bind; [apply cast_id_keeps|intros oid].
  apply keeps_read. intros s Hs.
  destruct (Store.videos s !! oid) as [video|] eqn:Hv; [|done].
  assert (Hc : Video.like_consistent video) by by apply (Hs oid).
  pose proof toggle_like_consistent as Ht.
  clear Hv. revert s Hs. refine (_ : keeps videos_consistent _).
  repeat keeps_step.
Qed.

Lemma delete_blob_of_keeps video path :
  keeps videos_consistent (VideoCtl.delete_blob_of video path).
Proof.
  unfold VideoCtl.delete_blob_of, VideoCtl.delete_blob.
  repeat keeps_step.
Qed.

Lemma delete_video_keeps env user id :
  keeps videos_consistent (VideoCtl.deleteVideo env user id).
Proof.
  pose proof delete_blob_of_keeps.
  unfold VideoCtl.deleteVideo. repeat keeps_step.
  intros s Hs. by apply map_Forall_delete.
Qed.

Lemma add_comment_keeps env user videoId text :
  keeps videos_consistent (CommentCtl.addComment env user videoId text).
Proof.
  unfold CommentCtl.addComment, CommentCtl.save. repeat keeps_step.
Qed.

Lemma register_keeps env body : keeps videos_consistent (Auth.register env body).
Proof.
  unfold Auth.register, Auth.save_user. repeat keeps_step.
Qed.

Lemma login_keeps env body : keeps videos_consistent (Auth.login env body).
Proof. unfold Auth.login. repeat keeps_step. Qed.

Lemma authenticate_keeps env authorization :
  keeps videos_consistent (Auth.authenticate env authorization).
Proof. unfold Auth.authenticate. repeat keeps_step. Qed.

Lemma authorize_keeps roles user :
  keeps videos_consistent (Auth.authorizeRoles roles user).
Proof. unfold Auth.authorizeRoles. repeat keeps_step. Qed.

Lemma multer_keeps f : keeps videos_consistent (App.multer_file f).
Proof. unfold App.multer_file. repeat keeps_step. Qed.

Lemma serve_keeps env req : keeps videos_consistent (App.serve env req).
Proof.
  pose proof upload_video_keeps. pose proof get_video_keeps.
  pose proof like_video_keeps. pose proof delete_video_keeps.
  pose proof add_comment_keeps. pose proof register_keeps.
  pose proof login_keeps. pose proof authenticate_keeps.
  pose proof authorize_keeps. pose proof multer_keeps.
  unfold App.serve, App.error_handler, App.authenticated, App.authorized.
  repeat keeps_step.
Qed.

Lemma run_consistent trace s :
  videos_consistent s → videos_consistent (App.run trace s).
Proof.
  revert s; induction trace as [|[env req] rest IH]; intros s Hs; simpl; [done|].
  by apply IH, serve_keeps.
Qed.

End Invariant.

(** C5. In every store that the server reaches from a seeded store, the
    like counter of every video equals the size of its like list, which
    has no duplicates. A new video has counter 0 and an empty list;
    [toggleLike] moves the counter and the size of the list together; the
    other operations on a video ([incrementViews], the save hook) leave
    both fields as they are. *)
Theorem like_counter_invariant :
  (∀ us trace, videos_consistent (App.run trace (Store.seeded us)))
  ∧ (∀ t d u th tags uid st,
       Video.likes (Video.new t d u th tags uid st) = 0
       ∧ Video.likedBy (Video.new t d u th tags uid st) = [])
  ∧ (∀ userId v,
       Video.likes (Video.toggleLike userId v)
       - Z.of_nat (length (Video.likedBy (Video.toggleLike userId v)))
       = Video.likes v - Z.of_nat (length (Video.likedBy v)))
  ∧ (∀ v,
       Video.likes (Video.incrementViews v) = Video.likes v
       ∧ Video.likedBy (Video.incrementViews v) = Video.likedBy v
       ∧ Video.likes (Video.pre_save v) = Video.likes v
       ∧ Video.likedBy (Video.pre_save v) = Video.likedBy v).
Proof.
  split; [|split; [done|split; [apply toggle_like_offset|done]]].
  intros us trace. apply run_consistent. apply map_Forall_empty.
Qed.

(** A run in which the admin uploads a video and a consumer likes it. *)
Example run_upload_then_like :
  Store.videos
    (App.run
       [ (Sample.env,
          {| App.authorization := Some "Bearer jwt.a1";
             App.endpoint := App.PostUpload (Sample.upload None) |});
         (Sample.env,
          {| App.authorization := Some "Bearer jwt.u1";
             App.endpoint := App.PostLike "oid1" |}) ]
       (Store.seeded [Sample.boss; Sample.alice]))
  !! "oid1"
  = Some (Video.set_likes
            (Video.new "My Clip" "A clip of the concert"
               "https://beatly.blob.core.windows.net/media/videos/uuid0-clip.mp4"
               None ["music"; "live"] "a1" Video.approved)
            ["u1"] 1).
Proof. vm_compute. reflexivity. Qed.

(** ** Views *)

Lemma get_video_approved env (viewer : ReqUser) id s v :
  ObjectId_isValid env id = true →
  Store.videos s !! id = Some v →
  Video.status v = Video.approved →
  VideoCtl.getVideoById env (Some viewer) id s
  = (VideoCtl.inc_views id s,
     Ok {| status := 200;
           body := JObj
             [("video", VideoCtl.video_json (Store.users s) id v);
              ("comments",
               JArr (VideoCtl.comment_json (Store.users s)
                       <$> rev (VideoCtl.find_comments id (Store.comments s))))] |}).
Proof.
  intros Hvalid Hv Happ. unfold VideoCtl.getVideoById. unfold_m.
  rewrite Hvalid. simpl. rewrite Hv. simpl. rewrite Happ. simpl.
  by rewrite andb_false_r.
Qed.

(** C7. A read of an approved video by an authenticated user answers 200
    with the video as it was stored, and adds one to the stored view
    counter; so the first of two reads in a row shows [n] views and the
    second shows [n + 1]. *)
Theorem get_video_counts_views env (viewer1 viewer2 : ReqUser) id s v :
  ObjectId_isValid env id = true →
  Store.videos s !! id = Some v →
  Video.status v = Video.approved →
  let x1 := VideoCtl.getVideoById env (Some viewer1) id s in
  let x2 := VideoCtl.getVideoById env (Some viewer2) id (fst x1) in
  status <$> reply x1 = Some 200
  ∧ (reply x1 ≫= fun r => field "video" (body r) ≫= field "views")
    = Some (JNum (Video.views v))
  ∧ Store.videos (fst x1) = <[id := Video.incrementViews v]> (Store.videos s)
  ∧ Video.views <$> Store.videos (fst x1) !! id = Some (Video.views v + 1)
  ∧ status <$> reply x2 = Some 200
  ∧ (reply x2 ≫= fun r => field "video" (body r) ≫= field "views")
    = Some (JNum (Video.views v + 1))
  ∧ Video.views <$> Store.videos (fst x2) !! id = Some (Video.views v + 2).
Proof.
  intros Hvalid Hv Happ x1 x2.
  assert (Hv1 : Store.videos (VideoCtl.inc_views id s) !! id
                = Some (Video.incrementViews v)).
  { simpl. rewrite lookup_alter. case_decide; [|done]. by rewrite Hv. }
  subst x2 x1.
  rewrite (get_video_approved env viewer1 id s v) by done. simpl fst.
  rewrite (get_video_approved env viewer2 id _ (Video.incrementViews v)) by done.
  repeat split.
  - simpl. apply map_eq. intros j.
    rewrite lookup_alter, lookup_insert. case_decide; [by rewrite Hv|done].
  - by rewrite Hv1.
  - simpl. rewrite !lookup_alter. case_decide; [|done].
    rewrite Hv. simpl. f_equal. lia.
Qed.

(** Two reads of the sample video, which has 7 views. *)
Lemma get_video_counts_views_witness :
  let x1 := VideoCtl.getVideoById Sample.env (Some Sample.viewer) "v1" Sample.db in
  let x2 := VideoCtl.getVideoById Sample.env (Some Sample.root) "v1" (fst x1) in
  (reply x1 ≫= fun r => field "video" (body r) ≫= field "views") = Some (JNum 7)
  ∧ (reply x2 ≫= fun r => field "video" (body r) ≫= field "views") = Some (JNum 8).
Proof.
  intros x1 x2.
  destruct (get_video_counts_views Sample.env Sample.viewer Sample.root "v1"
              Sample.db Sample.clip)
    as (_ & H1 & _ & _ & _ & H2 & _).
  - reflexivity.
  - vm_compute. reflexivity.
  - reflexivity.
  - split; [exact H1|exact H2].
Defined.

(** ** Login and registration *)

(** C9. A login with an email that matches no user is answered 401 with
    a body that names neither cause. A login with the email of a user and
    a password that does not match gets the same answer when the password
    is a string. When it is another truthy value (a number, [true], an
    array, an object), [bcrypt.compare] rejects, and the answer is 500
    with the message of bcryptjs: the two answers are the same exactly
    when the password sent with the email of the user is a string. *)
Theorem login_failure_answers env s1 s2 (b1 b2 : Auth.LoginBody) user :
  Auth.falsy (Auth.login_email b1) = false →
  Auth.truthy (Auth.login_password b1) = true →
  Auth.falsy (Auth.login_email b2) = false →
  Auth.truthy (Auth.login_password b2) = true →
  Auth.findOne_email (Auth.str (Auth.login_email b1)) (Store.users s1) = None →
  Auth.findOne_email (Auth.str (Auth.login_email b2)) (Store.users s2) = Some user →
  (∀ password, Auth.login_password b2 = Auth.Text password →
     bcrypt_compare env password (User.password user) = Ok false) →
  let generic :=
    {| status := 401;
       body := JObj [("error", JStr "Authentication failed");
                     ("details", JStr "Invalid email or password")] |} in
  let failed :=
    {| status := 500;
       body := JObj [("error", JStr "Login failed");
                     ("details",
                      JStr ("Illegal arguments: "
                            ++ Auth.typeof (Auth.login_password b2)
                            ++ ", string"))] |} in
  Auth.login env b1 s1 = (s1, Ok generic)
  ∧ Auth.login env b2 s2
    = (s2, Ok match Auth.login_password b2 with
              | Auth.Text _ => generic
              | _ => failed
              end)
  ∧ (reply (Auth.login env b1 s1) = reply (Auth.login env b2 s2)
     ↔ ∃ password, Auth.login_password b2 = Auth.Text password)
  ∧ error_kind generic = Some Unauthorized
  ∧ error_kind failed = Some Internal.
Proof.
  intros E1 P1 E2 P2 Hnone Hsome Hcmp generic failed.
  assert (L1 : Auth.login env b1 s1 = (s1, Ok generic)).
  { unfold Auth.login. unfold_m. rewrite E1, P1. simpl. by rewrite Hnone. }
  assert (L2 : Auth.login env b2 s2
               = (s2, Ok match Auth.login_password b2 with
                         | Auth.Text _ => generic
                         | _ => failed
                         end)).
  { unfold Auth.login, Auth.compare. unfold_m. rewrite E2, P2. simpl.
    rewrite Hsome. subst failed.
    destruct (Auth.login_password b2) as [| |b|n|password|] eqn:P; try done.
    by rewrite (Hcmp password eq_refl). }
  rewrite L1, L2. repeat split; try done.
  - destruct (Auth.login_password b2); try done. eauto.
  - by intros [password ->].
Qed.

(** An unknown email and the email of Alice, each with the number 12345
    as the password, and then each with a string that is not the password
    of Alice. *)
Lemma login_failure_answers_witness :
  let attempt email password :=
    reply (Auth.login Sample.env
             {| Auth.login_email := Some email; Auth.login_password := password |}
             Sample.db) in
  attempt "nobody@example.com" (Auth.Number 12345)
  = Some {| status := 401;
            body := JObj [("error", JStr "Authentication failed");
                          ("details", JStr "Invalid email or password")] |}
  ∧ attempt "alice@example.com" (Auth.Number 12345)
    = Some {| status := 500;
              body := JObj [("error", JStr "Login failed");
                            ("details",
                             JStr "Illegal arguments: number, string")] |}
  ∧ attempt "nobody@example.com" (Auth.Text "guess")
    = attempt "alice@example.com" (Auth.Text "guess").
Proof.
  intros attempt.
  destruct (login_failure_answers Sample.env Sample.db Sample.db
              {| Auth.login_email := Some "nobody@example.com";
                 Auth.login_password := Auth.Number 12345 |}
              {| Auth.login_email := Some "alice@example.com";
                 Auth.login_password := Auth.Number 12345 |}
              Sample.alice eq_refl eq_refl eq_refl eq_refl eq_refl eq_refl)
    as (H1 & H2 & _); [by intros password [=]|].
  destruct (login_failure_answers Sample.env Sample.db Sample.db
              {| Auth.login_email := Some "nobody@example.com";
                 Auth.login_password := Auth.Text "guess" |}
              {| Auth.login_email := Some "alice@example.com";
                 Auth.login_password := Auth.Text "guess" |}
              Sample.alice eq_refl eq_refl eq_refl eq_refl eq_refl eq_refl)
    as (_ & _ & H3 & _); [by intros password [= <-]|].
  subst attempt. cbv beta. rewrite H1, H2.
  split; [reflexivity|]. split; [reflexivity|]. apply H3. eauto.
Defined.

Lemma find_email_app email us u :
  User.email u = email →
  is_Some (Auth.findOne_email email (us ++ [u])).
Proof.
  intros <-. unfold Auth.findOne_email.
  induction us as [|w us IH]; simpl.
  - rewrite String.eqb_refl. eauto.
  - destruct (String.eqb (User.email w) (User.email u)); eauto.
Qed.

Lemma register_taken env s body :
  Auth.falsy (Auth.name body) = false →
  Auth.falsy (Auth.email body) = false →
  Auth.falsy (Auth.password body) = false →
  is_Some (Auth.findOne_email (Auth.str (Auth.email body)) (Store.users s)) →
  Auth.register env body s
  = (s, Ok {| status := 400;
              body := JObj [("error", JStr "User already exists");
                            ("details",
                             JStr "An account with this email already exists")] |}).
Proof.
  intros N E P [existingUser Hex]. unfold Auth.register. unfold_m.
  rewrite N, E, P. simpl. by rewrite Hex.
Qed.

(** A signup that is answered 201 has stored a user with its email. *)
Lemma register_created env s body :
  status <$> reply (Auth.register env body s) = Some 201 →
  is_Some (Auth.findOne_email (Auth.str (Auth.email body))
             (Store.users (fst (Auth.register env body s)))).
Proof.
  unfold Auth.register, Auth.save_user. unfold_m.
  destruct (Auth.falsy (Auth.name body) || Auth.falsy (Auth.email body)
            || Auth.falsy (Auth.password body)); [done|].
  simpl.
  destruct (Auth.findOne_email _ (Store.users s)); [done|]. simpl.
  destruct (User_validate env _); [done|]. simpl. intros _.
  by apply find_email_app.
Qed.

(** C1, as the code has it. A signup with all fields present and an
    email that a stored user has is answered 400 with the error "User
    already exists", and the store is left as it was: the status is the
    one of a bad request, no 409 is sent. In particular, after a signup
    that was answered 201, a second signup with the same email is
    answered so. *)
Theorem register_existing_email_400 :
  let duplicate :=
    {| status := 400;
       body := JObj [("error", JStr "User already exists");
                     ("details", JStr "An account with this email already exists")] |} in
  error_kind duplicate = Some BadRequest
  ∧ (∀ env s body,
       Auth.falsy (Auth.name body) = false →
       Auth.falsy (Auth.email body) = false →
       Auth.falsy (Auth.password body) = false →
       is_Some (Auth.findOne_email (Auth.str (Auth.email body)) (Store.users s)) →
       Auth.register env body s = (s, Ok duplicate))
  ∧ (∀ env1 env2 s first second,
       Auth.falsy (Auth.name second) = false →
       Auth.falsy (Auth.email second) = false →
       Auth.falsy (Auth.password second) = false →
       Auth.email second = Auth.email first →
       status <$> reply (Auth.register env1 first s) = Some 201 →
       let s1 := fst (Auth.register env1 first s) in
       Auth.register env2 second s1 = (s1, Ok duplicate)).
Proof.
  intros duplicate. split; [done|]. split.
  - intros. by apply register_taken.
  - intros env1 env2 s first second N E P Heq H201 s1.
    apply register_taken; try done.
    rewrite Heq. by apply register_created.
Qed.

(** Bob signs up twice. *)
Lemma register_existing_email_400_witness :
  let bob := {| Auth.name := Some "Bob"; Auth.email := Some "bob@example.com";
                Auth.password := Some "hunter2"; Auth.role := None |} in
  let s1 := fst (Auth.register Sample.env bob Sample.db) in
  status <$> reply (Auth.register Sample.env bob s1) = Some 400
  ∧ length (Store.users (fst (Auth.register Sample.env bob s1))) = 2%nat.
Proof.
  intros bob s1.
  pose proof (proj2 (proj2 register_existing_email_400)
                Sample.env Sample.env Sample.db bob bob
                eq_refl eq_refl eq_refl eq_refl eq_refl) as H.
  cbv zeta in H. fold s1 in H. rewrite H. split; reflexivity.
Defined.

(** C1, the claim as it is written: the second signup with an email is
    answered 400, which is the status of a bad request, not of a
    conflict. *)
Lemma register_existing_email_not_conflict :
  let body := {| Auth.name := Some "Al"; Auth.email := Some "alice@example.com";
                 Auth.password := Some "hunter2"; Auth.role := None |} in
  is_Some (Auth.findOne_email "alice@example.com" (Store.users Sample.db))
  ∧ status <$> reply (Auth.register Sample.env body Sample.db) = Some 400
  ∧ reply (Auth.register Sample.env body Sample.db) ≫= error_kind = Some BadRequest
  ∧ reply (Auth.register Sample.env body Sample.db) ≫= error_kind ≠ Some Conflict.
Proof. repeat split; done. Qed.

(** ** Upload *)

Section UploadFacts.
Import VideoCtl.

Lemma upload_buffer_ok env b folder name type s :
  uploadData_error env (blob_name env (Store.counter s) folder name) = None →
  uploadBufferToAzure env b folder name type s
  = (Store.set_blobs (insert (blob_name env (Store.counter s) folder name) b)
       (Store.tick s),
     Ok (blob_url env (blob_name env (Store.counter s) folder name))).
Proof.
  intros H. unfold uploadBufferToAzure. unfold_m. simpl. by rewrite H.
Qed.

Lemma upload_buffer_fails env b folder name type s e :
  uploadData_error env (blob_name env (Store.counter s) folder name) = Some e →
  uploadBufferToAzure env b folder name type s = (Store.tick s, Throw e).
Proof.
  intros H. unfold uploadBufferToAzure. unfold_m. simpl. by rewrite H.
Qed.

Lemma save_ok id v s :
  Video.validation_errors v = [] →
  save id v s
  = (Store.set_videos (insert id (Video.pre_save v)) s, Ok (Video.pre_save v)).
Proof. intros H. unfold save. by rewrite H. Qed.

Lemma length_pos_not_empty s : (0 < String.length s)%nat → String.eqb s "" = false.
Proof. destruct s; simpl; [lia|done]. Qed.

Lemma check_string_ok r a b min max s :
  (0 < min)%nat → (min ≤ String.length s ≤ max)%nat →
  Video.check_string r a b min max s = None.
Proof.
  intros Hmin [Hlo Hhi]. unfold Video.check_string.
  rewrite length_pos_not_empty by lia.
  destruct (Nat.ltb_spec (String.length s) min); [lia|].
  destruct (Nat.ltb_spec max (String.length s)); [lia|done].
Qed.

Lemma blob_url_not_empty env blobName : String.eqb (blob_url env blobName) "" = false.
Proof. unfold blob_url. by destruct (container_url env). Qed.

Lemma new_video_valid env title description blobName thumbnail tags uid st :
  (3 ≤ String.length (JsString.trim title))%nat →
  (String.length title ≤ 100)%nat →
  (10 ≤ String.length (JsString.trim description))%nat →
  (String.length description ≤ 500)%nat →
  (1 ≤ length tags ≤ 10)%nat →
  Video.validation_errors
    (Video.new title description (blob_url env blobName) thumbnail tags uid st) = [].
Proof.
  intros T1 T2 D1 D2 [G1 G2]. unfold Video.validation_errors. simpl.
  pose proof (trim_length title). pose proof (trim_length description).
  rewrite !check_string_ok by lia. rewrite blob_url_not_empty.
  destruct (Nat.ltb_spec 0 (length tags)); [|lia].
  destruct (Nat.leb_spec (length tags) 10); [done|lia].
Qed.

(** The checks of [uploadVideo] on a text field. *)
Lemma field_checks_pass (x : string) min max :
  (0 < min)%nat → (min ≤ String.length x ≤ max)%nat →
  Auth.falsy (Some x) = false
  ∧ (String.length x <? min)%nat || (max <? String.length x)%nat = false.
Proof.
  intros Hmin [Hlo Hhi]. split; [by apply length_pos_not_empty; lia|].
  destruct (Nat.ltb_spec (String.length x) min); [lia|].
  destruct (Nat.ltb_spec max (String.length x)); [lia|done].
Qed.

End UploadFacts.

Lemma bind_ok {A B} (m : M A) (k : A → M B) s s' a :
  m s = (s', Ok a) → bind m k s = k a s'.
Proof. intros H. unfold bind. by rewrite H. Qed.

Lemma bind_throw {A B} (m : M A) (k : A → M B) s s' e :
  m s = (s', Throw e) → bind m k s = (s', Throw e).
Proof. intros H. unfold bind. by rewrite H. Qed.

(** An upload by an admin with valid fields whose video reaches the
    container goes on with the thumbnail. *)
Lemma upload_video_after_blob env (user : ReqUser) req s title description
    sanitizedTags file :
  ru_role user = admin →
  VideoCtl.title req = Some title →
  (3 ≤ String.length title ≤ 100)%nat →
  VideoCtl.description req = Some description →
  (10 ≤ String.length description ≤ 500)%nat →
  VideoCtl.validateAndSanitizeTags (VideoCtl.tags req) = Ok sanitizedTags →
  VideoCtl.videoFile req = Some file →
  let blobName :=
    VideoCtl.blob_name env (Store.counter s) "videos" (VideoCtl.originalname file) in
  uploadData_error env blobName = None →
  VideoCtl.uploadVideo env (Some user) req s
  = try_catch
      (thumbnailUrl <- VideoCtl.thumbnail_step env file (VideoCtl.thumbnailFile req) ;;
       VideoCtl.finish_upload env (ru_id user) admin title description
         (VideoCtl.blob_url env blobName) sanitizedTags thumbnailUrl)
      VideoCtl.upload_failed
      (Store.set_blobs (insert blobName (VideoCtl.buffer file)) (Store.tick s)).
Proof.
  intros Hrole Ht Htl Hd Hdl Htags Hfile blobName Hup.
  destruct (field_checks_pass title 3 100) as [T1 T2]; [lia|done|].
  destruct (field_checks_pass description 10 500) as [D1 D2]; [lia|done|].
  unfold VideoCtl.uploadVideo, try_catch.
  match goal with
  | |- match ?b s with _ => _ end = match ?r ?s1 with _ => _ end =>
      assert (E : b s = r s1); [|by rewrite E]
  end.
  erewrite bind_ok by reflexivity.
  rewrite Ht, Hd, Htags, Hfile.
  change (Auth.str (Some title)) with title.
  change (Auth.str (Some description)) with description.
  rewrite T1, T2, D1, D2.
  erewrite bind_ok by reflexivity.
  rewrite Hrole.
  replace (negb (bool_decide (admin ∈ [admin]))) with false by reflexivity.
  cbv iota.
  erewrite bind_ok by (by apply upload_buffer_ok).
  fold blobName.
  unfold bind at 1 3.
  destruct (VideoCtl.thumbnail_step env file (VideoCtl.thumbnailFile req) _)
    as [s2 [thumbnailUrl|e]]; done.
Qed.

(** C6. An upload by an admin with valid fields and a video file but no
    thumbnail file stores the video with no thumbnail and the status
    approved, and is answered 201 with a null thumbnail: the derivation of
    the thumbnail fails (as it does for every buffer, see
    [generateThumbnailFromBuffer]), and the handler goes on without
    one. *)
Theorem upload_without_thumbnail env (user : ReqUser) req s title description
    sanitizedTags file :
  ru_role user = admin →
  VideoCtl.title req = Some title →
  (3 ≤ String.length (JsString.trim title))%nat →
  (String.length title ≤ 100)%nat →
  VideoCtl.description req = Some description →
  (10 ≤ String.length (JsString.trim description))%nat →
  (String.length description ≤ 500)%nat →
  VideoCtl.validateAndSanitizeTags (VideoCtl.tags req) = Ok sanitizedTags →
  VideoCtl.videoFile req = Some file →
  VideoCtl.thumbnailFile req = None →
  uploadData_error env
    (VideoCtl.blob_name env (Store.counter s) "videos" (VideoCtl.originalname file))
  = None →
  let blobName :=
    VideoCtl.blob_name env (Store.counter s) "videos" (VideoCtl.originalname file) in
  let id := new_ObjectId env (S (Store.counter s)) in
  let video :=
    Video.new title description (VideoCtl.blob_url env blobName) None
      sanitizedTags (ru_id user) Video.approved in
  let answer :=
    {| status := 201;
       body := JObj
         [("message", JStr "Video uploaded successfully");
          ("video",
           JObj [("id", JStr id);
                 ("title", JStr (JsString.trim title));
                 ("url", JStr (VideoCtl.blob_url env blobName));
                 ("thumbnail", JNull);
                 ("tags", JArr (JStr <$> sanitizedTags));
                 ("status", JStr "approved")])] |} in
  VideoCtl.uploadVideo env (Some user) req s
  = ({| Store.users := Store.users s;
        Store.videos := <[id := video]> (Store.videos s);
        Store.comments := Store.comments s;
        Store.blobs := <[blobName := VideoCtl.buffer file]> (Store.blobs s);
        Store.counter := S (S (Store.counter s)) |},
     Ok answer)
  ∧ Video.thumbnail video = None
  ∧ Video.status video = Video.approved
  ∧ error_kind answer = None.
Proof.
  intros Hrole Ht Ht1 Ht2 Hd Hd1 Hd2 Htags Hfile Hthumb Hup
    blobName id video answer.
  pose proof (trim_length title). pose proof (trim_length description).
  destruct (validate_fixed _ _ Htags) as (Hlen & _ & _ & _ & Hfixed).
  split; [|done].
  rewrite (upload_video_after_blob env user req s title description
             sanitizedTags file) by (done || lia).
  rewrite Hthumb. unfold VideoCtl.thumbnail_step, VideoCtl.finish_upload.
  unfold VideoCtl.generateThumbnailFromBuffer.
  unfold try_catch, bind, throw, ret, fresh. simpl.
  rewrite save_ok by (by apply new_video_valid).
  assert (Hsaved : Video.pre_save video = video).
  { unfold Video.pre_save, video. simpl. fold VideoCtl.normalize.
    by rewrite Hfixed. }
  fold blobName id video. rewrite Hsaved. reflexivity.
Qed.

(** The sample upload without a thumbnail file. *)
Lemma upload_without_thumbnail_witness :
  status <$> reply (VideoCtl.uploadVideo Sample.env (Some Sample.root)
                      (Sample.upload None) Sample.db) = Some 201
  ∧ Video.thumbnail
      <$> Store.videos (fst (VideoCtl.uploadVideo Sample.env (Some Sample.root)
                               (Sample.upload None) Sample.db)) !! "oid3"
    = Some None.
Proof.
  destruct (upload_without_thumbnail Sample.env Sample.root (Sample.upload None)
              Sample.db "My Clip" "A clip of the concert" ["music"; "live"]
              Sample.mp4) as (H & _);
    try reflexivity; try (vm_compute; lia).
  rewrite H. split; [reflexivity|]. simpl. by rewrite lookup_insert_eq.
Defined.

(** C10. An upload by an admin with valid fields, a video file and a
    thumbnail file, for which the upload of the thumbnail file fails
    after the video reached the container, is answered 500; no video is
    stored, and the blob of the video stays in the container. *)
Theorem upload_fails_with_supplied_thumbnail env (user : ReqUser) req s title
    description sanitizedTags file thumb e :
  ru_role user = admin →
  VideoCtl.title req = Some title →
  (3 ≤ String.length title ≤ 100)%nat →
  VideoCtl.description req = Some description →
  (10 ≤ String.length description ≤ 500)%nat →
  VideoCtl.validateAndSanitizeTags (VideoCtl.tags req) = Ok sanitizedTags →
  VideoCtl.videoFile req = Some file →
  VideoCtl.thumbnailFile req = Some thumb →
  uploadData_error env
    (VideoCtl.blob_name env (Store.counter s) "videos" (VideoCtl.originalname file))
  = None →
  uploadData_error env
    (VideoCtl.blob_name env (S (Store.counter s)) "thumbnails"
       (VideoCtl.originalname thumb))
  = Some e →
  let blobName :=
    VideoCtl.blob_name env (Store.counter s) "videos" (VideoCtl.originalname file) in
  let answer :=
    {| status := 500;
       body := JObj [("error", JStr "Video upload failed"); ("details", JStr e)] |} in
  VideoCtl.uploadVideo env (Some user) req s
  = ({| Store.users := Store.users s;
        Store.videos := Store.videos s;
        Store.comments := Store.comments s;
        Store.blobs := <[blobName := VideoCtl.buffer file]> (Store.blobs s);
        Store.counter := S (S (Store.counter s)) |},
     Ok answer)
  ∧ error_kind answer = Some Internal.
Proof.
  intros Hrole Ht Htl Hd Hdl Htags Hfile Hthumb Hup Hfail blobName answer.
  split; [|done].
  rewrite (upload_video_after_blob env user req s title description
             sanitizedTags file) by done.
  rewrite Hthumb. unfold VideoCtl.thumbnail_step, try_catch.
  erewrite bind_throw; [reflexivity|].
  erewrite bind_throw; [reflexivity|].
  by apply upload_buffer_fails.
Qed.

(** The sample upload with a thumbnail file: uploads to the folder of
    the thumbnails fail in the sample world. *)
Lemma upload_fails_with_supplied_thumbnail_witness :
  let x := VideoCtl.uploadVideo Sample.env (Some Sample.root)
             (Sample.upload (Some Sample.png)) Sample.db in
  status <$> reply x = Some 500
  ∧ Store.videos (fst x) = Store.videos Sample.db
  ∧ Store.blobs (fst x) !! "videos/uuid2-clip.mp4" = Some "RAWVIDEO".
Proof.
  intros x.
  destruct (upload_fails_with_supplied_thumbnail Sample.env Sample.root
              (Sample.upload (Some Sample.png)) Sample.db "My Clip"
              "A clip of the concert" ["music"; "live"] Sample.mp4 Sample.png
              "RestError: upload failed") as (H & _);
    try reflexivity; try (vm_compute; lia).
  subst x. rewrite H. repeat split.
Defined.

(** ** Deleting a video *)

(** C2, at a stored video whose two blobs are in the container: the
    admin deletes the video; the comments and the record are gone, the
    answer is 200, and both blobs are still in the container. No request
    to delete a blob is made for any video: the handler reads the paths
    [videoUrl] and [thumbnailUrl], which the schema does not have (the
    URLs are under [url] and [thumbnail]). *)
Theorem delete_video_leaves_blobs :
  (∀ v, Video.get v "videoUrl" = None ∧ Video.get v "thumbnailUrl" = None)
  ∧ (∀ env user id s,
       Store.blobs (fst (VideoCtl.deleteVideo env user id s)) = Store.blobs s)
  ∧ let x := VideoCtl.deleteVideo Sample.env (Some Sample.root) "v1" Sample.db in
    Video.get Sample.clip "url"
    = Some "https://beatly.blob.core.windows.net/media/videos/uuid0-clip.mp4"
    ∧ status <$> reply x = Some 200
    ∧ Store.videos (fst x) !! "v1" = None
    ∧ VideoCtl.find_comments "v1" (Store.comments (fst x)) = []
    ∧ Store.blobs (fst x) !! "videos/uuid0-clip.mp4" = Some "RAWVIDEO"
    ∧ Store.blobs (fst x) !! "thumbnails/uuid1-clip.png" = Some "PNG".
Proof.
  split; [done|]. split.
  - intros env user id s.
    unfold VideoCtl.deleteVideo, VideoCtl.delete_blob_of. unfold_m. simpl.
    repeat (case_match; simpl in *; simplify_eq; try done).
  - vm_compute. repeat split.
Qed.

(** ** Authentication *)

(** C3, what the code does with a token that verifies and whose subject
    is not a stored user: [authenticate] calls [next()] with [req.user]
    set to [null], and the request is served by the handler of the route
    with that user; no 401 is sent. *)
Theorem authenticate_passes_unknown_user env s authorization token id :
  Auth.bearer_token authorization = Some token →
  token ≠ "" →
  jwt_verify env token = Some id →
  ObjectId_isValid env id = true →
  Auth.findById id (Store.users s) = None →
  Auth.authenticate env authorization s = (s, Ok (Auth.Next None))
  ∧ (∀ videoId,
       App.serve env {| App.authorization := authorization;
                        App.endpoint := App.GetVideo videoId |} s
       = App.error_handler (VideoCtl.getVideoById env None videoId) s)
  ∧ (∀ videoId text,
       App.serve env {| App.authorization := authorization;
                        App.endpoint := App.PostComment videoId text |} s
       = App.error_handler (CommentCtl.addComment env None videoId text) s).
Proof.
  intros Htoken Hne Hverify Hvalid Hfind.
  assert (A : Auth.authenticate env authorization s = (s, Ok (Auth.Next None))).
  { unfold Auth.authenticate. rewrite Htoken.
    replace (Auth.falsy (Some token)) with false
      by (symmetry; by apply String.eqb_neq).
    change (Auth.str (Some token)) with token. rewrite Hverify.
    unfold try_catch, cast_id. rewrite Hvalid.
    erewrite bind_ok by reflexivity. erewrite bind_ok by reflexivity.
    by rewrite Hfind. }
  split; [done|].
  split; intros; unfold App.serve, App.authenticated; simpl App.endpoint;
    simpl App.authorization; unfold App.error_handler, try_catch;
    by erewrite bind_ok by exact A.
Qed.

(** A token for the id [u404], which no stored user has: reading the
    video [v1], liking it and commenting on it are answered 500. *)
Lemma authenticate_passes_unknown_user_witness :
  let request endpoint :=
    {| App.authorization := Some "Bearer jwt.u404"; App.endpoint := endpoint |} in
  Auth.authenticate Sample.env (Some "Bearer jwt.u404") Sample.db
  = (Sample.db, Ok (Auth.Next None))
  ∧ reply (App.serve Sample.env (request (App.GetVideo "v1")) Sample.db)
    = Some {| status := 500;
              body := JObj [("error", JStr "Failed to retrieve video");
                            ("details",
                             JStr "Cannot read properties of null (reading 'role')")] |}
  ∧ status <$> reply (App.serve Sample.env (request (App.PostLike "v1")) Sample.db)
    = Some 500
  ∧ status <$> reply (App.serve Sample.env (request (App.PostComment "v1" "hi"))
                        Sample.db)
    = Some 500.
Proof.
  intros request.
  destruct (authenticate_passes_unknown_user Sample.env Sample.db
              (Some "Bearer jwt.u404") "jwt.u404" "u404")
    as (A & G & C); try reflexivity; [done|].
  split; [exact A|].
  split; [unfold request; rewrite G; reflexivity|].
  split; [reflexivity|].
  unfold request. rewrite C. reflexivity.
Defined.

(** ** Liking through the handler *)

(** [likeVideo] by a consumer on a stored video saves the toggled
    document and answers with its like counter. *)
Lemma like_video_answer env (user : ReqUser) id s v :
  ObjectId_isValid env id = true →
  Store.videos s !! id = Some v →
  ru_role user = consumer →
  Video.validation_errors (Video.toggleLike (ru_id user) v) = [] →
  VideoCtl.likeVideo env (Some user) id s
  = (Store.set_videos
       (insert id (Video.pre_save (Video.toggleLike (ru_id user) v))) s,
     Ok {| status := 200;
           body := JObj [("message", JStr "Video like toggled");
                         ("likes",
                          JNum (Video.likes (Video.toggleLike (ru_id user) v)))] |}).
Proof.
  intros Hvalid Hv Hrole Hok.
  unfold VideoCtl.likeVideo, try_catch, cast_id. rewrite Hvalid.
  erewrite bind_ok by reflexivity. erewrite bind_ok by reflexivity.
  rewrite Hv. erewrite bind_ok by reflexivity. rewrite Hrole.
  replace (negb (bool_decide (consumer = consumer))) with false by reflexivity.
  cbv iota. erewrite bind_ok by reflexivity.
  erewrite bind_ok by (by apply save_ok). reflexivity.
Qed.

Example like_video_sample :
  reply (VideoCtl.likeVideo Sample.env (Some Sample.viewer) "v1" Sample.db)
  = Some {| status := 200;
            body := JObj [("message", JStr "Video like toggled");
                          ("likes", JNum 1)] |}.
Proof. by rewrite (like_video_answer _ _ _ _ Sample.clip). Qed.

(** * Further properties *)

(** ** The video model *)

Lemma filter_delete_indexOf (l : list string) u :
  0 ≤ Video.indexOf l u →
  List.filter (fun x => negb (String.eqb x u))
    (delete (Z.to_nat (Video.indexOf l u)) l)
  = List.filter (fun x => negb (String.eqb x u)) l.
Proof.
  induction l as [|y r IH]; simpl; [done|].
  case_decide as E.
  - intros _. subst. simpl. by rewrite String.eqb_refl.
  - destruct (Z.ltb_spec (Video.indexOf r u) 0) as [Hneg|Hpos]; [lia|].
    intros _.
    replace (Z.to_nat (Video.indexOf r u + 1))
      with (S (Z.to_nat (Video.indexOf r u))) by lia.
    simpl. by rewrite IH.
Qed.

(** X1. A toggle by one user keeps the likes of all other users, in
    their order. *)
Theorem toggle_like_keeps_others (userId : ObjectId) (v : Video.doc) :
  List.filter (fun x => negb (String.eqb x userId))
    (Video.likedBy (Video.toggleLike userId v))
  = List.filter (fun x => negb (String.eqb x userId)) (Video.likedBy v)
  ∧ (∀ other, other ≠ userId →
       (other ∈ Video.likedBy (Video.toggleLike userId v)
        ↔ other ∈ Video.likedBy v)).
Proof.
  assert (F : List.filter (fun x => negb (String.eqb x userId))
                (Video.likedBy (Video.toggleLike userId v))
              = List.filter (fun x => negb (String.eqb x userId)) (Video.likedBy v)).
  { unfold Video.toggleLike.
    destruct (Z.gtb_spec (Video.indexOf (Video.likedBy v) userId) (-1)); simpl.
    - apply filter_delete_indexOf. lia.
    - rewrite List.filter_app. simpl. rewrite String.eqb_refl. simpl.
      by rewrite app_nil_r. }
  split; [exact F|].
  intros other Hne.
  assert (M : ∀ l, other ∈ List.filter (fun x => negb (String.eqb x userId)) l
                   ↔ other ∈ l).
  { intros l. rewrite !list_elem_of_In, filter_In.
    assert (String.eqb other userId = false) as -> by by apply String.eqb_neq.
    simpl. tauto. }
  by rewrite <- (M (Video.likedBy (Video.toggleLike userId v))), F, M.
Qed.


(** ** What a request writes *)

Section Effects.
Import Effect.

Lemma change_refl s : change s s.
Proof. by apply nothing. Qed.

Lemma change_after_read {A B} (m : M A) (k : A → M B) s :
  (∀ s0, fst (m s0) = s0) →
  (∀ a, change s (fst (k a s))) →
  change s (fst (bind m k s)).
Proof.
  intros Hm Hk. unfold bind. specialize (Hm s).
  destruct (m s) as [s' [a|e]]; simpl in Hm; subst s'; [apply Hk|apply change_refl].
Qed.

Lemma change_try_respond (m : M Response) code fields s :
  change s (fst (m s)) →
  change s (fst (try_catch m (fun message => respond code (fields message)) s)).
Proof. unfold try_catch. by destruct (m s) as [s' [a|e]]. Qed.

Lemma authenticate_reads env authorization s :
  fst (Auth.authenticate env authorization s) = s.
Proof.
  unfold Auth.authenticate. unfold_m.
  repeat (case_match; simpl in *; simplify_eq; try done).
Qed.

Lemma authorize_reads roles user s : fst (Auth.authorizeRoles roles user s) = s.
Proof.
  unfold Auth.authorizeRoles. unfold_m.
  repeat (case_match; simpl in *; simplify_eq; try done).
Qed.

Lemma multer_reads f s : fst (App.multer_file f s) = s.
Proof.
  unfold App.multer_file. unfold_m.
  repeat (case_match; simpl in *; simplify_eq; try done).
Qed.

Lemma login_reads env body s : fst (Auth.login env body s) = s.
Proof.
  unfold Auth.login, Auth.compare. unfold_m.
  repeat (case_match; simpl in *; simplify_eq; try done).
Qed.

Lemma alter_as_insert (m : gmap string Video.doc) f i x :
  m !! i = Some x → alter f i m = <[i := f x]> m.
Proof.
  intros H. apply map_eq. intros j. rewrite lookup_alter, lookup_insert.
  destruct (decide (i = j)) as [<-|]; [by rewrite H|done].
Qed.

Lemma register_change env body s : change s (fst (Auth.register env body s)).
Proof.
  unfold Auth.register, Auth.save_user. unfold_m.
  repeat (case_match; simpl in *; simplify_eq; try by apply nothing).
  eapply user_added; cycle 2; [reflexivity|reflexivity|reflexivity|..]; done.
Qed.

Lemma get_video_change env user id s :
  change s (fst (VideoCtl.getVideoById env user id s)).
Proof.
  unfold VideoCtl.getVideoById. unfold_m.
  repeat (case_match; simpl in *; simplify_eq; try by apply nothing).
  match goal with
  | Hv : Store.videos ?s0 !! id = Some ?v,
    Ha : bool_decide (Video.status ?v = Video.approved) = true |- _ =>
      apply (video_viewed _ _ id v); simpl;
        [exact Hv|by apply bool_decide_eq_true in Ha|done| |done];
      by apply alter_as_insert
  end.
Qed.

Lemma upload_change env user req s :
  change s (fst (VideoCtl.uploadVideo env user req s)).
Proof.
  destruct user as [[uid uname uemail []]|];
    unfold VideoCtl.uploadVideo, VideoCtl.finish_upload, VideoCtl.upload_failed,
      VideoCtl.thumbnail_step, VideoCtl.uploadBufferToAzure,
      VideoCtl.generateThumbnailFromBuffer, VideoCtl.save; unfold_m;
    repeat (case_match; simpl in *; simplify_eq; try by apply nothing);
    try (by apply nothing);
    eapply video_added; simpl; eauto.
Qed.

Lemma like_change env user id s :
  change s (fst (VideoCtl.likeVideo env user id s)).
Proof.
  unfold VideoCtl.likeVideo, VideoCtl.save. unfold_m.
  repeat (case_match; simpl in *; simplify_eq; try by apply nothing).
  eapply video_liked; simpl; eauto.
Qed.

Lemma delete_change env user id s :
  change s (fst (VideoCtl.deleteVideo env user id s)).
Proof.
  unfold VideoCtl.deleteVideo, VideoCtl.delete_blob_of. unfold_m.
  repeat (case_match; simpl in *; simplify_eq; try by apply nothing).
  eapply video_deleted; simpl; eauto.
Qed.

Lemma add_comment_change env user videoId text s :
  change s (fst (CommentCtl.addComment env user videoId text s)).
Proof.
  unfold CommentCtl.addComment, CommentCtl.save. unfold_m.
  repeat (case_match; simpl in *; simplify_eq; try by apply nothing).
  eapply comment_added; cycle 3; [reflexivity|simpl; eauto|done..].
Qed.

Lemma serve_change env req s : change s (fst (App.serve env req s)).
Proof.
  destruct req as [authorization endpoint].
  unfold App.serve, App.error_handler. simpl.
  apply (change_try_respond _ 500
           (fun message => [("error", JStr "Internal Server Error");
                            ("message", JStr message)])).
  unfold App.authenticated, App.authorized.
  destruct endpoint; first
    [ apply register_change
    | rewrite login_reads; apply change_refl
    | apply change_after_read; [apply authenticate_reads|];
      intros [r|user]; [apply change_refl|] ].
  - apply change_after_read; [apply authorize_reads|].
    intros [r|user']; [apply change_refl|].
    apply change_after_read; [apply multer_reads|]. intros _.
    apply change_after_read; [apply multer_reads|]. intros _.
    apply upload_change.
  - apply get_video_change.
  - apply change_after_read; [apply authorize_reads|].
    intros [r|user']; [apply change_refl|]. apply like_change.
  - apply change_after_read; [apply authorize_reads|].
    intros [r|user']; [apply change_refl|]. apply delete_change.
  - apply add_comment_change.
Qed.

Lemma run_invariant (I : Store.db → Prop) :
  (∀ s s', change s s' → I s → I s') →
  ∀ trace s, I s → I (App.run trace s).
Proof.
  intros Hstep trace. induction trace as [|[env req] rest IH]; intros s Hs; [done|].
  simpl. apply IH. eapply Hstep; [apply serve_change|done].
Qed.

End Effects.

(** No handler removes a blob. *)
Section Blobs.
Variable name : string.

Lemma blob_fresh_keeps : keeps (Effect.has_blob name) fresh.
Proof. by intros s Hs. Qed.

Lemma blob_save_keeps id v : keeps (Effect.has_blob name) (VideoCtl.save id v).
Proof.
  unfold VideoCtl.save. destruct (Video.validation_errors v); by intros s Hs.
Qed.

Lemma blob_upload_keeps env b folder file type :
  keeps (Effect.has_blob name) (VideoCtl.uploadBufferToAzure env b folder file type).
Proof.
  intros s Hs. unfold VideoCtl.uploadBufferToAzure. unfold_m. simpl.
  destruct (uploadData_error env _); [done|]. simpl.
  unfold Effect.has_blob. simpl. rewrite lookup_insert. by case_decide.
Qed.

Lemma blob_modify_keeps f :
  (∀ s, Store.blobs (f s) = Store.blobs s) → keeps (Effect.has_blob name) (modify f).
Proof. intros H s Hs. unfold Effect.has_blob. simpl. by rewrite H. Qed.

Lemma blob_delete_of_keeps video :
  keeps (Effect.has_blob name) (VideoCtl.delete_blob_of video "videoUrl")
  ∧ keeps (Effect.has_blob name) (VideoCtl.delete_blob_of video "thumbnailUrl").
Proof. split; by intros s Hs. Qed.

Lemma serve_keeps_blob env req : keeps (Effect.has_blob name) (App.serve env req).
Proof.
  pose proof blob_fresh_keeps. pose proof blob_save_keeps.
  pose proof blob_upload_keeps.
  pose proof (fun v => proj1 (blob_delete_of_keeps v)).
  pose proof (fun v => proj2 (blob_delete_of_keeps v)).
  assert (∀ f, keeps (Effect.has_blob name) (modify (Store.set_users f)))
    by (intros; by apply blob_modify_keeps).
  assert (∀ f, keeps (Effect.has_blob name) (modify (Store.set_videos f)))
    by (intros; by apply blob_modify_keeps).
  assert (∀ f, keeps (Effect.has_blob name) (modify (Store.set_comments f)))
    by (intros; by apply blob_modify_keeps).
  assert (∀ id, keeps (Effect.has_blob name) (modify (VideoCtl.inc_views id)))
    by (intros; by apply blob_modify_keeps).
  destruct req as [authorization []];
    unfold App.serve, App.error_handler, App.authenticated, App.authorized,
      App.multer_file, Auth.authenticate, Auth.authorizeRoles, Auth.register,
      Auth.login, Auth.save_user, VideoCtl.uploadVideo, VideoCtl.finish_upload,
      VideoCtl.upload_failed, VideoCtl.thumbnail_step,
      VideoCtl.generateThumbnailFromBuffer, VideoCtl.getVideoById,
      VideoCtl.likeVideo, VideoCtl.deleteVideo, CommentCtl.addComment,
      CommentCtl.save; simpl App.endpoint; simpl App.authorization;
    repeat first
      [ progress eauto using ret_keeps, throw_keeps, get_db_keeps, respond_keeps,
          error_keeps, req_user_prop_keeps, cast_id_keeps, compare_keeps,
          generate_thumbnail_keeps
      | apply keeps_try_catch; [|intros ?]
      | apply keeps_bind; [|intros ?]
      | case_match ].
Qed.

End Blobs.

(** X3. Whatever the request, the server makes at most one of seven
    writes to the collections: it adds a consumer with a new email, adds
    a validated approved video, adds one view to an approved video, saves
    a toggled like, deletes a video with its comments, or adds a comment
    on a stored video. It never removes or edits a user, never edits a
    comment, and never removes a blob from the container. *)
Theorem serve_effect env req s :
  Effect.change s (fst (App.serve env req s))
  ∧ (∀ name, Effect.has_blob name s →
             Effect.has_blob name (fst (App.serve env req s))).
Proof.
  split; [apply serve_change|]. intros name. apply serve_keeps_blob.
Qed.

(** ** Invariants of the stored data *)

Section DataInvariants.
Import Effect.

Lemma pre_save_fixed v :
  JsString.spread_set (VideoCtl.normalize <$> Video.tags v) = Video.tags v →
  Video.pre_save v = v.
Proof. intros H. destruct v. unfold Video.pre_save. simpl in *. f_equal. exact H. Qed.

Lemma pre_save_fixed_tags v :
  Video.pre_save v = v →
  JsString.spread_set (VideoCtl.normalize <$> Video.tags v) = Video.tags v.
Proof. intros H. by apply (f_equal Video.tags) in H. Qed.

(** Well-formedness looks at the title, the description, the URL and
    the tags only. *)
Lemma well_formed_same_text v w :
  Video.title w = Video.title v → Video.description w = Video.description v →
  Video.url w = Video.url v → Video.tags w = Video.tags v →
  well_formed v → well_formed w.
Proof.
  intros Ht Hd Hu Hg (Hval & Htt & Htd & Hnd & Hall & Hfix).
  repeat split.
  - unfold Video.validation_errors in *. by rewrite Ht, Hd, Hu, Hg.
  - by rewrite Ht.
  - by rewrite Hd.
  - by rewrite Hg.
  - by rewrite Hg.
  - apply pre_save_fixed. rewrite Hg. by apply pre_save_fixed_tags.
Qed.

Lemma uploaded_well_formed tagsInput tags title description url thumbnail uid :
  VideoCtl.validateAndSanitizeTags tagsInput = Ok tags →
  Video.validation_errors
    (Video.new title description url thumbnail tags uid Video.approved) = [] →
  Video.pre_save (Video.new title description url thumbnail tags uid Video.approved)
  = Video.new title description url thumbnail tags uid Video.approved
  ∧ well_formed (Video.new title description url thumbnail tags uid Video.approved).
Proof.
  intros Htags Hval.
  destruct (validate_fixed _ _ Htags) as (_ & Hnd & Hall & _ & Hfix).
  assert (F : Video.pre_save
                (Video.new title description url thumbnail tags uid Video.approved)
              = Video.new title description url thumbnail tags uid Video.approved)
    by by apply pre_save_fixed.
  split; [exact F|]. repeat split; try done; simpl; apply trim_idem.
Qed.

Lemma change_well_formed s s' :
  change s s' → videos_well_formed s → videos_well_formed s'.
Proof.
  unfold videos_well_formed.
  intros [ (_ & -> & _) | u _ _ _ -> _
         | id t d u th input tags uid Htags Hval _ -> _
         | id v Hv _ _ -> _ | id uid v Hv Hval _ -> _
         | id _ _ -> _ | c _ _ -> _ ] Hs; try done.
  - apply map_Forall_insert_2; [|done].
    destruct (uploaded_well_formed _ _ _ _ _ _ _ Htags Hval) as [-> ?]. done.
  - apply map_Forall_insert_2; [|done].
    by apply (well_formed_same_text v), (Hs id).
  - apply map_Forall_insert_2; [|done].
    assert (W : well_formed (Video.toggleLike uid v)).
    { apply (well_formed_same_text v); try apply (Hs id); try done;
        unfold Video.toggleLike; by case_match. }
    destruct W as (? & ? & ? & ? & ? & Hfix). rewrite Hfix. by repeat split.
  - by apply map_Forall_delete.
Qed.

Lemma change_attached s s' :
  change s s' → comments_attached s → comments_attached s'.
Proof.
  unfold comments_attached.
  intros [ (_ & -> & ->) | u _ _ _ -> ->
         | id t d u th input tags uid _ _ _ -> ->
         | id v Hv _ _ -> -> | id uid v Hv _ _ -> ->
         | id _ _ -> -> | c Hc _ -> -> ] Hs; try done.
  - eapply Forall_impl; [exact Hs|]. intros c. simpl.
    rewrite lookup_insert. by case_decide.
  - eapply Forall_impl; [exact Hs|]. intros c. simpl.
    rewrite lookup_insert. by case_decide.
  - eapply Forall_impl; [exact Hs|]. intros c. simpl.
    rewrite lookup_insert. by case_decide.
  - rewrite Forall_forall in *. intros c Hin.
    apply list_elem_of_In, filter_In in Hin as [Hin Hne].
    apply negb_true_iff, String.eqb_neq in Hne.
    rewrite lookup_delete_ne by done. by apply Hs, list_elem_of_In.
  - apply Forall_app. split; [done|]. by apply Forall_singleton.
Qed.

Lemma change_users s s' :
  change s s' →
  Store.users s' = Store.users s
  ∨ ∃ u, User.role u = consumer
         ∧ Auth.findOne_email (User.email u) (Store.users s) = None
         ∧ Store.users s' = (Store.users s ++ [u])%list.
Proof.
  intros [ (-> & _) | u ? ? -> _ _ | ? ? ? ? ? ? ? ? _ _ -> _ _
         | ? ? _ _ -> _ _ | ? ? ? _ _ -> _ _ | ? _ -> _ _ | ? _ -> _ _ ];
    eauto.
Qed.

End DataInvariants.

Section StoredData.
Import Effect.

Lemma check_string_bounds r a b min max s :
  Video.check_string r a b min max s = None →
  (min ≤ String.length s ≤ max)%nat.
Proof.
  unfold Video.check_string. destruct (String.eqb s ""); [done|].
  destruct (Nat.ltb_spec (String.length s) min); [done|].
  destruct (Nat.ltb_spec max (String.length s)); [done|]. lia.
Qed.

Lemma validation_bounds v :
  Video.validation_errors v = [] →
  (3 ≤ String.length (Video.title v) ≤ 100)%nat
  ∧ (10 ≤ String.length (Video.description v) ≤ 500)%nat
  ∧ Video.url v ≠ ""
  ∧ (1 ≤ length (Video.tags v) ≤ 10)%nat.
Proof.
  unfold Video.validation_errors. simpl.
  destruct (Video.check_string _ _ _ 3 100 _) eqn:T; [done|].
  destruct (Video.check_string _ _ _ 10 500 _) eqn:D; [done|].
  destruct (String.eqb_spec (Video.url v) ""); [done|].
  destruct (Nat.ltb_spec 0 (length (Video.tags v)));
    destruct (Nat.leb_spec (length (Video.tags v)) 10); try done.
  intros _. apply check_string_bounds in T, D. repeat split; (done || lia).
Qed.

Lemma change_books s s' :
  change s s' →
  map_Forall (fun _ v => Video.like_consistent v ∧ books_ok v) (Store.videos s) →
  map_Forall (fun _ v => Video.like_consistent v ∧ books_ok v) (Store.videos s').
Proof.
  intros [ (_ & -> & _) | u _ _ _ -> _
         | id t d u th input tags uid Htags Hval _ -> _
         | id v Hv Ha _ -> _ | id uid v Hv Hval _ -> _
         | id _ _ -> _ | c _ _ -> _ ] Hs; try done.
  - apply map_Forall_insert_2; [|done].
    split; [apply new_video_consistent|]. by repeat split.
  - apply map_Forall_insert_2; [|done].
    destruct (Hs id v Hv) as (Hc & ? & ? & ? & ?).
    split; [done|]. repeat split; simpl; (done || lia).
  - apply map_Forall_insert_2; [|done].
    destruct (Hs id v Hv) as (Hc & Hst & ? & ? & Hcm).
    assert (Hc' : Video.like_consistent (Video.toggleLike uid v))
      by by apply toggle_like_consistent.
    split; [done|].
    assert (E : Video.status (Video.toggleLike uid v) = Video.status v
                ∧ Video.views (Video.toggleLike uid v) = Video.views v
                ∧ Video.comments (Video.toggleLike uid v) = Video.comments v)
      by (unfold Video.toggleLike; by case_match).
    destruct E as (E1 & E2 & E3). destruct Hc' as [Hl _].
    repeat split; simpl; try congruence; lia.
  - by apply map_Forall_delete.
Qed.

Lemma find_email_none email us :
  Auth.findOne_email email us = None → email ∉ User.email <$> us.
Proof.
  unfold Auth.findOne_email. induction us as [|u us IH]; simpl.
  - intros _. apply not_elem_of_nil.
  - destruct (String.eqb_spec (User.email u) email); [done|].
    intros H. apply not_elem_of_cons. split; [congruence|by apply IH].
Qed.

End StoredData.

(** X4. In every store that the server reaches from a seeded store,
    every video satisfies the schema: a trimmed title of 3 to 100
    characters, a trimmed description of 10 to 500, a URL, and 1 to 10
    tags that are distinct, trimmed, in lowercase and not empty; the save
    hook would leave it unchanged. *)
Theorem stored_videos_well_formed us trace :
  map_Forall
    (fun _ v =>
       (3 ≤ String.length (Video.title v) ≤ 100)%nat
       ∧ JsString.trim (Video.title v) = Video.title v
       ∧ (10 ≤ String.length (Video.description v) ≤ 500)%nat
       ∧ JsString.trim (Video.description v) = Video.description v
       ∧ Video.url v ≠ ""
       ∧ (1 ≤ length (Video.tags v) ≤ 10)%nat
       ∧ NoDup (Video.tags v)
       ∧ Forall Effect.tag_ok (Video.tags v)
       ∧ Video.validation_errors v = []
       ∧ Video.pre_save v = v)
    (Store.videos (App.run trace (Store.seeded us))).
Proof.
  assert (W : Effect.videos_well_formed (App.run trace (Store.seeded us))).
  { apply run_invariant; [apply change_well_formed|apply map_Forall_empty]. }
  intros id v Hv. destruct (W id v Hv) as (Hval & ? & ? & ? & ? & ?).
  destruct (validation_bounds v Hval) as (? & ? & ? & ?).
  repeat split; (done || lia).
Qed.

(** X5. In every store that the server reaches from a seeded store,
    every comment is on a video that is stored: a comment is added only
    to a stored video, and a video is deleted with its comments. *)
Theorem comments_stay_attached us trace :
  Forall
    (fun c =>
       is_Some (Store.videos (App.run trace (Store.seeded us)) !! Comment.video c))
    (Store.comments (App.run trace (Store.seeded us))).
Proof.
  apply (run_invariant Effect.comments_attached);
    [apply change_attached|apply Forall_nil_2].
Qed.

(** X6. The routes never remove or change a user, and every user that
    they add is a consumer: after any run the users are the users from
    before, followed by consumers. *)
Theorem users_only_grow trace s :
  ∃ added,
    Store.users (App.run trace s) = (Store.users s ++ added)%list
    ∧ Forall (fun u => User.role u = consumer) added.
Proof.
  revert s. induction trace as [|[env req] rest IH]; intros s; simpl.
  - exists []. by rewrite app_nil_r.
  - destruct (IH (fst (App.serve env req s))) as (added & -> & Hall).
    destruct (change_users _ _ (serve_change env req s)) as [->|(u & Hu & _ & ->)].
    + eauto.
    + exists (u :: added). rewrite <- app_assoc. split; [done|]. by constructor.
Qed.

(** X7. If no two users of a store have the same email, no two users
    have after any run. *)
Theorem emails_stay_unique trace s :
  NoDup (User.email <$> Store.users s) →
  NoDup (User.email <$> Store.users (App.run trace s)).
Proof.
  apply (run_invariant (fun s => NoDup (User.email <$> Store.users s))).
  clear. intros s s' Hch Hs.
  destruct (change_users _ _ Hch) as [->|(u & _ & Hfree & ->)]; [done|].
  rewrite fmap_app. apply NoDup_app. split; [done|]. simpl.
  split; [|apply NoDup_singleton].
  intros e He ->%list_elem_of_singleton. by apply find_email_none in Hfree.
Qed.

(** Bob signs up twice, then Alice's email is tried again. *)
Lemma emails_stay_unique_witness :
  let bob := {| Auth.name := Some "Bob"; Auth.email := Some "bob@example.com";
                Auth.password := Some "hunter2"; Auth.role := None |} in
  let signup := (Sample.env, {| App.authorization := None;
                                App.endpoint := App.PostSignup bob |}) in
  NoDup (User.email <$> Store.users (App.run [signup; signup] Sample.db))
  ∧ length (Store.users (App.run [signup; signup] Sample.db)) = 2%nat.
Proof.
  intros bob signup. split; [|reflexivity].
  apply emails_stay_unique. simpl. apply NoDup_singleton.
Defined.

Lemma run_books us trace :
  map_Forall (fun _ v => Video.like_consistent v ∧ Effect.books_ok v)
    (Store.videos (App.run trace (Store.seeded us))).
Proof.
  apply (run_invariant
           (fun s => map_Forall
                       (fun _ v => Video.like_consistent v ∧ Effect.books_ok v)
                       (Store.videos s)));
    [apply change_books|apply map_Forall_empty].
Qed.

(** X8. In every store that the server reaches from a seeded store,
    every video is approved, its view and like counters are not below 0,
    and its comment counter is 0, however many comments it has. *)
Theorem stored_videos_books us trace :
  map_Forall
    (fun _ v =>
       Video.status v = Video.approved
       ∧ 0 ≤ Video.views v
       ∧ 0 ≤ Video.likes v
       ∧ Video.comments v = 0)
    (Store.videos (App.run trace (Store.seeded us))).
Proof.
  intros id v Hv. by destruct (run_books us trace id v Hv).
Qed.

(** ** Signing up, logging in, presenting the token *)

Lemma find_email_last email us u :
  Auth.findOne_email email us = None →
  User.email u = email →
  Auth.findOne_email email (us ++ [u]) = Some u.
Proof.
  intros Hnone <-. unfold Auth.findOne_email in *.
  induction us as [|w us IH]; simpl in *.
  - by rewrite String.eqb_refl.
  - destruct (String.eqb (User.email w) (User.email u)); [done|by apply IH].
Qed.

(** X9. A signup with all fields and a free email that the user model
    accepts stores a consumer with the hashed password, whatever role the
    body asks for, and is answered 201; a login with the same email and
    password right after it is answered 200 with a token for that user,
    provided [bcrypt.compare] accepts the hash of the password. *)
Theorem register_then_login env s (body : Auth.RegisterBody) :
  let newUser :=
    {| User._id := new_ObjectId env (S (Store.counter s));
       User.name := Auth.str (Auth.name body);
       User.email := Auth.str (Auth.email body);
       User.password :=
         bcrypt_hash env (Auth.str (Auth.password body))
           (bcrypt_genSalt env (Store.counter s));
       User.role := consumer |} in
  Auth.falsy (Auth.name body) = false →
  Auth.falsy (Auth.email body) = false →
  Auth.falsy (Auth.password body) = false →
  Auth.findOne_email (Auth.str (Auth.email body)) (Store.users s) = None →
  User_validate env newUser = None →
  bcrypt_compare env (Auth.str (Auth.password body)) (User.password newUser)
  = Ok true →
  let x := Auth.register env body s in
  let y := Auth.login env {| Auth.login_email := Auth.email body;
                             Auth.login_password := Auth.value (Auth.password body) |}
             (fst x) in
  reply x
  = Some {| status := 201;
            body := JObj [("message", JStr "User registered successfully");
                          ("user", Auth.user_json newUser);
                          ("token", JStr (Auth.sign env newUser))] |}
  ∧ Store.users (fst x) = (Store.users s ++ [newUser])%list
  ∧ reply y
    = Some {| status := 200;
              body := JObj [("message", JStr "Login successful");
                            ("user", Auth.user_json newUser);
                            ("token", JStr (Auth.sign env newUser))] |}
  ∧ fst y = fst x.
Proof.
  intros newUser N E P Hfree Hval Hcmp x y.
  assert (X : x = (Store.set_users (fun us => (us ++ [newUser])%list)
                     (Store.tick (Store.tick s)),
                   Ok {| status := 201;
                         body := JObj [("message", JStr "User registered successfully");
                                       ("user", Auth.user_json newUser);
                                       ("token", JStr (Auth.sign env newUser))] |})).
  { subst x. unfold Auth.register, Auth.save_user, try_catch.
    rewrite N, E, P. cbn [orb].
    erewrite bind_ok by reflexivity. rewrite Hfree.
    erewrite bind_ok by reflexivity. erewrite bind_ok by reflexivity.
    cbn [Store.counter Store.tick]. fold newUser. rewrite Hval.
    erewrite bind_ok by reflexivity. reflexivity. }
  assert (Y : y = (fst x,
                   Ok {| status := 200;
                         body := JObj [("message", JStr "Login successful");
                                       ("user", Auth.user_json newUser);
                                       ("token", JStr (Auth.sign env newUser))] |})).
  { assert (∃ password, Auth.password body = Some password) as [password Hpw]
      by (destruct (Auth.password body); [eauto|done]).
    subst y. rewrite X. unfold Auth.login, Auth.compare, try_catch.
    cbn [Auth.login_email Auth.login_password fst].
    rewrite Hpw in P, Hcmp |- *. simpl in P.
    change (Auth.str (Some password)) with password in Hcmp.
    cbn [Auth.value Auth.truthy]. rewrite E, P. cbn [orb negb].
    erewrite bind_ok by reflexivity. cbn [Store.users Store.set_users Store.tick].
    rewrite (find_email_last _ _ newUser Hfree eq_refl).
    by rewrite Hcmp. }
  rewrite Y, X. done.
Qed.

(** Bob signs up and logs in; he asked to be an admin. *)
Lemma register_then_login_witness :
  let bob := {| Auth.name := Some "Bob"; Auth.email := Some "bob@example.com";
                Auth.password := Some "hunter2"; Auth.role := Some "admin" |} in
  let x := Auth.register Sample.env bob Sample.db in
  (reply x ≫= fun r => field "user" (body r) ≫= field "role")
  = Some (JStr "consumer")
  ∧ status <$> reply (Auth.login Sample.env
                        {| Auth.login_email := Some "bob@example.com";
                           Auth.login_password := Auth.Text "hunter2" |} (fst x))
    = Some 200.
Proof.
  intros bob x.
  destruct (register_then_login Sample.env Sample.db bob)
    as (H1 & _ & H3 & _); try reflexivity.
  subst x. split; [by rewrite H1|]. exact (f_equal (fmap status) H3).
Defined.

Lemma split_bearer token :
  JsString.split " "%char ("Bearer " ++ token)
  = "Bearer" :: JsString.split " "%char token.
Proof. reflexivity. Qed.

(** X10. A login with the email of a stored user and a password that
    [bcrypt.compare] accepts is answered 200 with a token for that user;
    when that token verifies to the id of the user and has no space in
    it, [authenticate] with the header "Bearer <token>" attaches the user
    without the password and calls [next()]. *)
Theorem login_then_authenticate env s (body : Auth.LoginBody) password user :
  Auth.falsy (Auth.login_email body) = false →
  Auth.login_password body = Auth.Text password →
  password ≠ "" →
  Auth.findOne_email (Auth.str (Auth.login_email body)) (Store.users s) = Some user →
  bcrypt_compare env password (User.password user) = Ok true →
  Auth.sign env user ≠ "" →
  JsString.split " "%char (Auth.sign env user) = [Auth.sign env user] →
  jwt_verify env (Auth.sign env user) = Some (User._id user) →
  ObjectId_isValid env (User._id user) = true →
  Auth.findById (User._id user) (Store.users s) = Some user →
  Auth.login env body s
  = (s, Ok {| status := 200;
              body := JObj [("message", JStr "Login successful");
                            ("user", Auth.user_json user);
                            ("token", JStr (Auth.sign env user))] |})
  ∧ Auth.authenticate env (Some ("Bearer " ++ Auth.sign env user)) s
    = (s, Ok (Auth.Next (Some (Auth.select_no_password user)))).
Proof.
  intros E P Hpw Hfind Hcmp Hne Hsplit Hverify Hvalid Hid. split.
  - unfold Auth.login, Auth.compare, try_catch. rewrite E, P.
    cbn [Auth.truthy]. apply String.eqb_neq in Hpw. rewrite Hpw. cbn [orb negb].
    erewrite bind_ok by reflexivity. rewrite Hfind.
    by rewrite Hcmp.
  - unfold Auth.authenticate, Auth.bearer_token.
    rewrite split_bearer, Hsplit.
    change (["Bearer"; Auth.sign env user] !! 1%nat)
      with (Some (Auth.sign env user)).
    replace (Auth.falsy (Some (Auth.sign env user))) with false
      by (symmetry; by apply String.eqb_neq).
    change (Auth.str (Some (Auth.sign env user))) with (Auth.sign env user).
    rewrite Hverify. unfold try_catch, cast_id. rewrite Hvalid.
    erewrite bind_ok by reflexivity. erewrite bind_ok by reflexivity.
    by rewrite Hid.
Qed.

(** Alice logs in and presents her token. *)
Lemma login_then_authenticate_witness :
  Auth.authenticate Sample.env (Some "Bearer jwt.u1") Sample.db
  = (Sample.db, Ok (Auth.Next (Some Sample.viewer))).
Proof.
  refine (proj2 (login_then_authenticate Sample.env Sample.db
                   {| Auth.login_email := Some "alice@example.com";
                      Auth.login_password := Auth.Text "secret" |} "secret"
                   Sample.alice _ _ _ _ _ _ _ _ _ _)); try reflexivity; done.
Defined.

(** ** Access control at the routes *)

Lemma authenticate_denies env authorization s :
  Auth.falsy (Auth.bearer_token authorization) = true →
  Auth.authenticate env authorization s
  = (s, Ok (Auth.Answer
              {| status := 401;
                 body := JObj [("error",
                                JStr "Access denied. No token provided.")] |})).
Proof. intros H. unfold Auth.authenticate. by rewrite H. Qed.

(** What a guarded route does with the verdict of [authenticate]. *)
Lemma guarded_route env authorization s v (k : option ReqUser → M Response) :
  Auth.authenticate env authorization s = (s, Ok v) →
  App.error_handler (App.authenticated env authorization k) s
  = match v with
    | Auth.Answer r => (s, Ok r)
    | Auth.Next user => App.error_handler (k user) s
    end.
Proof.
  intros H. unfold App.error_handler, App.authenticated, try_catch.
  erewrite bind_ok by exact H. by destruct v.
Qed.

Lemma authorize_verdict roles (user : ReqUser) s :
  Auth.authorizeRoles roles (Some user) s
  = (s, Ok (if bool_decide (ru_role user ∈ roles) then Auth.Next (Some user)
            else Auth.Answer
                   {| status := 403;
                      body := JObj [("error",
                                     JStr "Access denied. Unauthorized role.")] |})).
Proof.
  unfold Auth.authorizeRoles. erewrite bind_ok by reflexivity.
  by destruct (bool_decide (ru_role user ∈ roles)).
Qed.

(** X11. A request to a guarded route without a bearer token (no
    header, a header of one word, or an empty token) is answered 401 and
    leaves the store as it is; the handler of the route does not run. *)
Theorem no_token_no_entry env s authorization :
  Auth.falsy (Auth.bearer_token authorization) = true →
  let request endpoint :=
    {| App.authorization := authorization; App.endpoint := endpoint |} in
  let denied :=
    {| status := 401;
       body := JObj [("error", JStr "Access denied. No token provided.")] |} in
  (∀ up, App.serve env (request (App.PostUpload up)) s = (s, Ok denied))
  ∧ (∀ id, App.serve env (request (App.GetVideo id)) s = (s, Ok denied))
  ∧ (∀ id, App.serve env (request (App.PostLike id)) s = (s, Ok denied))
  ∧ (∀ id, App.serve env (request (App.DeleteVideo id)) s = (s, Ok denied))
  ∧ (∀ videoId text,
       App.serve env (request (App.PostComment videoId text)) s = (s, Ok denied)).
Proof.
  intros H request denied.
  pose proof (authenticate_denies env authorization s H) as A.
  repeat split; intros; unfold App.serve; simpl;
    by rewrite (guarded_route _ _ _ _ _ A).
Qed.

(** No header, and the header "Bearer" alone. *)
Lemma no_token_no_entry_witness :
  status <$> reply (App.serve Sample.env
                      {| App.authorization := None;
                         App.endpoint := App.DeleteVideo "v1" |} Sample.db)
  = Some 401
  ∧ fst (App.serve Sample.env
           {| App.authorization := Some "Bearer";
              App.endpoint := App.PostLike "v1" |} Sample.db)
    = Sample.db.
Proof.
  split.
  - by rewrite (proj1 (proj2 (proj2 (proj2
        (no_token_no_entry Sample.env Sample.db None eq_refl)))) "v1").
  - by rewrite (proj1 (proj2 (proj2
        (no_token_no_entry Sample.env Sample.db (Some "Bearer") eq_refl))) "v1").
Defined.

(** X12. Behind [authenticate], a consumer who asks to upload or to
    delete a video, and an admin who asks to like one, are answered 403
    by [authorizeRoles]; the store is left as it is and the handler does
    not run. *)
Theorem wrong_role_forbidden env s authorization (user : ReqUser) :
  Auth.authenticate env authorization s = (s, Ok (Auth.Next (Some user))) →
  let request endpoint :=
    {| App.authorization := authorization; App.endpoint := endpoint |} in
  let forbidden :=
    {| status := 403;
       body := JObj [("error", JStr "Access denied. Unauthorized role.")] |} in
  match ru_role user with
  | consumer =>
      (∀ up, App.serve env (request (App.PostUpload up)) s = (s, Ok forbidden))
      ∧ (∀ id, App.serve env (request (App.DeleteVideo id)) s = (s, Ok forbidden))
  | admin =>
      ∀ id, App.serve env (request (App.PostLike id)) s = (s, Ok forbidden)
  end.
Proof.
  intros A request forbidden.
  destruct (ru_role user) eqn:R; [split|]; intros; unfold App.serve; simpl;
    rewrite (guarded_route _ _ _ _ _ A);
    unfold App.error_handler, App.authorized, try_catch;
    (erewrite bind_ok by apply authorize_verdict); by rewrite R.
Qed.

(** Alice, a consumer, asks to delete the sample video. *)
Lemma wrong_role_forbidden_witness :
  App.serve Sample.env {| App.authorization := Some "Bearer jwt.u1";
                          App.endpoint := App.DeleteVideo "v1" |} Sample.db
  = (Sample.db,
     Ok {| status := 403;
           body := JObj [("error", JStr "Access denied. Unauthorized role.")] |}).
Proof.
  exact (proj2 (wrong_role_forbidden Sample.env Sample.db (Some "Bearer jwt.u1")
                  Sample.viewer eq_refl) "v1").
Defined.

Lemma multer_outcome f s :
  App.multer_file f s = (s, Ok tt) ∨ ∃ e, App.multer_file f s = (s, Throw e).
Proof.
  unfold App.multer_file. destruct f as [f|]; [|by left].
  repeat case_match; eauto.
Qed.

Lemma multer_rejects (f : VideoCtl.File) s :
  VideoCtl.mimetype f ∉ App.allowedTypes ∨ 100 * 1024 * 1024 < VideoCtl.size f →
  ∃ e, App.multer_file (Some f) s = (s, Throw e).
Proof.
  intros H. unfold App.multer_file.
  destruct (bool_decide (VideoCtl.mimetype f ∈ App.allowedTypes)) eqn:T; simpl;
    [|eauto].
  destruct (Z.leb_spec (100 * 1024 * 1024) (VideoCtl.size f)); [eauto|].
  apply bool_decide_eq_true in T. destruct H; [done|lia].
Qed.

(** X13. An upload request in which the video file or the thumbnail
    file has a type outside the list of multer, or more than 100 MiB,
    stores nothing and uploads nothing: the store is left as it is, and
    the answer is 401, 403 or 500, whoever sends it. *)
Theorem upload_filter_rejects env s authorization up (f : VideoCtl.File) :
  VideoCtl.videoFile up = Some f ∨ VideoCtl.thumbnailFile up = Some f →
  VideoCtl.mimetype f ∉ App.allowedTypes ∨ 100 * 1024 * 1024 < VideoCtl.size f →
  let x := App.serve env {| App.authorization := authorization;
                            App.endpoint := App.PostUpload up |} s in
  fst x = s
  ∧ ∃ r, reply x = Some r ∧ (status r = 401 ∨ status r = 403 ∨ status r = 500).
Proof.
  intros Hfile Hbad x. subst x. unfold App.serve. simpl.
  pose proof (authenticate_reads env authorization s) as HA.
  destruct (Auth.authenticate env authorization s) as [s0 [v|e]] eqn:A;
    simpl in HA; subst s0.
  2:{ unfold App.error_handler, App.authenticated, try_catch.
      erewrite bind_throw by exact A. simpl. unfold reply. simpl. eauto 6. }
  rewrite (guarded_route _ _ _ _ _ A).
  assert (S401 : ∀ r, v = Auth.Answer r → status r = 401).
  { intros r ->. revert A. unfold Auth.authenticate. unfold_m.
    repeat (case_match; simpl in *; simplify_eq; try done); by intros [= <-]. }
  destruct v as [r|user]; [unfold reply; simpl; eauto 6 using S401|].
  unfold App.error_handler, App.authorized, try_catch.
  destruct user as [user|].
  2:{ erewrite bind_throw by reflexivity. unfold reply. simpl. eauto 6. }
  erewrite bind_ok by apply authorize_verdict.
  destruct (bool_decide (ru_role user ∈ [admin])); [|unfold reply; simpl; eauto 6].
  destruct (multer_outcome (VideoCtl.videoFile up) s) as [M1|[e M1]].
  2:{ erewrite bind_throw by exact M1. unfold reply. simpl. eauto 6. }
  erewrite bind_ok by exact M1.
  assert (∃ e, App.multer_file (VideoCtl.thumbnailFile up) s = (s, Throw e))
    as [e M2].
  { destruct Hfile as [Hv|Ht].
    - rewrite Hv in M1. destruct (multer_rejects f s Hbad) as [e He]. congruence.
    - rewrite Ht. by apply multer_rejects. }
  erewrite bind_throw by exact M2. unfold reply. simpl. eauto 6.
Qed.

(** The admin sends a text file as the video. *)
Lemma upload_filter_rejects_witness :
  let txt := {| VideoCtl.originalname := "notes.txt";
                VideoCtl.mimetype := "text/plain";
                VideoCtl.buffer := "hello"; VideoCtl.size := 5 |} in
  let up := {| VideoCtl.title := Some "My Clip";
               VideoCtl.description := Some "A clip of the concert";
               VideoCtl.tags := VideoCtl.TagsString "music";
               VideoCtl.videoFile := Some txt;
               VideoCtl.thumbnailFile := None |} in
  fst (App.serve Sample.env {| App.authorization := Some "Bearer jwt.a1";
                               App.endpoint := App.PostUpload up |}
         (Store.seeded [Sample.boss]))
  = Store.seeded [Sample.boss].
Proof.
  intros txt up.
  refine (proj1 (upload_filter_rejects Sample.env _ _ up txt _ _)).
  - by left.
  - left. apply (bool_decide_unpack _). vm_compute. exact I.
Defined.

(** ** The current user *)

Lemma authenticate_next env authorization s s' user :
  Auth.authenticate env authorization s = (s', Ok (Auth.Next (Some user))) →
  ∃ w, Auth.findById (User._id w) (Store.users s) = Some w
       ∧ ObjectId_isValid env (User._id w) = true
       ∧ user = Auth.select_no_password w.
Proof.
  unfold Auth.authenticate, cast_id. unfold_m.
  repeat (case_match; simpl in *; simplify_eq; try done).
  intros [= -> Hu].
  match goal with
  | _ : ObjectId_isValid env ?i = true |- _ =>
      destruct (Auth.findById i (Store.users s')) as [w|] eqn:F; [|done];
      exists w; pose proof (find_some _ _ F) as [_ E];
      apply String.eqb_eq in E; subst i
  end.
  repeat split; try done. simpl in Hu. by injection Hu as <-.
Qed.

(** X14. Behind [authenticate], [getCurrentUser] answers 200 with the
    id, name, email and role of the user that [authenticate] attached,
    and without the password; its 404 is not reached, and the store is
    left as it is. *)
Theorem current_user_behind_authenticate env s authorization (user : ReqUser) :
  Auth.authenticate env authorization s = (s, Ok (Auth.Next (Some user))) →
  Account.getCurrentUser env (Some user) s
  = (s, Ok {| status := 200; body := JObj (Account.public_fields user) |})
  ∧ field "password" (JObj (Account.public_fields user)) = None
  ∧ field "email" (JObj (Account.public_fields user)) = Some (JStr (ru_email user)).
Proof.
  intros (w & Hfind & Hvalid & ->)%authenticate_next.
  split; [|done].
  unfold Account.getCurrentUser, try_catch, cast_id.
  erewrite bind_ok by reflexivity. simpl ru_id. rewrite Hvalid.
  erewrite bind_ok by reflexivity. erewrite bind_ok by reflexivity.
  by rewrite Hfind.
Qed.

(** Alice asks who she is. *)
Lemma current_user_behind_authenticate_witness :
  reply (Account.getCurrentUser Sample.env (Some Sample.viewer) Sample.db)
  = Some {| status := 200;
            body := JObj [("_id", JStr "u1"); ("name", JStr "Alice");
                          ("email", JStr "alice@example.com");
                          ("role", JStr "consumer")] |}.
Proof.
  by rewrite (proj1 (current_user_behind_authenticate Sample.env Sample.db
                       (Some "Bearer jwt.u1") Sample.viewer eq_refl)).
Defined.

(** ** Uploads *)

(** X15. [uploadVideo] always answers, with 201, 400, 403 or 500. When
    the answer is 400 or 403 the store is as it was: no blob was
    uploaded and no id was drawn. When it is 201, one video was written
    and the users and comments are as they were. *)
Theorem upload_answers env user req s :
  let x := VideoCtl.uploadVideo env user req s in
  ∃ r, reply x = Some r
       ∧ (status r = 201 ∨ status r = 400 ∨ status r = 403 ∨ status r = 500)
       ∧ (status r = 400 ∨ status r = 403 → fst x = s)
       ∧ (status r = 201 →
            ∃ id v, Store.videos (fst x) = <[id := v]> (Store.videos s)
                    ∧ Store.users (fst x) = Store.users s
                    ∧ Store.comments (fst x) = Store.comments s).
Proof.
  destruct user as [[uid uname uemail []]|];
    unfold VideoCtl.uploadVideo, VideoCtl.finish_upload, VideoCtl.upload_failed,
      VideoCtl.thumbnail_step, VideoCtl.uploadBufferToAzure,
      VideoCtl.generateThumbnailFromBuffer, VideoCtl.save; unfold_m;
    repeat (case_match; simpl in *; simplify_eq);
    (eexists; split; [reflexivity|]; simpl;
     split; [tauto|]; split; [intros [|]; (done || lia)|];
     intros; (done || lia || eauto)).
Qed.

Lemma thumbnail_step_frame env file thumbnailFile s :
  let s' := fst (VideoCtl.thumbnail_step env file thumbnailFile s) in
  Store.users s' = Store.users s
  ∧ Store.videos s' = Store.videos s
  ∧ Store.comments s' = Store.comments s
  ∧ ∀ name, Effect.has_blob name s → Effect.has_blob name s'.
Proof.
  unfold VideoCtl.thumbnail_step, VideoCtl.uploadBufferToAzure,
    VideoCtl.generateThumbnailFromBuffer. unfold_m.
  repeat (case_match; simpl in *; simplify_eq);
    repeat split; try done;
    intros name Hn; unfold Effect.has_blob in *; simpl;
    rewrite lookup_insert; by case_decide.
Qed.

Lemma check_string_short r a b min max s :
  (String.length s < min)%nat → Video.check_string r a b min max s ≠ None.
Proof.
  intros H. unfold Video.check_string. destruct (String.eqb s ""); [done|].
  destruct (Nat.ltb_spec (String.length s) min); [done|lia].
Qed.

(** What [uploadVideo] does after the thumbnail step gave a URL or
    null. *)
Lemma finish_upload_invalid env uid role title description url tags thumbnail s :
  (String.length (JsString.trim title) < 3)%nat →
  ∃ e, VideoCtl.finish_upload env uid role title description url tags thumbnail s
       = (Store.tick s, Throw e).
Proof.
  intros Hshort. unfold VideoCtl.finish_upload, VideoCtl.save.
  erewrite bind_ok by reflexivity.
  destruct (Video.validation_errors _) as [|err errs] eqn:V.
  - exfalso. revert V. unfold Video.validation_errors. simpl.
    destruct (Video.check_string _ _ _ 3 100 _) eqn:T; [done|].
    by apply check_string_short in T.
  - eexists. reflexivity.
Qed.

(** X16. The handler measures the title as it was sent and the schema
    measures it trimmed. An upload by an admin whose title has 3 to 100
    characters but fewer than 3 once trimmed passes the checks of the
    handler, puts the video in the container, and then fails: the answer
    is 500, no video is stored, and the blob stays in the container. *)
Theorem upload_padded_title_fails env (user : ReqUser) req s title description
    sanitizedTags file :
  ru_role user = admin →
  VideoCtl.title req = Some title →
  (3 ≤ String.length title ≤ 100)%nat →
  (String.length (JsString.trim title) < 3)%nat →
  VideoCtl.description req = Some description →
  (10 ≤ String.length description ≤ 500)%nat →
  VideoCtl.validateAndSanitizeTags (VideoCtl.tags req) = Ok sanitizedTags →
  VideoCtl.videoFile req = Some file →
  uploadData_error env
    (VideoCtl.blob_name env (Store.counter s) "videos" (VideoCtl.originalname file))
  = None →
  let x := VideoCtl.uploadVideo env (Some user) req s in
  status <$> reply x = Some 500
  ∧ Store.videos (fst x) = Store.videos s
  ∧ Effect.has_blob
      (VideoCtl.blob_name env (Store.counter s) "videos" (VideoCtl.originalname file))
      (fst x).
Proof.
  intros Hrole Ht Htl Hshort Hd Hdl Htags Hfile Hup x. subst x.
  rewrite (upload_video_after_blob env user req s title description
             sanitizedTags file) by done.
  set (s1 := Store.set_blobs _ (Store.tick s)).
  assert (B1 : Effect.has_blob
                 (VideoCtl.blob_name env (Store.counter s) "videos"
                    (VideoCtl.originalname file)) s1).
  { unfold Effect.has_blob, s1. simpl. rewrite lookup_insert_eq. eauto. }
  pose proof (thumbnail_step_frame env file (VideoCtl.thumbnailFile req) s1)
    as (_ & Hv & _ & Hb).
  unfold try_catch, bind.
  destruct (VideoCtl.thumbnail_step env file (VideoCtl.thumbnailFile req) s1)
    as [s2 [thumbnailUrl|e]]; simpl in Hv, Hb.
  - destruct (finish_upload_invalid env (ru_id user) admin title description
                (VideoCtl.blob_url env
                   (VideoCtl.blob_name env (Store.counter s) "videos"
                      (VideoCtl.originalname file)))
                sanitizedTags thumbnailUrl s2 Hshort) as [e ->].
    simpl. repeat split; [by rewrite Hv|by apply Hb].
  - simpl. repeat split; [by rewrite Hv|by apply Hb].
Qed.

(** A title of four spaces and one letter. *)
Lemma upload_padded_title_fails_witness :
  let req := {| VideoCtl.title := Some "  a  ";
                VideoCtl.description := Some "A clip of the concert";
                VideoCtl.tags := VideoCtl.TagsString "music,live";
                VideoCtl.videoFile := Some Sample.mp4;
                VideoCtl.thumbnailFile := None |} in
  let x := VideoCtl.uploadVideo Sample.env (Some Sample.root) req Sample.db in
  status <$> reply x = Some 500
  ∧ Store.videos (fst x) = Store.videos Sample.db
  ∧ Effect.has_blob "videos/uuid2-clip.mp4" (fst x).
Proof.
  intros req x.
  apply (upload_padded_title_fails Sample.env Sample.root req Sample.db "  a  "
           "A clip of the concert" ["music"; "live"] Sample.mp4);
    try reflexivity; vm_compute; lia.
Defined.

Lemma finish_upload_valid env uid title description blobName tags thumbnail s
    tagsInput :
  VideoCtl.validateAndSanitizeTags tagsInput = Ok tags →
  (3 ≤ String.length (JsString.trim title))%nat →
  (String.length title ≤ 100)%nat →
  (10 ≤ String.length (JsString.trim description))%nat →
  (String.length description ≤ 500)%nat →
  let video :=
    Video.new title description (VideoCtl.blob_url env blobName) thumbnail tags uid
      Video.approved in
  VideoCtl.finish_upload env uid admin title description
    (VideoCtl.blob_url env blobName) tags thumbnail s
  = (Store.set_videos (insert (new_ObjectId env (Store.counter s)) video)
       (Store.tick s),
     Ok {| status := 201;
           body := JObj (VideoCtl.uploaded (new_ObjectId env (Store.counter s))
                           video) |}).
Proof.
  intros Htags T1 T2 D1 D2 video.
  destruct (validate_fixed _ _ Htags) as (Hlen & _ & _ & _ & Hfixed).
  assert (Hval : Video.validation_errors video = [])
    by by apply new_video_valid.
  assert (Hsaved : Video.pre_save video = video) by by apply pre_save_fixed.
  unfold VideoCtl.finish_upload.
  erewrite bind_ok by reflexivity.
  change (if decide (admin = admin) then Video.approved else Video.pending)
    with Video.approved. fold video.
  erewrite bind_ok by (by apply save_ok). by rewrite Hsaved.
Qed.

(** X17. An upload by an admin with valid fields, a video file and a
    thumbnail file, both of which reach the container, stores an
    approved video whose thumbnail is the URL of the blob of the
    thumbnail file, in the folder [thumbnails], and is answered 201 with
    that URL. *)
Theorem upload_with_thumbnail env (user : ReqUser) req s title description
    sanitizedTags file thumb :
  ru_role user = admin →
  VideoCtl.title req = Some title →
  (3 ≤ String.length (JsString.trim title))%nat →
  (String.length title ≤ 100)%nat →
  VideoCtl.description req = Some description →
  (10 ≤ String.length (JsString.trim description))%nat →
  (String.length description ≤ 500)%nat →
  VideoCtl.validateAndSanitizeTags (VideoCtl.tags req) = Ok sanitizedTags →
  VideoCtl.videoFile req = Some file →
  VideoCtl.thumbnailFile req = Some thumb →
  let videoBlob :=
    VideoCtl.blob_name env (Store.counter s) "videos" (VideoCtl.originalname file) in
  let thumbBlob :=
    VideoCtl.blob_name env (S (Store.counter s)) "thumbnails"
      (VideoCtl.originalname thumb) in
  uploadData_error env videoBlob = None →
  uploadData_error env thumbBlob = None →
  let id := new_ObjectId env (S (S (Store.counter s))) in
  let video :=
    Video.new title description (VideoCtl.blob_url env videoBlob)
      (Some (VideoCtl.blob_url env thumbBlob)) sanitizedTags (ru_id user)
      Video.approved in
  VideoCtl.uploadVideo env (Some user) req s
  = ({| Store.users := Store.users s;
        Store.videos := <[id := video]> (Store.videos s);
        Store.comments := Store.comments s;
        Store.blobs :=
          <[thumbBlob := VideoCtl.buffer thumb]>
            (<[videoBlob := VideoCtl.buffer file]> (Store.blobs s));
        Store.counter := S (S (S (Store.counter s))) |},
     Ok {| status := 201; body := JObj (VideoCtl.uploaded id video) |})
  ∧ (field "video" (JObj (VideoCtl.uploaded id video)) ≫= field "thumbnail")
    = Some (JStr (VideoCtl.blob_url env thumbBlob)).
Proof.
  intros Hrole Ht T1 T2 Hd D1 D2 Htags Hfile Hthumb videoBlob thumbBlob
    Hup1 Hup2 id video.
  pose proof (trim_length title). pose proof (trim_length description).
  split; [|done].
  rewrite (upload_video_after_blob env user req s title description
             sanitizedTags file) by (done || lia).
  rewrite Hthumb. unfold VideoCtl.thumbnail_step, try_catch.
  erewrite bind_ok; cycle 1.
  { erewrite bind_ok by (by apply upload_buffer_ok). reflexivity. }
  erewrite finish_upload_valid by done. reflexivity.
Qed.

(** The sample upload with a thumbnail file, in a world where every
    upload succeeds. *)
Lemma upload_with_thumbnail_witness :
  let env := Sample.legacy in
  let x := VideoCtl.uploadVideo env (Some Sample.root)
             (Sample.upload (Some Sample.png)) Sample.db in
  (reply x ≫= fun r => field "video" (body r) ≫= field "thumbnail")
  = Some (JStr "https://beatly.blob.core.windows.net/media/thumbnails/uuid3-clip.png").
Proof.
  intros env x.
  destruct (upload_with_thumbnail env Sample.root (Sample.upload (Some Sample.png))
              Sample.db "My Clip" "A clip of the concert" ["music"; "live"]
              Sample.mp4 Sample.png) as (H & _);
    [try reflexivity; try (vm_compute; lia) .. |].
  subst x. by rewrite H.
Defined.

(** X18. No thumbnail is ever derived from a video. When the request
    has no thumbnail file, whatever else it holds and whoever sends it,
    [uploadVideo] writes no blob but that of the video file, under its
    name in the folder [videos]; a video that it stores has no thumbnail,
    and an answer 201 carries a null thumbnail. *)
Theorem upload_derives_no_thumbnail env user req s :
  VideoCtl.thumbnailFile req = None →
  let x := VideoCtl.uploadVideo env user req s in
  (∀ name,
     Store.blobs (fst x) !! name = Store.blobs s !! name
     ∨ ∃ file,
         VideoCtl.videoFile req = Some file
         ∧ name = VideoCtl.blob_name env (Store.counter s) "videos"
                    (VideoCtl.originalname file)
         ∧ Store.blobs (fst x) !! name = Some (VideoCtl.buffer file))
  ∧ (∀ id v,
       Store.videos (fst x) !! id = Some v →
       Store.videos s !! id = Some v ∨ Video.thumbnail v = None)
  ∧ (∀ r,
       reply x = Some r → status r = 201 →
       (field "video" (body r) ≫= field "thumbnail") = Some JNull).
Proof.
  intros Hthumb.
  destruct user as [[uid uname uemail []]|];
    unfold VideoCtl.uploadVideo, VideoCtl.finish_upload, VideoCtl.upload_failed,
      VideoCtl.thumbnail_step, VideoCtl.uploadBufferToAzure,
      VideoCtl.generateThumbnailFromBuffer, VideoCtl.save; unfold_m;
    rewrite ?Hthumb;
    repeat (case_match; simpl in *; simplify_eq);
    (split; [|split]);
    try (intros name; rewrite ?lookup_insert; case_decide; by eauto);
    try (intros name; simpl; rewrite lookup_insert; case_decide;
         [right; eexists; by repeat split|by left]);
    try (intros id v; rewrite ?lookup_insert; case_decide;
         intros; simplify_eq; by eauto);
    try (intros r; unfold reply; simpl; intros; simplify_eq; by simpl in * );
    try (intros; by eauto).
Qed.

(** The sample upload without a thumbnail file, in a world where every
    upload succeeds. *)
Lemma upload_derives_no_thumbnail_witness :
  let x := VideoCtl.uploadVideo Sample.legacy (Some Sample.root)
             (Sample.upload None) Sample.db in
  (reply x ≫= fun r => field "video" (body r) ≫= field "thumbnail") = Some JNull
  ∧ Store.blobs (fst x) !! "thumbnails/uuid3-clip.mp4_thumbnail.png" = None.
Proof.
  intros x.
  destruct (upload_derives_no_thumbnail Sample.legacy (Some Sample.root)
              (Sample.upload None) Sample.db eq_refl) as (Hb & _ & Hr).
  subst x. split.
  - exact (Hr _ eq_refl eq_refl).
  - destruct (Hb "thumbnails/uuid3-clip.mp4_thumbnail.png")
      as [H|(file & _ & Hname & _)]; [by rewrite H|].
    exfalso. revert Hname. unfold VideoCtl.blob_name. simpl. discriminate.
Defined.

(** ** Reading, deleting and commenting *)

(** X19. A video that is not approved is hidden from consumers: a
    consumer who reads it is answered 403; an admin is answered 200 with
    the video. Neither read counts as a view: the store is left as it
    is. *)
Theorem get_video_not_approved env (user : ReqUser) id s v :
  ObjectId_isValid env id = true →
  Store.videos s !! id = Some v →
  Video.status v ≠ Video.approved →
  VideoCtl.getVideoById env (Some user) id s
  = (s, Ok match ru_role user with
           | consumer =>
               {| status := 403;
                  body := JObj [("error", JStr "Video not available")] |}
           | admin =>
               {| status := 200;
                  body := JObj
                    [("video", VideoCtl.video_json (Store.users s) id v);
                     ("comments",
                      JArr (VideoCtl.comment_json (Store.users s)
                              <$> rev (VideoCtl.find_comments id (Store.comments s))))] |}
           end).
Proof.
  intros Hvalid Hv Hst. unfold VideoCtl.getVideoById, try_catch.
  rewrite Hvalid. cbn [negb]. erewrite bind_ok by reflexivity. rewrite Hv.
  erewrite bind_ok by reflexivity.
  rewrite (bool_decide_eq_false_2 _ Hst).
  destruct (ru_role user); [reflexivity|].
  cbn [bool_decide andb negb]. unfold_m. reflexivity.
Qed.

(** A pending copy of the sample video, read by Alice and by the
    admin. *)
Lemma get_video_not_approved_witness :
  let pending :=
    Video.mk "My Clip" "A clip of the concert" "https://x/videos/clip.mp4" None
      ["music"] "a1" Video.pending 0 0 [] 0 in
  let s := Store.set_videos (insert "v2" pending) Sample.db in
  status <$> reply (VideoCtl.getVideoById Sample.env (Some Sample.viewer) "v2" s)
  = Some 403
  ∧ fst (VideoCtl.getVideoById Sample.env (Some Sample.root) "v2" s) = s.
Proof.
  intros pending s.
  assert (L : Store.videos s !! "v2" = Some pending)
    by (simpl; apply lookup_insert_eq).
  split.
  - by rewrite (get_video_not_approved Sample.env Sample.viewer "v2" s pending
                  eq_refl L).
  - by rewrite (get_video_not_approved Sample.env Sample.root "v2" s pending
                  eq_refl L).
Defined.

Lemma find_comments_filter id j cs :
  VideoCtl.find_comments j
    (List.filter (fun c => negb (String.eqb (Comment.video c) id)) cs)
  = if String.eqb j id then [] else VideoCtl.find_comments j cs.
Proof.
  unfold VideoCtl.find_comments. induction cs as [|c cs IH]; simpl.
  - by destruct (String.eqb j id).
  - destruct (String.eqb_spec (Comment.video c) id) as [->|Hne]; simpl.
    + rewrite IH. destruct (String.eqb_spec j id) as [->|Hj]; [done|].
      assert (String.eqb id j = false) as -> by (apply String.eqb_neq; congruence).
      done.
    + rewrite IH. destruct (String.eqb_spec (Comment.video c) j) as [<-|Hcj].
      * assert (String.eqb (Comment.video c) id = false) as ->
          by by apply String.eqb_neq.
        done.
      * by destruct (String.eqb j id).
Qed.

(** X20. When an admin deletes a stored video, the video and exactly its
    comments leave the store: the other videos, the comments of the other
    videos, the users and the container are as they were, and a read of
    the deleted id is answered 404. *)
Theorem delete_video_cascade env (user viewer : ReqUser) id s v :
  ObjectId_isValid env id = true →
  Store.videos s !! id = Some v →
  ru_role user = admin →
  let s' :=
    {| Store.users := Store.users s;
       Store.videos := delete id (Store.videos s);
       Store.comments :=
         List.filter (fun c => negb (String.eqb (Comment.video c) id))
           (Store.comments s);
       Store.blobs := Store.blobs s;
       Store.counter := Store.counter s |} in
  VideoCtl.deleteVideo env (Some user) id s
  = (s', Ok {| status := 200;
               body := JObj [("message",
                              JStr "Video and associated comments deleted successfully")] |})
  ∧ VideoCtl.find_comments id (Store.comments s') = []
  ∧ (∀ other, other ≠ id →
       Store.videos s' !! other = Store.videos s !! other
       ∧ VideoCtl.find_comments other (Store.comments s')
         = VideoCtl.find_comments other (Store.comments s))
  ∧ status <$> reply (VideoCtl.getVideoById env (Some viewer) id s') = Some 404.
Proof.
  intros Hvalid Hv Hrole s'. repeat split.
  - unfold VideoCtl.deleteVideo, try_catch, cast_id. rewrite Hvalid.
    erewrite bind_ok by reflexivity. erewrite bind_ok by reflexivity.
    rewrite Hv. erewrite bind_ok by reflexivity. rewrite Hrole.
    replace (negb (bool_decide (admin = admin))) with false by reflexivity.
    cbv iota. reflexivity.
  - simpl. by rewrite find_comments_filter, String.eqb_refl.
  - simpl. by apply lookup_delete_ne.
  - simpl. rewrite find_comments_filter.
    by assert (String.eqb other id = false) as -> by by apply String.eqb_neq.
  - unfold VideoCtl.getVideoById, try_catch. rewrite Hvalid. cbn [negb].
    erewrite bind_ok by reflexivity. subst s'. cbn [Store.videos].
    by rewrite lookup_delete_eq.
Qed.

(** The admin deletes the sample video; its two comments go with it. *)
Lemma delete_video_cascade_witness :
  Store.comments (fst (VideoCtl.deleteVideo Sample.env (Some Sample.root) "v1"
                         Sample.db)) = []
  ∧ Store.videos (fst (VideoCtl.deleteVideo Sample.env (Some Sample.root) "v1"
                         Sample.db)) !! "v1" = None.
Proof.
  destruct (delete_video_cascade Sample.env Sample.root Sample.viewer "v1"
              Sample.db Sample.clip eq_refl) as (H & _);
    [vm_compute; reflexivity | reflexivity |].
  rewrite H. split; [reflexivity|]. simpl. apply lookup_delete_eq.
Defined.

Lemma find_comments_app id cs c :
  VideoCtl.find_comments id (cs ++ [c])
  = (VideoCtl.find_comments id cs
     ++ if String.eqb (Comment.video c) id then [c] else [])%list.
Proof. unfold VideoCtl.find_comments. by rewrite List.filter_app. Qed.

(** X21. A comment on a stored video goes to the end of the collection
    with the id of its author and is answered 201; the video is not
    touched (its comment counter stays as it was), and the next read of
    the video, if it is approved, lists the new comment first. *)
Theorem add_comment_then_read env (author reader : ReqUser) videoId text s v :
  let comment :=
    {| Comment._id := new_ObjectId env (Store.counter s);
       Comment.video := videoId;
       Comment.user := ru_id author;
       Comment.text := text |} in
  ObjectId_isValid env videoId = true →
  Store.videos s !! videoId = Some v →
  Video.status v = Video.approved →
  Comment_validate env comment = None →
  let x := CommentCtl.addComment env (Some author) videoId text s in
  reply x
  = Some {| status := 201;
            body := JObj [("message", JStr "Comment added successfully");
                          ("comment", JObj [("id", JStr (Comment._id comment));
                                            ("text", JStr text)])] |}
  ∧ Store.comments (fst x) = (Store.comments s ++ [comment])%list
  ∧ Store.videos (fst x) = Store.videos s
  ∧ (reply (VideoCtl.getVideoById env (Some reader) videoId (fst x))
       ≫= fun r => field "comments" (body r))
    = Some (JArr (VideoCtl.comment_json (Store.users s) comment
                    :: (VideoCtl.comment_json (Store.users s)
                          <$> rev (VideoCtl.find_comments videoId (Store.comments s))))).
Proof.
  intros comment Hvalid Hv Happ Hok x.
  assert (X : x = (Store.set_comments (fun cs => (cs ++ [comment])%list)
                     (Store.tick s),
                   Ok {| status := 201;
                         body := JObj [("message", JStr "Comment added successfully");
                                       ("comment",
                                        JObj [("id", JStr (Comment._id comment));
                                              ("text", JStr text)])] |})).
  { subst x. unfold CommentCtl.addComment, CommentCtl.save, try_catch, cast_id.
    rewrite Hvalid. erewrite bind_ok by reflexivity.
    erewrite bind_ok by reflexivity. rewrite Hv.
    erewrite bind_ok by reflexivity. erewrite bind_ok by reflexivity.
    fold comment. rewrite Hok. erewrite bind_ok by reflexivity. reflexivity. }
  rewrite X. repeat split.
  rewrite (get_video_approved env reader videoId _ v) by done.
  simpl. rewrite find_comments_app. simpl. rewrite String.eqb_refl.
  by rewrite rev_unit.
Qed.

(** Alice comments on the sample video; the admin reads it. *)
Lemma add_comment_then_read_witness :
  let x := CommentCtl.addComment Sample.env (Some Sample.viewer) "v1" "third"
             Sample.db in
  length (Store.comments (fst x)) = 3%nat
  ∧ (Store.videos (fst x) !! "v1") = Some Sample.clip.
Proof.
  intros x.
  destruct (add_comment_then_read Sample.env Sample.viewer Sample.root "v1"
              "third" Sample.db Sample.clip eq_refl)
    as (_ & H2 & H3 & _); [vm_compute; reflexivity | reflexivity | reflexivity |].
  subst x. rewrite H2, H3. split; [reflexivity|]. vm_compute. reflexivity.
Defined.

Lemma remove_found id cs c :
  CommentAdmin.findById id cs = Some c →
  Comment._id c = id
  ∧ S (length (CommentAdmin.remove id cs)) = length cs
  ∧ ∀ other, other ≠ id →
      CommentAdmin.findById other (CommentAdmin.remove id cs)
      = CommentAdmin.findById other cs.
Proof.
  unfold CommentAdmin.findById. induction cs as [|d cs IH]; simpl; [done|].
  destruct (String.eqb_spec (Comment._id d) id) as [E|E].
  - intros [= ->]. repeat split; [done|]. intros other Hne.
    assert (String.eqb (Comment._id c) other = false) as ->
      by (apply String.eqb_neq; congruence).
    done.
  - intros H. destruct (IH H) as (? & ? & Hother).
    repeat split; [done|simpl; lia|]. intros other Hne. simpl.
    by rewrite Hother.
Qed.

(** X22. Nobody but the author of a comment or an admin deletes it: for
    any other user the answer is 403 and the store is as it was. For the
    author and for an admin the outcome depends on the release of
    Mongoose. Where documents have the method [remove], the comment leaves
    the collection, which loses one element and keeps every comment with
    another id, and the answer is 200. Where they have not, from
    Mongoose 7 on, the call throws: the answer is 500 and the comment
    stays. *)
Theorem delete_comment_rights env (user : ReqUser) commentId s c :
  ObjectId_isValid env commentId = true →
  CommentAdmin.findById commentId (Store.comments s) = Some c →
  CommentAdmin.deleteComment env (Some user) commentId s
  = (if String.eqb (Comment.user c) (ru_id user) || bool_decide (ru_role user = admin)
     then
       if Document_remove env then
         (Store.set_comments (CommentAdmin.remove commentId) s,
          Ok {| status := 200;
                body := JObj [("message", JStr "Comment deleted successfully")] |})
       else
         (s, Ok {| status := 500;
                   body := JObj [("error", JStr "Failed to delete comment");
                                 ("details",
                                  JStr "comment.remove is not a function")] |})
     else
       (s, Ok {| status := 403;
                 body := JObj [("error",
                                JStr "Not authorized to delete this comment")] |}))
  ∧ S (length (CommentAdmin.remove commentId (Store.comments s)))
    = length (Store.comments s)
  ∧ (∀ other, other ≠ commentId →
       CommentAdmin.findById other (CommentAdmin.remove commentId (Store.comments s))
       = CommentAdmin.findById other (Store.comments s)).
Proof.
  intros Hvalid Hfind.
  destruct (remove_found _ _ _ Hfind) as (Hid & Hlen & Hother).
  split; [|done].
  unfold CommentAdmin.deleteComment, CommentAdmin.remove_document, try_catch, cast_id.
  rewrite Hvalid.
  erewrite bind_ok by reflexivity. erewrite bind_ok by reflexivity.
  rewrite Hfind. erewrite bind_ok by reflexivity.
  erewrite bind_ok by reflexivity. rewrite Hid.
  destruct (String.eqb (Comment.user c) (ru_id user));
    destruct (bool_decide (ru_role user = admin));
    destruct (Document_remove env); reflexivity.
Qed.

(** Another consumer may not delete the first comment of Alice. Alice
    may: with a release of Mongoose before 7 the comment goes, with a
    later one the answer is 500 and both comments stay. *)
Lemma delete_comment_rights_witness :
  let stranger := {| ru_id := "u2"; ru_name := "Bob";
                     ru_email := "bob@example.com"; ru_role := consumer |} in
  CommentAdmin.deleteComment Sample.env (Some stranger) "c1" Sample.db
  = (Sample.db,
     Ok {| status := 403;
           body := JObj [("error",
                          JStr "Not authorized to delete this comment")] |})
  ∧ length (Store.comments
              (fst (CommentAdmin.deleteComment Sample.legacy (Some Sample.viewer)
                      "c1" Sample.db))) = 1%nat
  ∧ status <$> reply (CommentAdmin.deleteComment Sample.env (Some Sample.viewer)
                        "c1" Sample.db) = Some 500.
Proof.
  intros stranger. split; [|split].
  - by rewrite (proj1 (delete_comment_rights Sample.env stranger "c1"
                         Sample.db _ eq_refl eq_refl)).
  - by rewrite (proj1 (delete_comment_rights Sample.legacy Sample.viewer "c1"
                         Sample.db _ eq_refl eq_refl)).
  - by rewrite (proj1 (delete_comment_rights Sample.env Sample.viewer "c1"
                         Sample.db _ eq_refl eq_refl)).
Defined.

(** ** Statistics *)

Lemma video_stats_found env id s v :
  ObjectId_isValid env id = true →
  Store.videos s !! id = Some v →
  Stats.getVideoStats env id s
  = (s, Ok {| status := 200;
              body := JObj
                [("video", Stats.videoStats (Store.users s) (Store.comments s) id v);
                 ("comments",
                  JArr (Stats.populated
                          (Stats.commentUsers (Store.users s)
                             (VideoCtl.find_comments id (Store.comments s)))
                          <$> VideoCtl.find_comments id (Store.comments s)))] |}).
Proof.
  intros Hvalid Hv. unfold Stats.getVideoStats, try_catch.
  rewrite Hvalid. cbn [negb]. erewrite bind_ok by reflexivity. rewrite Hv.
  unfold respond, ret. do 4 f_equal.
  unfold Stats.videoStats. simpl.
  by destruct (List.filter _ (Store.users s)).
Qed.

(** X23. The statistics of a video do not count as a view: whatever the
    id, [getVideoStats] leaves the store as it is. For a stored video
    of a store that the server reached from a seeded store, the answer is
    200 with the stored views and one entry per comment of the video, in
    the order of the collection, while the field [comments] of the video
    is the stored counter, which is 0. *)
Theorem video_stats_reports env us trace id v :
  let s := App.run trace (Store.seeded us) in
  ObjectId_isValid env id = true →
  Store.videos s !! id = Some v →
  let x := Stats.getVideoStats env id s in
  (∀ id' s', fst (Stats.getVideoStats env id' s') = s')
  ∧ status <$> reply x = Some 200
  ∧ (reply x ≫= fun r => field "video" (body r) ≫= field "views")
    = Some (JNum (Video.views v))
  ∧ (reply x ≫= fun r => field "video" (body r) ≫= field "comments")
    = Some (JNum 0)
  ∧ (reply x ≫= fun r => field "comments" (body r))
    = Some (JArr (Stats.populated
                    (Stats.commentUsers (Store.users s)
                       (VideoCtl.find_comments id (Store.comments s)))
                    <$> VideoCtl.find_comments id (Store.comments s))).
Proof.
  intros s Hvalid Hv x.
  split.
  { intros id' s'. unfold Stats.getVideoStats. unfold_m.
    repeat (case_match; simpl in *; simplify_eq; try done). }
  destruct (run_books us trace id v Hv) as (_ & _ & _ & _ & Hzero).
  subst x. rewrite (video_stats_found env id s v Hvalid Hv).
  repeat split. simpl. by rewrite Hzero.
Qed.

(** The admin uploads a video and Alice comments on it. *)
Lemma video_stats_reports_witness :
  let s :=
    App.run
      [ (Sample.env,
         {| App.authorization := Some "Bearer jwt.a1";
            App.endpoint := App.PostUpload (Sample.upload None) |});
        (Sample.env,
         {| App.authorization := Some "Bearer jwt.u1";
            App.endpoint := App.PostComment "oid1" "nice" |}) ]
      (Store.seeded [Sample.boss; Sample.alice]) in
  length (VideoCtl.find_comments "oid1" (Store.comments s)) = 1%nat
  ∧ (reply (Stats.getVideoStats Sample.env "oid1" s)
       ≫= fun r => field "video" (body r) ≫= field "comments")
    = Some (JNum 0).
Proof.
  intros s. split; [vm_compute; reflexivity|].
  destruct (video_stats_reports Sample.env [Sample.boss; Sample.alice]
              [ (Sample.env,
                 {| App.authorization := Some "Bearer jwt.a1";
                    App.endpoint := App.PostUpload (Sample.upload None) |});
                (Sample.env,
                 {| App.authorization := Some "Bearer jwt.u1";
                    App.endpoint := App.PostComment "oid1" "nice" |}) ]
              "oid1"
              (Video.new "My Clip" "A clip of the concert"
                 "https://beatly.blob.core.windows.net/media/videos/uuid0-clip.mp4"
                 None ["music"; "live"] "a1" Video.approved)
              eq_refl) as (_ & _ & _ & H & _); [vm_compute; reflexivity|].
  exact H.
Defined.

Lemma find_in_filter {A} (p q : A → bool) l :
  (∀ x, p x = true → q x = true) →
  List.find p (List.filter q l) = List.find p l.
Proof.
  intros H. induction l as [|x l IH]; simpl; [done|].
  destruct (q x) eqn:Q; simpl.
  - by rewrite IH.
  - destruct (p x) eqn:P; [|done]. apply H in P. congruence.
Qed.

(** X24. The statistics of a video return every comment of the video
    joined with the whole record of its author when the author is
    stored: the entry of the comment carries the password hash of the
    author. *)
Theorem video_stats_exposes_hash env id s v c u :
  ObjectId_isValid env id = true →
  Store.videos s !! id = Some v →
  In c (VideoCtl.find_comments id (Store.comments s)) →
  Auth.findById (Comment.user c) (Store.users s) = Some u →
  ∃ entries entry,
    (reply (Stats.getVideoStats env id s) ≫= fun r => field "comments" (body r))
    = Some (JArr entries)
    ∧ In entry entries
    ∧ field "text" entry = Some (JStr (Comment.text c))
    ∧ (field "User" entry ≫= field "password") = Some (JStr (User.password u))
    ∧ (field "User" entry ≫= field "email") = Some (JStr (User.email u)).
Proof.
  intros Hvalid Hv Hin Hu.
  rewrite (video_stats_found env id s v Hvalid Hv).
  set (cs := VideoCtl.find_comments id (Store.comments s)) in *.
  exists (Stats.populated (Stats.commentUsers (Store.users s) cs) <$> cs),
         (Stats.populated (Stats.commentUsers (Store.users s) cs) c).
  split; [done|]. split; [by apply in_map|].
  assert (F : List.find (fun w => String.eqb (User._id w) (Comment.user c))
                (Stats.commentUsers (Store.users s) cs) = Some u).
  { unfold Stats.commentUsers. rewrite find_in_filter; [exact Hu|].
    intros w Hw%String.eqb_eq. apply existsb_exists. exists c.
    split; [done|]. by apply String.eqb_eq. }
  unfold Stats.populated. rewrite F. done.
Qed.

(** The statistics of the sample video carry the hash of Alice. *)
Lemma video_stats_exposes_hash_witness :
  ∃ entries entry,
    (reply (Stats.getVideoStats Sample.env "v1" Sample.db)
       ≫= fun r => field "comments" (body r)) = Some (JArr entries)
    ∧ In entry entries
    ∧ (field "User" entry ≫= field "password") = Some (JStr "$2a$secret").
Proof.
  destruct (video_stats_exposes_hash Sample.env "v1" Sample.db Sample.clip
              {| Comment._id := "c1"; Comment.video := "v1"; Comment.user := "u1";
                 Comment.text := "first" |} Sample.alice eq_refl)
    as (entries & entry & H1 & H2 & _ & H4 & _);
    [vm_compute; reflexivity | by left | reflexivity |].
  exists entries, entry. by repeat split.
Defined.

(** ** Seeding the admin *)

Lemma find_admin_last us u :
  User.role u = admin → is_Some (Seed.findOne_admin (us ++ [u])).
Proof.
  intros H. unfold Seed.findOne_admin. induction us as [|w us IH]; simpl.
  - rewrite H. simpl. eauto.
  - destruct (bool_decide (User.role w = admin)); eauto.
Qed.

Lemma create_admin_present env s :
  is_Some (Seed.findOne_admin (Store.users s)) →
  Seed.createAdmin env s = (s, Ok tt).
Proof.
  intros [w H]. unfold Seed.createAdmin, try_catch.
  erewrite bind_ok by reflexivity. by rewrite H.
Qed.

(** X25. On a store without an admin and without a user of the email
    admin@beatly.com, the seeding script stores one admin with that email
    and the hash of the password in the script, provided the user model
    accepts it. After that, a second run of the script changes nothing,
    and a login with that email and the password admin123 is answered 200
    with a token for the role admin, provided [bcrypt.compare] accepts the
    hash. *)
Theorem create_admin_seeds env env' s :
  let seeded :=
    {| User._id := new_ObjectId env (S (Store.counter s));
       User.name := "Admin";
       User.email := "admin@beatly.com";
       User.password :=
         bcrypt_hash env "admin123" (bcrypt_genSalt env (Store.counter s));
       User.role := admin |} in
  Seed.findOne_admin (Store.users s) = None →
  Auth.findOne_email "admin@beatly.com" (Store.users s) = None →
  User_validate env seeded = None →
  bcrypt_compare env' "admin123" (User.password seeded) = Ok true →
  let s1 := fst (Seed.createAdmin env s) in
  Store.users s1 = (Store.users s ++ [seeded])%list
  ∧ Store.videos s1 = Store.videos s
  ∧ Store.comments s1 = Store.comments s
  ∧ Seed.createAdmin env' s1 = (s1, Ok tt)
  ∧ Auth.login env' {| Auth.login_email := Some "admin@beatly.com";
                       Auth.login_password := Auth.Text "admin123" |} s1
    = (s1, Ok {| status := 200;
                 body := JObj [("message", JStr "Login successful");
                               ("user", Auth.user_json seeded);
                               ("token",
                                JStr (jwt_sign env' (User._id seeded) "Admin"
                                        "admin@beatly.com" admin))] |}).
Proof.
  intros seeded Hnone Hfree Hval Hcmp s1.
  assert (S1 : Seed.createAdmin env s
               = (Store.set_users (fun us => (us ++ [seeded])%list)
                    (Store.tick (Store.tick s)), Ok tt)).
  { unfold Seed.createAdmin, Seed.save, Auth.save_user, try_catch.
    erewrite bind_ok by reflexivity. rewrite Hnone.
    erewrite bind_ok by reflexivity. erewrite bind_ok by reflexivity.
    erewrite bind_ok by reflexivity.
    cbn [Store.counter Store.tick Store.users User.email]. fold seeded.
    rewrite Hfree, Hval. reflexivity. }
  subst s1. rewrite S1. cbn [fst].
  repeat split.
  - apply create_admin_present. simpl. by apply find_admin_last.
  - unfold Auth.login, Auth.compare, try_catch.
    cbn [Auth.login_email Auth.login_password].
    change (Auth.falsy (Some "admin@beatly.com")
            || negb (Auth.truthy (Auth.Text "admin123")))
      with false. cbv iota.
    change (Auth.str (Some "admin@beatly.com")) with "admin@beatly.com".
    erewrite bind_ok by reflexivity.
    cbn [Store.users Store.set_users Store.tick].
    rewrite (find_email_last _ _ seeded Hfree eq_refl).
    by rewrite Hcmp.
Qed.

(** Seeding the sample store, which has Alice only. *)
Lemma create_admin_seeds_witness :
  let s1 := fst (Seed.createAdmin Sample.env Sample.db) in
  length (Store.users s1) = 2%nat
  ∧ status <$> reply (Auth.login Sample.env
                        {| Auth.login_email := Some "admin@beatly.com";
                           Auth.login_password := Auth.Text "admin123" |} s1)
    = Some 200.
Proof.
  intros s1.
  destruct (create_admin_seeds Sample.env Sample.env Sample.db
              eq_refl eq_refl eq_refl eq_refl) as (H1 & _ & _ & _ & H5).
  fold s1 in H1, H5. rewrite H1, H5. split; reflexivity.
Defined.

(** ** Likes through the handler *)

Lemma toggle_like_likes userId v :
  Video.likes (Video.toggleLike userId v)
  = if bool_decide (userId ∈ Video.likedBy v) then Video.likes v - 1
    else Video.likes v + 1.
Proof.
  case_bool_decide as H.
  - by rewrite (toggle_like_unlike _ _ H).
  - by rewrite (toggle_like_like _ _ H).
Qed.

Lemma toggle_twice_likes userId v :
  NoDup (Video.likedBy v) →
  Video.likes (Video.toggleLike userId (Video.toggleLike userId v)) = Video.likes v.
Proof.
  intros Hnd. pose proof (toggle_like_member userId v Hnd) as M.
  rewrite !toggle_like_likes.
  repeat case_bool_decide; (lia || tauto).
Qed.

Lemma run_well_formed us trace :
  Effect.videos_well_formed (App.run trace (Store.seeded us)).
Proof.
  apply run_invariant; [apply change_well_formed|apply map_Forall_empty].
Qed.

Lemma toggle_well_formed userId v :
  Effect.well_formed v → Effect.well_formed (Video.toggleLike userId v).
Proof.
  intros W. apply (well_formed_same_text v); try done;
    unfold Video.toggleLike; by case_match.
Qed.

(** [likeVideo] on a well-formed video: what [this.save()] writes is the
    toggled document, as the save hook leaves it. *)
Lemma like_video_stores env (user : ReqUser) id s v :
  ObjectId_isValid env id = true →
  Store.videos s !! id = Some v →
  ru_role user = consumer →
  Effect.well_formed v →
  VideoCtl.likeVideo env (Some user) id s
  = (Store.set_videos (insert id (Video.toggleLike (ru_id user) v)) s,
     Ok {| status := 200;
           body := JObj [("message", JStr "Video like toggled");
                         ("likes",
                          JNum (Video.likes (Video.toggleLike (ru_id user) v)))] |}).
Proof.
  intros Hvalid Hv Hrole W.
  pose proof (toggle_well_formed (ru_id user) v W) as W1.
  rewrite (like_video_answer env user id s v) by (done || apply W1).
  destruct W1 as (_ & _ & _ & _ & _ & ->). done.
Qed.

(** C4. In a store that the server reached from a seeded store, a
    consumer likes a stored video twice in a row. Each call of [likeVideo]
    saves the document that [toggleLike] gives and answers 200 with its
    like counter. After the second call the counter is back at its value.
    After each call the consumer is in the like list exactly when that
    toggle took the branch "Like". If the consumer had not liked the
    video, the first call appends the consumer and increments the counter,
    and the second removes the consumer again and decrements it. *)
Theorem like_video_twice env us trace (user : ReqUser) id v :
  let s := App.run trace (Store.seeded us) in
  ObjectId_isValid env id = true →
  Store.videos s !! id = Some v →
  ru_role user = consumer →
  let userId := ru_id user in
  let v1 := Video.toggleLike userId v in
  let v2 := Video.toggleLike userId v1 in
  let answer w :=
    {| status := 200;
       body := JObj [("message", JStr "Video like toggled");
                     ("likes", JNum (Video.likes w))] |} in
  let x1 := VideoCtl.likeVideo env (Some user) id s in
  let x2 := VideoCtl.likeVideo env (Some user) id (fst x1) in
  x1 = (Store.set_videos (insert id v1) s, Ok (answer v1))
  ∧ x2 = (Store.set_videos (insert id v2) (fst x1), Ok (answer v2))
  ∧ Store.videos (fst x1) !! id = Some v1
  ∧ Store.videos (fst x2) !! id = Some v2
  ∧ Video.likes v2 = Video.likes v
  ∧ (userId ∈ Video.likedBy v1 ↔ Video.toggle_is_like userId v = true)
  ∧ (userId ∈ Video.likedBy v2 ↔ Video.toggle_is_like userId v1 = true)
  ∧ (Video.toggle_is_like userId v = true →
       Video.likedBy v1 = (Video.likedBy v ++ [userId])%list
       ∧ Video.likes v1 = Video.likes v + 1
       ∧ Video.toggle_is_like userId v1 = false
       ∧ Video.likedBy v2 = Video.likedBy v
       ∧ Video.likes v2 = Video.likes v1 - 1).
Proof.
  intros s Hvalid Hv Hrole userId v1 v2 answer x1 x2.
  pose proof (run_well_formed us trace id v Hv) as W.
  destruct (run_books us trace id v Hv) as [[_ Hnd] _].
  pose proof (toggle_well_formed userId v W) as W1.
  assert (X1 : x1 = (Store.set_videos (insert id v1) s, Ok (answer v1)))
    by by apply like_video_stores.
  assert (L1 : Store.videos (fst x1) !! id = Some v1)
    by (rewrite X1; simpl; apply lookup_insert_eq).
  assert (X2 : x2 = (Store.set_videos (insert id v2) (fst x1), Ok (answer v2)))
    by by apply like_video_stores.
  destruct (toggle_twice_document userId v Hnd) as (T1 & T2 & T3 & T4).
  split; [done|]. split; [done|]. split; [done|].
  split; [rewrite X2; simpl; apply lookup_insert_eq|].
  split; [done|]. split; [done|]. split; [done|].
  intros Hlike. destruct (T4 Hlike) as (? & ? & ? & _ & ?).
  repeat split; try done.
  apply toggle_like_undo. by apply toggle_like_branch.
Qed.

(** The admin uploads a video, then Alice likes it and takes the like
    back. *)
Lemma like_video_twice_witness :
  let s :=
    App.run
      [ (Sample.env,
         {| App.authorization := Some "Bearer jwt.a1";
            App.endpoint := App.PostUpload (Sample.upload None) |}) ]
      (Store.seeded [Sample.boss; Sample.alice]) in
  let x1 := VideoCtl.likeVideo Sample.env (Some Sample.viewer) "oid1" s in
  let x2 := VideoCtl.likeVideo Sample.env (Some Sample.viewer) "oid1" (fst x1) in
  (Video.likedBy <$> Store.videos (fst x1) !! "oid1") = Some ["u1"]
  ∧ (Video.likes <$> Store.videos (fst x1) !! "oid1") = Some 1
  ∧ (Video.likedBy <$> Store.videos (fst x2) !! "oid1") = Some []
  ∧ (Video.likes <$> Store.videos (fst x2) !! "oid1") = Some 0.
Proof.
  intros s x1 x2.
  destruct (like_video_twice Sample.env [Sample.boss; Sample.alice]
              [ (Sample.env,
                 {| App.authorization := Some "Bearer jwt.a1";
                    App.endpoint := App.PostUpload (Sample.upload None) |}) ]
              Sample.viewer "oid1"
              (Video.new "My Clip" "A clip of the concert"
                 "https://beatly.blob.core.windows.net/media/videos/uuid0-clip.mp4"
                 None ["music"; "live"] "a1" Video.approved)
              eq_refl) as (_ & _ & H1 & H2 & _);
    [vm_compute; reflexivity | reflexivity |].
  fold s x1 x2 in H1, H2. rewrite H1, H2. repeat split.
Defined.

(** X26. In a store that the server reached from a seeded store, two
    likes in a row by one consumer on a stored video are both answered
    200: the first with the like counter moved by one, up if the consumer
    had not liked the video and down otherwise, the second with the
    counter back at its value, which is also what the store then
    holds. *)
Theorem like_twice_through_handler env us trace (user : ReqUser) id v :
  let s := App.run trace (Store.seeded us) in
  ObjectId_isValid env id = true →
  Store.videos s !! id = Some v →
  ru_role user = consumer →
  let x1 := VideoCtl.likeVideo env (Some user) id s in
  let x2 := VideoCtl.likeVideo env (Some user) id (fst x1) in
  status <$> reply x1 = Some 200
  ∧ (reply x1 ≫= fun r => field "likes" (body r))
    = Some (JNum (if bool_decide (ru_id user ∈ Video.likedBy v)
                  then Video.likes v - 1 else Video.likes v + 1))
  ∧ status <$> reply x2 = Some 200
  ∧ (reply x2 ≫= fun r => field "likes" (body r)) = Some (JNum (Video.likes v))
  ∧ Video.likes <$> Store.videos (fst x2) !! id = Some (Video.likes v).
Proof.
  intros s Hvalid Hv Hrole x1 x2.
  pose proof (run_well_formed us trace id v Hv) as W.
  destruct (run_books us trace id v Hv) as [[_ Hnd] _].
  pose proof (toggle_well_formed (ru_id user) v W) as W1.
  pose proof (toggle_well_formed (ru_id user) _ W1) as W2.
  assert (X1 : x1 = (Store.set_videos
                       (insert id (Video.toggleLike (ru_id user) v)) s,
                     Ok {| status := 200;
                           body := JObj
                             [("message", JStr "Video like toggled");
                              ("likes",
                               JNum (Video.likes (Video.toggleLike (ru_id user) v)))] |})).
  { subst x1. rewrite (like_video_answer env user id s v) by (done || apply W1).
    destruct W1 as (_ & _ & _ & _ & _ & ->). done. }
  assert (X2 : x2 = (Store.set_videos
                       (insert id (Video.toggleLike (ru_id user)
                                     (Video.toggleLike (ru_id user) v))) (fst x1),
                     Ok {| status := 200;
                           body := JObj
                             [("message", JStr "Video like toggled");
                              ("likes",
                               JNum (Video.likes
                                       (Video.toggleLike (ru_id user)
                                          (Video.toggleLike (ru_id user) v))))] |})).
  { subst x2. rewrite X1. cbn [fst].
    rewrite (like_video_answer env user id _ (Video.toggleLike (ru_id user) v));
      [|done|simpl; apply lookup_insert_eq|done|apply W2].
    destruct W2 as (_ & _ & _ & _ & _ & ->). done. }
  rewrite X2, X1. cbn [fst]. unfold reply. simpl.
  rewrite toggle_twice_likes by done. rewrite toggle_like_likes.
  repeat split. rewrite lookup_insert_eq. simpl.
  by rewrite toggle_twice_likes.
Qed.

(** The admin uploads a video and Alice likes it twice. *)
Lemma like_twice_through_handler_witness :
  let s :=
    App.run
      [ (Sample.env,
         {| App.authorization := Some "Bearer jwt.a1";
            App.endpoint := App.PostUpload (Sample.upload None) |}) ]
      (Store.seeded [Sample.boss; Sample.alice]) in
  let x1 := VideoCtl.likeVideo Sample.env (Some Sample.viewer) "oid1" s in
  let x2 := VideoCtl.likeVideo Sample.env (Some Sample.viewer) "oid1" (fst x1) in
  (reply x1 ≫= fun r => field "likes" (body r)) = Some (JNum 1)
  ∧ (reply x2 ≫= fun r => field "likes" (body r)) = Some (JNum 0).
Proof.
  intros s x1 x2.
  destruct (like_twice_through_handler Sample.env [Sample.boss; Sample.alice]
              [ (Sample.env,
                 {| App.authorization := Some "Bearer jwt.a1";
                    App.endpoint := App.PostUpload (Sample.upload None) |}) ]
              Sample.viewer "oid1"
              (Video.new "My Clip" "A clip of the concert"
                 "https://beatly.blob.core.windows.net/media/videos/uuid0-clip.mp4"
                 None ["music"; "live"] "a1" Video.approved)
              eq_refl) as (_ & H1 & _ & H2 & _);
    [vm_compute; reflexivity | reflexivity |].
  split; [exact H1|exact H2].
Defined.
